(** * json_replace: masking the values of keys ending in [_X]

    A shallow embedding of [src/json_replace.cpp].  The C++ code walks two raw
    pointers, [*p_src] over the NUL-terminated input and [*p_dest] over a
    freshly allocated output buffer of [strlen (str) + 1] bytes.  Both
    pointers are threaded through every routine by reference, and the only
    non-local control flow is one [throw std::invalid_argument].

    The embedding keeps that shape: a state-and-error monad over the pair of
    cursors, with one primitive per pointer idiom of the source.  Reading past
    the terminator and writing past the allocation are undefined behaviour in
    C++; the model makes both an explicit outcome, [OutOfBounds]. *)

From Stdlib Require Import String Ascii.
From Stdlib Require Import List Bool Arith ZArith Lia.
From Stdlib Require Import DecimalString.
Import ListNotations.

(** * The program *)

(** ** Bytes and the constants of the source *)

Definition char : Type := ascii.

Definition NUL : char := "000"%char.
Definition DQUOTE : char := "034"%char.
Definition BACKSLASH : char := "\"%char.
Definition LBRACKET : char := "["%char.
Definition RBRACKET : char := "]"%char.

(** [TARGET_SUFFIX]: the two bytes of the designated key suffix. *)
Definition TARGET_SUFFIX : list char := ["_"%char; "X"%char].
(** [REPLACE_CHAR]: the placeholder byte, an asterisk. *)
Definition REPLACE_CHAR : char := "*"%char.
(** [ESCAPED_TARGET_SUFFIX]: the suffix followed by a double quote. *)
Definition ESCAPED_TARGET_SUFFIX : list char := TARGET_SUFFIX ++ [DQUOTE].
(** [JSON_READ_ERROR_MSG]: the text carried by the exception. *)
Definition JSON_READ_ERROR_MSG : string :=
  "json_replace only allows for strings and array of strings as json values.".

Definition char_eqb (a b : char) : bool := Ascii.eqb a b.
Infix "==" := char_eqb (at level 70, no associativity).
Definition char_neqb (a b : char) : bool := negb (char_eqb a b).
Infix "!=" := char_neqb (at level 70, no associativity).

(** ** C strings *)

(** The bytes of a C string that starts at the head of [s]: everything before
    the first NUL. *)
Fixpoint until_nul (s : list char) : list char :=
  match s with
  | [] => []
  | c :: r => if c == NUL then [] else c :: until_nul r
  end.

Definition strlen (s : list char) : nat := length (until_nul s).

(** [strncmp (s1, s2, n)]: compares at most [n] bytes, stopping after a NUL
    the two strings share.  A list that ends stands for a string whose next
    byte is the terminator. *)
Fixpoint strncmp (s1 s2 : list char) (n : nat) : Z :=
  match n with
  | O => 0%Z
  | S n' =>
      let c1 := hd NUL s1 in
      let c2 := hd NUL s2 in
      if c1 != c2
      then (Z.of_nat (nat_of_ascii c1) - Z.of_nat (nat_of_ascii c2))%Z
      else if c1 == NUL then 0%Z
      else strncmp (tl s1) (tl s2) n'
  end.

(** ** Outcomes and the cursor monad *)

Inductive result (A : Type) : Type :=
| Ok (a : A)                (* the routine returns *)
| Throw (what : string)     (* std::invalid_argument (what) propagates *)
| OutOfBounds               (* a read past the terminator or a write past
                               the allocation: undefined behaviour *)
| OutOfFuel.                (* the iteration budget of the model ran out *)

Arguments Ok {A} a.
Arguments Throw {A} what.
Arguments OutOfBounds {A}.
Arguments OutOfFuel {A}.

(** [src] holds the bytes from [*p_src] up to and including the terminator of
    the input ([[]] is the pointer one past it); [dest] holds the bytes written
    so far, from the start of the buffer up to [*p_dest]; [cap] is the size of
    the allocation behind [dest]. *)
Record cursors : Type := Cursors {
  src : list char;
  dest : list char;
  cap : nat
}.

Definition M (A : Type) : Type := cursors -> result (A * cursors).

Definition ret {A} (a : A) : M A := fun st => Ok (a, st).

Definition bind {A B} (m : M A) (k : A -> M B) : M B :=
  fun st =>
    match m st with
    | Ok (a, st') => k a st'
    | Throw what => Throw what
    | OutOfBounds => OutOfBounds
    | OutOfFuel => OutOfFuel
    end.

Notation "x <- m ;; k" := (bind m (fun x => k))
  (at level 61, m at next level, right associativity).
Notation "m ;; k" := (bind m (fun _ => k))
  (at level 61, right associativity).

Definition throw {A} (what : string) : M A := fun _ => Throw what.

(** Reading the byte under the source cursor. *)
Definition peek : M char :=
  fun st =>
    match src st with
    | [] => OutOfBounds
    | c :: _ => Ok (c, st)
    end.

(** Storing [c] under the destination cursor and advancing it. *)
Definition emit (c : char) : M unit :=
  fun st =>
    if length (dest st) <? cap st
    then Ok (tt, Cursors (src st) (dest st ++ [c]) (cap st))
    else OutOfBounds.

(** Advancing the source cursor by one byte. *)
Definition skip : M unit :=
  fun st =>
    match src st with
    | [] => OutOfBounds
    | _ :: r => Ok (tt, Cursors r (dest st) (cap st))
    end.

(** Copying one byte from source to destination and advancing both. *)
Definition copy : M unit :=
  c <- peek ;; emit c ;; skip.

(** The position of [*p_dest] in its buffer, for [char *temp = dest] and
    [dest - temp]. *)
Definition dest_pos : M nat := fun st => Ok (length (dest st), st).

(** A loop of the source gets an iteration budget of one more than the number
    of bytes left under [*p_src].  Every iteration of every loop consumes at
    least one byte, so the budget is never the reason a loop stops
    (see [json_replace_fuel]). *)
Definition bounded {A} (loop : nat -> M A) : M A :=
  fun st => loop (S (length (src st))) st.

(** ** The scan routines *)

(** [read_json_filler]: copy while the byte under [*p_src] is neither the
    terminator, a double quote nor an opening bracket. *)
Fixpoint read_json_filler_loop (fuel : nat) : M unit :=
  match fuel with
  | O => fun _ => OutOfFuel
  | S fuel' =>
      c <- peek ;;
      if (c != NUL) && (c != DQUOTE) && (c != LBRACKET)
      then copy ;; read_json_filler_loop fuel'
      else ret tt
  end.

Definition read_json_filler : M unit := bounded read_json_filler_loop.

(** The body loop of [read_json_string], which runs while the byte is not a
    double quote or [escaped] is set: the flag is cleared, set again when the
    byte is a backslash, and the byte is copied. *)
Fixpoint read_json_string_loop (fuel : nat) (escaped : bool) : M unit :=
  match fuel with
  | O => fun _ => OutOfFuel
  | S fuel' =>
      c <- peek ;;
      if (c != DQUOTE) || escaped
      then copy ;; read_json_string_loop fuel' (c == BACKSLASH)
      else ret tt
  end.

Definition read_json_string : M unit :=
  copy ;;
  bounded (fun fuel => read_json_string_loop fuel false) ;;
  copy.

(** The body loop of [read_and_replace_json_string]: the same scan, with
    the source cursor advanced in place of the copy. *)
Fixpoint skip_json_string_loop (fuel : nat) (escaped : bool) : M unit :=
  match fuel with
  | O => fun _ => OutOfFuel
  | S fuel' =>
      c <- peek ;;
      if (c != DQUOTE) || escaped
      then skip ;; skip_json_string_loop fuel' (c == BACKSLASH)
      else ret tt
  end.

Definition read_and_replace_json_string : M unit :=
  copy ;;
  c <- peek ;;
  if c == DQUOTE
  then copy
  else
    bounded (fun fuel => skip_json_string_loop fuel false) ;;
    emit REPLACE_CHAR ;;
    copy.

(** The array loop of [read_json_value]: it runs until the byte is a closing
    bracket. *)
Fixpoint read_json_array_loop (fuel : nat) (replace : bool) : M unit :=
  match fuel with
  | O => fun _ => OutOfFuel
  | S fuel' =>
      c <- peek ;;
      if c != RBRACKET
      then
        (if c == DQUOTE
         then (if replace then read_and_replace_json_string else read_json_string)
         else copy) ;;
        read_json_array_loop fuel' replace
      else ret tt
  end.

Definition read_json_value (replace : bool) : M unit :=
  c <- peek ;;
  if c == DQUOTE
  then (if replace then read_and_replace_json_string else read_json_string)
  else if c == LBRACKET
  then
    copy ;;
    bounded (fun fuel => read_json_array_loop fuel replace) ;;
    copy
  else throw JSON_READ_ERROR_MSG.

(** [dest - temp >= min_key_len &&
     strncmp (dest - min_key_len, ESCAPED_TARGET_SUFFIX, min_key_len) == 0]:
    [&&] short-circuits, so [strncmp] only ever starts inside the key. *)
Definition key_is_target (temp min_key_len : nat) : M bool :=
  fun st =>
    let d := dest st in
    Ok ((min_key_len <=? length d - temp)
        && (strncmp (skipn (length d - min_key_len) d)
                    ESCAPED_TARGET_SUFFIX min_key_len =? 0)%Z,
        st).

(** The loop of [json_replace_no_try_catch]: it runs until the byte under the
    source cursor is the terminator. *)
Fixpoint json_replace_loop (fuel : nat) (min_key_len : nat) : M unit :=
  match fuel with
  | O => fun _ => OutOfFuel
  | S fuel' =>
      c <- peek ;;
      if c != NUL
      then
        read_json_filler ;;
        temp <- dest_pos ;;
        read_json_string ;;
        replace <- key_is_target temp min_key_len ;;
        read_json_filler ;;
        read_json_value replace ;;
        read_json_filler ;;
        json_replace_loop fuel' min_key_len
      else ret tt
  end.

Definition json_replace_no_try_catch : M unit :=
  let min_key_len := strlen ESCAPED_TARGET_SUFFIX in
  bounded (fun fuel => json_replace_loop fuel min_key_len) ;;
  emit NUL.

(** [std::string json_replace (const char *str)]: the buffer is
    [new char[strlen (str) + 1]], the result is [std::string new_str (dest)],
    the bytes of [dest] before its first NUL, and the handler rethrows with
    the fixed message.  [str] lists the bytes stored before the terminator of
    the argument; the overload for [std::string] passes [c_str ()], the same
    bytes.  Should a NUL be among them, as a [std::string] may hold one, the
    loops and [strlen] take it for the terminator, as the source does. *)
Definition json_replace (str : list char) : result (list char) :=
  let mem := str ++ [NUL] in
  match json_replace_no_try_catch (Cursors mem [] (strlen mem + 1)) with
  | Ok (_, st) => Ok (until_nul (dest st))
  | Throw _ => Throw JSON_READ_ERROR_MSG
  | OutOfBounds => OutOfBounds
  | OutOfFuel => OutOfFuel
  end.

(** Inputs are written with ['] standing for the double quote. *)
Definition text (s : string) : list char :=
  map (fun c => if c == "'"%char then DQUOTE else c) (list_ascii_of_string s).

(** * The grammar of the specification *)

(** ** Filler and strings *)

(** Filler: bytes that are none of the double quote, the opening bracket and
    the terminator.  Between the elements of an array the closing bracket
    takes the place of the opening one. *)
Definition filler_char (c : char) : bool :=
  (c != NUL) && (c != DQUOTE) && (c != LBRACKET).

Definition gap_char (c : char) : bool :=
  (c != NUL) && (c != DQUOTE) && (c != RBRACKET).

Definition is_filler (f : list char) : bool := forallb filler_char f.
Definition is_gap (g : list char) : bool := forallb gap_char g.

(** The body of a string literal: plain bytes, and escape pairs made of a
    backslash and the byte it escapes. *)
Fixpoint is_string_body (b : list char) : bool :=
  match b with
  | [] => true
  | c :: b' =>
      if c == BACKSLASH
      then match b' with
           | [] => false
           | e :: b'' => (e != NUL) && is_string_body b''
           end
      else (c != DQUOTE) && (c != NUL) && is_string_body b'
  end.

(** What the scan of the source needs of a body that follows the byte [prev]:
    every double quote in it comes right after a backslash, and the byte
    before the closing quote is not a backslash. *)
Fixpoint well_quoted (prev : char) (b : list char) : bool :=
  match b with
  | [] => prev != BACKSLASH
  | c :: b' =>
      ((c != DQUOTE) || (prev == BACKSLASH)) && (c != NUL) && well_quoted c b'
  end.

(** Masking keeps an empty body and turns any other into the placeholder. *)
Definition mask_body (b : list char) : list char :=
  match b with
  | [] => []
  | _ :: _ => [REPLACE_CHAR]
  end.

Definition quoted (b : list char) : list char := DQUOTE :: b ++ [DQUOTE].

(** The filler scanner stops at [s]: its first byte is a double quote, an
    opening bracket or the terminator. *)
Definition filler_stops (s : list char) : bool :=
  match s with
  | [] => false
  | c :: _ => negb (filler_char c)
  end.

Definition nul_free (l : list char) : bool := forallb (fun c => c != NUL) l.

(** ** Documents *)

(** A value is a string, given by its body, or an array: the bytes after the
    opening bracket, then the elements, each a body with the bytes that follow
    its closing quote. *)
Inductive value : Type :=
| VString (body : list char)
| VArray (gap : list char) (elems : list (list char * list char)).

(** A key/value pair with the filler before the key, between key and value,
    and after the value. *)
Record entry : Type := Entry {
  lead : list char;
  key : list char;
  sep : list char;
  val : value;
  trail : list char
}.

Definition document : Type := list entry.

Definition render_elem (e : list char * list char) : list char :=
  quoted (fst e) ++ snd e.

Definition render_elems (es : list (list char * list char)) : list char :=
  flat_map render_elem es.

Definition render_value (v : value) : list char :=
  match v with
  | VString b => quoted b
  | VArray g es => LBRACKET :: g ++ render_elems es ++ [RBRACKET]
  end.

Definition render_pair (e : entry) : list char :=
  quoted (key e) ++ sep e ++ render_value (val e) ++ trail e.

Definition render_entry (e : entry) : list char := lead e ++ render_pair e.

Definition render (d : document) : list char := flat_map render_entry d.

(** The number of elements of an array value. *)
Definition elem_count (v : value) : nat :=
  match v with
  | VString _ => 0
  | VArray _ es => length es
  end.

(** The expected output: the values of target keys masked, string by
    string. *)
Definition mask_elem (e : list char * list char) : list char * list char :=
  (mask_body (fst e), snd e).

Definition mask_value (v : value) : value :=
  match v with
  | VString b => VString (mask_body b)
  | VArray g es => VArray g (map mask_elem es)
  end.

Fixpoint chars_eqb (a b : list char) : bool :=
  match a, b with
  | [], [] => true
  | x :: a', y :: b' => (x == y) && chars_eqb a' b'
  | _, _ => false
  end.

(** A key is a target when its body ends with the suffix. *)
Definition ends_with (suffix l : list char) : bool :=
  (length suffix <=? length l)
  && chars_eqb (skipn (length l - length suffix) l) suffix.

Definition is_target (k : list char) : bool := ends_with TARGET_SUFFIX k.

Definition mask_entry (e : entry) : entry :=
  if is_target (key e)
  then Entry (lead e) (key e) (sep e) (mask_value (val e)) (trail e)
  else e.

Definition mask (d : document) : document := map mask_entry d.

(** Well-formedness, with the strings as the scan needs them. *)
Definition scannable_elem (e : list char * list char) : bool :=
  well_quoted DQUOTE (fst e) && is_gap (snd e).

Definition scannable_value (v : value) : bool :=
  match v with
  | VString b => well_quoted DQUOTE b
  | VArray g es => is_gap g && forallb scannable_elem es
  end.

Definition scannable_pair (e : entry) : bool :=
  well_quoted DQUOTE (key e) && is_filler (sep e)
  && scannable_value (val e) && is_filler (trail e).

Definition scannable_entry (e : entry) : bool :=
  is_filler (lead e) && scannable_pair e.

Definition scannable (d : document) : bool := forallb scannable_entry d.

(** What a value is read as, by the replace flag. *)
Definition read_elems (replace : bool) (es : list (list char * list char)) :=
  if replace then map mask_elem es else es.

Definition read_value (replace : bool) (v : value) : value :=
  if replace then mask_value v else v.

(** ** The replace decision of the specification *)

(** The decision as the specification words it, on the key span with its
    quotes: at least three bytes, the last three being the suffix and a
    double quote. *)
Definition span_is_target (span : list char) : bool :=
  (3 <=? length span)
  && chars_eqb (skipn (length span - 3) span) ESCAPED_TARGET_SUFFIX.

(** ** The grammar with string literals, and what the scan needs beyond it *)

Definition conforming_elem (e : list char * list char) : bool :=
  is_string_body (fst e) && is_gap (snd e).

Definition conforming_value (v : value) : bool :=
  match v with
  | VString b => is_string_body b
  | VArray g es => is_gap g && forallb conforming_elem es
  end.

Definition conforming_entry (e : entry) : bool :=
  is_filler (lead e) && is_string_body (key e) && is_filler (sep e)
  && conforming_value (val e) && is_filler (trail e).

(** A flat sequence of quoted-key / filler / value pairs, each value a string
    literal or a bracketed array of string literals. *)
Definition conforming (d : document) : bool := forallb conforming_entry d.

(** The last byte of [prev :: b]. *)
Fixpoint final (prev : char) (b : list char) : char :=
  match b with
  | [] => prev
  | c :: b' => final c b'
  end.

(** The byte before the closing quote is not a backslash. *)
Definition closes (b : list char) : bool := final DQUOTE b != BACKSLASH.

Definition closing_value (v : value) : bool :=
  match v with
  | VString b => closes b
  | VArray _ es => forallb (fun e => closes (fst e)) es
  end.

Definition closing (d : document) : bool :=
  forallb (fun e => closes (key e) && closing_value (val e)) d.

Definition no_target (d : document) : bool :=
  forallb (fun e => negb (is_target (key e))) d.

(** No double quote of [b], read after the byte [prev], stops the scan: each
    comes right after a backslash. *)
Fixpoint quotes_escaped (prev : char) (b : list char) : bool :=
  match b with
  | [] => true
  | c :: b' => ((c != DQUOTE) || (prev == BACKSLASH)) && quotes_escaped c b'
  end.

(** ** Documents that differ in masked bodies only *)

(** Two bodies are alike when both are empty or neither is. *)
Definition alike_body (b1 b2 : list char) : bool :=
  match b1, b2 with
  | [], [] => true
  | _ :: _, _ :: _ => true
  | _, _ => false
  end.

Fixpoint alike_elems (es1 es2 : list (list char * list char)) : bool :=
  match es1, es2 with
  | [], [] => true
  | e1 :: r1, e2 :: r2 =>
      alike_body (fst e1) (fst e2) && chars_eqb (snd e1) (snd e2)
      && alike_elems r1 r2
  | _, _ => false
  end.

Fixpoint elems_eqb (es1 es2 : list (list char * list char)) : bool :=
  match es1, es2 with
  | [], [] => true
  | e1 :: r1, e2 :: r2 =>
      chars_eqb (fst e1) (fst e2) && chars_eqb (snd e1) (snd e2)
      && elems_eqb r1 r2
  | _, _ => false
  end.

Definition value_eqb (v1 v2 : value) : bool :=
  match v1, v2 with
  | VString b1, VString b2 => chars_eqb b1 b2
  | VArray g1 es1, VArray g2 es2 => chars_eqb g1 g2 && elems_eqb es1 es2
  | _, _ => false
  end.

(** Two values are alike when they have the same shape and their strings
    are alike: nothing is said of what a string that is not empty holds. *)
Definition alike_value (v1 v2 : value) : bool :=
  match v1, v2 with
  | VString b1, VString b2 => alike_body b1 b2
  | VArray g1 es1, VArray g2 es2 => chars_eqb g1 g2 && alike_elems es1 es2
  | _, _ => false
  end.

(** Two pairs are alike when they are equal but for the value of a target
    key, where the values are alike. *)
Definition alike_entry (e1 e2 : entry) : bool :=
  chars_eqb (lead e1) (lead e2) && chars_eqb (key e1) (key e2)
  && chars_eqb (sep e1) (sep e2) && chars_eqb (trail e1) (trail e2)
  && (if is_target (key e1)
      then alike_value (val e1) (val e2)
      else value_eqb (val e1) (val e2)).

Fixpoint alike (d1 d2 : document) : bool :=
  match d1, d2 with
  | [], [] => true
  | e1 :: r1, e2 :: r2 => alike_entry e1 e2 && alike r1 r2
  | _, _ => false
  end.

(** ** Occurrences of a byte sequence *)

(** [l] starts with the bytes [pat]. *)
Fixpoint starts_with (pat l : list char) : bool :=
  match pat, l with
  | [], _ => true
  | p :: pat', c :: l' => (p == c) && starts_with pat' l'
  | _ :: _, [] => false
  end.

(** The bytes [pat] occur somewhere in [l]. *)
Fixpoint occurs (pat l : list char) : bool :=
  starts_with pat l
  || match l with
     | [] => false
     | _ :: l' => occurs pat l'
     end.

(** * What a run consumes and writes *)

(** From [st] to [st'] the source cursor moved over [c] and [w] was appended
    to the output; the allocation is the same. *)
Definition moved (st st' : cursors) (c w : list char) : Prop :=
  cap st' = cap st /\ src st = c ++ src st' /\ dest st' = dest st ++ w.

(** [run m st throws Q]: from [st] the routine [m] never exhausts its
    iteration budget, throws only if [throws], and when it returns it has
    moved over some [c] and written some [w] that satisfy [Q]. *)
Definition run {A} (m : M A) (st : cursors) (throws : Prop)
    (Q : A -> cursors -> list char -> list char -> Prop) : Prop :=
  match m st with
  | Ok (a, st') => exists c w, moved st st' c w /\ Q a st' c w
  | Throw _ => throws
  | OutOfBounds => True
  | OutOfFuel => False
  end.

(** ** Runs replayed *)

(** The outcome of a run apart from the size of the allocation. *)
Definition outcome {A} (r : result (A * cursors))
    : result (A * (list char * list char)) :=
  match r with
  | Ok (a, st) => Ok (a, (src st, dest st))
  | Throw what => Throw what
  | OutOfBounds => OutOfBounds
  | OutOfFuel => OutOfFuel
  end.

(** What a reader that returns before the terminator has done, and does
    again over any other tail, after any other output, in any allocation with
    room for what it writes. *)
Definition replays (m : M unit) (s d : list char) (n : nat) (st' : cursors)
    : Prop :=
  exists c w s',
    s = c ++ s' /\ st' = Cursors (s' ++ [NUL]) (d ++ w) n
    /\ length w <= length c /\ 2 <= length c /\ nul_free w = true
    /\ forall t p n',
         length p + length d + length w <= n' ->
         m (Cursors (s ++ t) (p ++ d) n')
         = Ok (tt, Cursors (s' ++ t) (p ++ d ++ w) n').

(** [resumes t te wt room budget]: over the tail [t], after filler, the loop
    returns at [te] with [wt] written, given that room and that budget. *)
Definition resumes (t te wt : list char) (room budget : nat) : Prop :=
  forall f P n' fuel',
    is_filler f = true ->
    length P + length f + room <= n' ->
    length f + budget < fuel' ->
    (read_json_filler ;;
     json_replace_loop fuel' (strlen ESCAPED_TARGET_SUFFIX))
      (Cursors (f ++ t) P n')
    = Ok (tt, Cursors te (P ++ f ++ wt) n').

(** * The test program *)

(** How far the test program has got: it is running, [main] has returned a
    status, [assert] has failed and the program has aborted, an exception has
    left [main], or the behaviour is undefined. *)
Inductive progress : Type :=
| Running
| Exited (status : Z)
| Aborted
| Uncaught (what : string)
| Undefined.

(** A statement of the test program, over what [std::cout] has received. *)
Definition statement : Type := list char -> list char * progress.

(** Statements in sequence: the next one runs while the program is
    running. *)
Fixpoint sequence (l : list statement) : statement :=
  match l with
  | [] => fun out => (out, Running)
  | s :: l' =>
      fun out =>
        match s out with
        | (out', Running) => sequence l' out'
        | stopped => stopped
        end
  end.

(** The bytes of a string literal. *)
Definition bytes (s : string) : list char := list_ascii_of_string s.

(** [std::cout << s]. *)
Definition print (s : list char) : statement :=
  fun out => (out ++ s, Running).

(** [std::cout << n] for an [int]. *)
Definition print_int (n : Z) : statement :=
  print (bytes (NilZero.string_of_int (Z.to_int n))).

(** [std::cout << std::endl]. *)
Definition endl : statement := print ["010"%char].

(** [assert (b)]. *)
Definition assert (b : bool) : statement :=
  fun out => (out, if b then Running else Aborted).

(** [return status] in [main]. *)
Definition return_status (status : Z) : statement :=
  fun out => (out, Exited status).

(** A statement that uses [json_replace (s)] for a [std::string s], which is
    [json_replace (s.c_str ())]: an exception leaves the caller, and a run
    that leaves its bounds is undefined behaviour.  The iteration budget of
    the model never runs out (see [json_replace_fuel]). *)
Definition with_json_replace (s : list char) (use : list char -> statement)
    : statement :=
  fun out =>
    match json_replace s with
    | Ok actual => use actual out
    | Throw what => (out, Uncaught what)
    | OutOfBounds => (out, Undefined)
    | OutOfFuel => (out, Undefined)
    end.

Definition json_test_compare
    (testNum : Z) (testName expected actual : list char) : statement :=
  sequence
    [print (bytes "Running test "); print_int testNum; print (bytes ": ");
     print testName; print (bytes " ..."); endl;
     (if negb (chars_eqb expected actual)
      then sequence
             [print (bytes "Expected: "); print expected;
              print ("010"%char :: bytes "Actual  : "); print actual; endl]
      else sequence []);
     assert (chars_eqb expected actual);
     print (bytes "Test "); print_int testNum; print (bytes " passed: ");
     print testName; endl].

Definition input1 : list char :=
  text "'key' : 'value' , '1':'2', 'array0' : [], 'arr1': ['hello'], 'arr2':['1' , '2,'], 'arr3:' : ['\']']".
Definition expected1 : list char :=
  text "'key' : 'value' , '1':'2', 'array0' : [], 'arr1': ['hello'], 'arr2':['1' , '2,'], 'arr3:' : ['\']']".

Definition input2 : list char :=
  text "'key' : 'value', 'k2_X': 'value2', 'k3_X': ['abc'], 'k4_X': ['a', 'b','c']".
Definition expected2 : list char :=
  text "'key' : 'value', 'k2_X': '*', 'k3_X': ['*'], 'k4_X': ['*', '*','*']".

Definition input3 : list char :=
  text "'key' : 'value', 'k2_X': 'value2', 'k3_X': ['abc'], 'k4_X': ['a', 'b','c']".

Definition input4 : list char :=
  text "'key' : 'va\'l[ue]' ,
'k\'1[e]:,y':['[h,i]', '12:{}\'', '']   ,   '{\] b0_X' : 'v\a\'l[ue]', 'key_X': ['[h,i]', '12:{}\'', '']".
Definition expected4 : list char :=
  text "'key' : 'va\'l[ue]' ,
'k\'1[e]:,y':['[h,i]', '12:{}\'', '']   ,   '{\] b0_X' : '*', 'key_X': ['*', '*', '']".

Definition input5 : list char :=
  text "'key' : 'אב', 'key2' : '[עברית]', 'key3_X' : 'עברית', 'key4_X':['א']".
Definition expected5 : list char :=
  text "'key' : 'אב', 'key2' : '[עברית]', 'key3_X' : '*', 'key4_X':['*']".

Definition input6 : list char := text "{'key' : 'val', 'key_X' : 'val'}".
Definition expected6 : list char := text "{'key' : 'val', 'key_X' : '*'}".

Definition input7 : list char :=
  text "'key1': ' 形式 ', 'key2':[' 形式 '], 'key3_X': ' 形式 ', 'key4_X' : [' 形式 ']".
Definition expected7 : list char :=
  text "'key1': ' 形式 ', 'key2':[' 形式 '], 'key3_X': '*', 'key4_X' : ['*']".

Definition input8 : list char := text "'k':'val', '_X': 'val2', '': ''".
Definition expected8 : list char := text "'k':'val', '_X': '*', '': ''".

Definition json_replace_tests : statement :=
  sequence
    [print (bytes "running tests..."); endl;
     with_json_replace input1
       (json_test_compare 1 (bytes "various inputs") expected1);
     with_json_replace input2
       (json_test_compare 2 (bytes "various replacements") expected2);
     json_test_compare 3 (bytes "original string unchanged") input3 input2;
     with_json_replace input4
       (json_test_compare 4 (bytes "various edge cases") expected4);
     with_json_replace input5
       (json_test_compare 5 (bytes "hebrew") expected5);
     with_json_replace input6
       (json_test_compare 6 (bytes "curly bracketed json") expected6);
     with_json_replace input7
       (json_test_compare 7 (bytes "japanese") expected7);
     with_json_replace input8
       (json_test_compare 8 (bytes "short keys") expected8);
     print (bytes "Passed all tests!"); endl].

Definition EXIT_SUCCESS : Z := 0.

Definition main : statement :=
  sequence [json_replace_tests; return_status EXIT_SUCCESS].

(** Lines as [std::cout] receives them, each ended by [std::endl]. *)
Definition lines (l : list string) : list char :=
  flat_map (fun s => bytes s ++ ["010"%char]) l.

(** * Proofs *)

(** ** The tests of [json_replace_tests] *)

Example test1_various_inputs :
  let input := text "'key' : 'value' , '1':'2', 'array0' : [], 'arr1': ['hello'], 'arr2':['1' , '2,'], 'arr3:' : ['\']']" in
  json_replace input = Ok input.
Proof. vm_compute. reflexivity. Qed.

Example test2_various_replacements :
  json_replace (text "'key' : 'value', 'k2_X': 'value2', 'k3_X': ['abc'], 'k4_X': ['a', 'b','c']")
  = Ok (text "'key' : 'value', 'k2_X': '*', 'k3_X': ['*'], 'k4_X': ['*', '*','*']").
Proof. vm_compute. reflexivity. Qed.

Example test4_various_edge_cases :
  json_replace (text "'key' : 'va\'l[ue]' ,
'k\'1[e]:,y':['[h,i]', '12:{}\'', '']   ,   '{\] b0_X' : 'v\a\'l[ue]', 'key_X': ['[h,i]', '12:{}\'', '']")
  = Ok (text "'key' : 'va\'l[ue]' ,
'k\'1[e]:,y':['[h,i]', '12:{}\'', '']   ,   '{\] b0_X' : '*', 'key_X': ['*', '*', '']").
Proof. vm_compute. reflexivity. Qed.

Example test5_hebrew :
  json_replace (text "'key' : 'אב', 'key2' : '[עברית]', 'key3_X' : 'עברית', 'key4_X':['א']")
  = Ok (text "'key' : 'אב', 'key2' : '[עברית]', 'key3_X' : '*', 'key4_X':['*']").
Proof. vm_compute. reflexivity. Qed.

Example test6_curly_bracketed_json :
  json_replace (text "{'key' : 'val', 'key_X' : 'val'}")
  = Ok (text "{'key' : 'val', 'key_X' : '*'}").
Proof. vm_compute. reflexivity. Qed.

Example test7_japanese :
  json_replace (text "'key1': ' 形式 ', 'key2':[' 形式 '], 'key3_X': ' 形式 ', 'key4_X' : [' 形式 ']")
  = Ok (text "'key1': ' 形式 ', 'key2':[' 形式 '], 'key3_X': '*', 'key4_X' : ['*']").
Proof. vm_compute. reflexivity. Qed.

Example test8_short_keys :
  json_replace (text "'k':'val', '_X': 'val2', '': ''")
  = Ok (text "'k':'val', '_X': '*', '': ''").
Proof. vm_compute. reflexivity. Qed.

(** ** Bytes: comparison *)

Lemma char_eqb_true (a b : char) : (a == b) = true <-> a = b.
Proof. unfold char_eqb. apply Ascii.eqb_eq. Qed.

Lemma char_eqb_false (a b : char) : (a == b) = false <-> a <> b.
Proof. unfold char_eqb. apply Ascii.eqb_neq. Qed.

Lemma char_eqb_refl (a : char) : (a == a) = true.
Proof. apply char_eqb_true. reflexivity. Qed.

Lemma char_eqb_diff (a b : char) : a <> b -> (a == b) = false.
Proof. apply char_eqb_false. Qed.

Lemma char_neqb_true (a b : char) : (a != b) = true <-> a <> b.
Proof.
  unfold char_neqb. rewrite negb_true_iff. apply char_eqb_false.
Qed.

Lemma char_neqb_false (a b : char) : (a != b) = false <-> a = b.
Proof.
  unfold char_neqb. rewrite negb_false_iff. apply char_eqb_true.
Qed.

Lemma char_neqb_refl (a : char) : (a != a) = false.
Proof. apply char_neqb_false. reflexivity. Qed.

(** ** Running the primitives *)

Lemma bind_ok A B (m : M A) (k : A -> M B) st a st' :
  m st = Ok (a, st') -> bind m k st = k a st'.
Proof. intros H. unfold bind. rewrite H. reflexivity. Qed.

Arguments bind_ok {A B m} k {st a st'} _.

Ltac run_with H := rewrite (bind_ok _ H); cbv beta.

Lemma peek_cons c s d n :
  peek (Cursors (c :: s) d n) = Ok (c, Cursors (c :: s) d n).
Proof. reflexivity. Qed.

Lemma emit_ok c s d n :
  length d < n -> emit c (Cursors s d n) = Ok (tt, Cursors s (d ++ [c]) n).
Proof.
  intros H. unfold emit. simpl.
  apply Nat.ltb_lt in H. rewrite H. reflexivity.
Qed.

Lemma skip_cons c s d n : skip (Cursors (c :: s) d n) = Ok (tt, Cursors s d n).
Proof. reflexivity. Qed.

Lemma copy_cons c s d n :
  length d < n -> copy (Cursors (c :: s) d n) = Ok (tt, Cursors s (d ++ [c]) n).
Proof.
  intros H. unfold copy.
  run_with (peek_cons c s d n).
  run_with (emit_ok c (c :: s) d n H).
  reflexivity.
Qed.

(** ** The filler scanner *)

Ltac side := simpl in *; rewrite ?length_app in *; simpl in *; lia.
Ltac run_peek := rewrite (bind_ok _ (peek_cons _ _ _ _)); cbv beta.
Ltac run_skip := rewrite (bind_ok _ (skip_cons _ _ _ _)); cbv beta.
Ltac run_copy :=
  erewrite (bind_ok _); [ | apply copy_cons; side ]; cbv beta.
Ltac run_emit :=
  erewrite (bind_ok _); [ | apply emit_ok; side ]; cbv beta.

Lemma read_json_filler_loop_stops fuel c r d n :
  filler_char c = false ->
  read_json_filler_loop (S fuel) (Cursors (c :: r) d n)
  = Ok (tt, Cursors (c :: r) d n).
Proof.
  intros Hc. cbn [read_json_filler_loop]. run_peek.
  unfold filler_char in Hc. rewrite Hc. reflexivity.
Qed.

Lemma read_json_filler_loop_copies f : forall fuel c r d n,
  is_filler f = true ->
  filler_char c = false ->
  length (f ++ c :: r) < fuel ->
  length d + length (f ++ c :: r) <= n ->
  read_json_filler_loop fuel (Cursors (f ++ c :: r) d n)
  = Ok (tt, Cursors (c :: r) (d ++ f) n).
Proof.
  induction f as [|a f IH]; intros fuel c r d n Hf Hc Hfuel Hcap.
  - destruct fuel as [|fuel]; [simpl in Hfuel; lia|].
    rewrite app_nil_r. apply read_json_filler_loop_stops. exact Hc.
  - destruct fuel as [|fuel]; [simpl in Hfuel; lia|].
    simpl in Hf. apply andb_true_iff in Hf. destruct Hf as [Ha Hf].
    cbn [read_json_filler_loop app]. run_peek.
    unfold filler_char in Ha. rewrite Ha.
    run_copy.
    rewrite (IH fuel c r (d ++ [a]) n Hf Hc).
    + rewrite <- app_assoc. reflexivity.
    + simpl in Hfuel. lia.
    + side.
Qed.

Lemma read_json_filler_copies f c r d n :
  is_filler f = true ->
  filler_char c = false ->
  length d + length (f ++ c :: r) <= n ->
  read_json_filler (Cursors (f ++ c :: r) d n)
  = Ok (tt, Cursors (c :: r) (d ++ f) n).
Proof.
  intros Hf Hc Hcap. unfold read_json_filler, bounded.
  apply read_json_filler_loop_copies; auto.
Qed.

(** ** The string readers *)

Lemma read_json_string_loop_copies b : forall prev fuel r d n,
  well_quoted prev b = true ->
  length (b ++ DQUOTE :: r) < fuel ->
  length d + length (b ++ DQUOTE :: r) <= n ->
  read_json_string_loop fuel (prev == BACKSLASH) (Cursors (b ++ DQUOTE :: r) d n)
  = Ok (tt, Cursors (DQUOTE :: r) (d ++ b) n).
Proof.
  induction b as [|c b IH]; intros prev fuel r d n Hb Hfuel Hcap;
    (destruct fuel as [|fuel]; [simpl in Hfuel; lia|]);
    cbn [read_json_string_loop app]; run_peek.
  - simpl in Hb. apply char_neqb_true, char_eqb_false in Hb.
    rewrite Hb, char_neqb_refl, app_nil_r. reflexivity.
  - simpl in Hb. apply andb_true_iff in Hb. destruct Hb as [Hb Hrest].
    apply andb_true_iff in Hb. destruct Hb as [Hc _].
    rewrite Hc. run_copy.
    rewrite (IH c fuel r (d ++ [c]) n Hrest).
    + rewrite <- app_assoc. reflexivity.
    + side.
    + side.
Qed.

Lemma skip_json_string_loop_skips b : forall prev fuel r d n,
  well_quoted prev b = true ->
  length (b ++ DQUOTE :: r) < fuel ->
  skip_json_string_loop fuel (prev == BACKSLASH) (Cursors (b ++ DQUOTE :: r) d n)
  = Ok (tt, Cursors (DQUOTE :: r) d n).
Proof.
  induction b as [|c b IH]; intros prev fuel r d n Hb Hfuel;
    (destruct fuel as [|fuel]; [simpl in Hfuel; lia|]);
    cbn [skip_json_string_loop app]; run_peek.
  - simpl in Hb. apply char_neqb_true, char_eqb_false in Hb.
    rewrite Hb, char_neqb_refl. reflexivity.
  - simpl in Hb. apply andb_true_iff in Hb. destruct Hb as [Hb Hrest].
    apply andb_true_iff in Hb. destruct Hb as [Hc _].
    rewrite Hc. run_skip.
    apply (IH c fuel r d n Hrest). side.
Qed.

Lemma read_json_string_copies b r d n :
  well_quoted DQUOTE b = true ->
  length d + length (quoted b ++ r) <= n ->
  read_json_string (Cursors (quoted b ++ r) d n)
  = Ok (tt, Cursors r (d ++ quoted b) n).
Proof.
  intros Hb Hcap. unfold quoted in *. cbn [app] in *.
  rewrite <- app_assoc in *. cbn [app] in *.
  unfold read_json_string. run_copy.
  unfold bounded at 1. cbn [src].
  erewrite (bind_ok _);
    [ | apply (read_json_string_loop_copies b DQUOTE); [exact Hb | side | side] ].
  rewrite copy_cons by side.
  rewrite <- !app_assoc. reflexivity.
Qed.

Lemma read_and_replace_json_string_masks b r d n :
  well_quoted DQUOTE b = true ->
  length d + length (quoted b ++ r) <= n ->
  read_and_replace_json_string (Cursors (quoted b ++ r) d n)
  = Ok (tt, Cursors r (d ++ quoted (mask_body b)) n).
Proof.
  intros Hb Hcap. unfold quoted in *. cbn [app] in *.
  rewrite <- app_assoc in *. cbn [app] in *.
  unfold read_and_replace_json_string. run_copy.
  destruct b as [|c b].
  - cbn [app]. run_peek. rewrite char_eqb_refl.
    rewrite copy_cons by side.
    rewrite <- app_assoc. reflexivity.
  - cbn [app]. run_peek.
    assert (Hc : (c == DQUOTE) = false).
    { simpl in Hb. apply andb_true_iff in Hb. destruct Hb as [Hb _].
      apply andb_true_iff in Hb. destruct Hb as [Hb _].
      unfold char_neqb in Hb. simpl in Hb. rewrite orb_false_r in Hb.
      apply negb_true_iff in Hb. exact Hb. }
    rewrite Hc.
    unfold bounded at 1. cbn [src].
    erewrite (bind_ok _);
      [ | apply (skip_json_string_loop_skips (c :: b) DQUOTE); [exact Hb | side] ].
    run_emit.
    rewrite copy_cons by side.
    cbn [mask_body app]. rewrite <- !app_assoc. reflexivity.
Qed.

(** ** The value reader *)

Lemma read_json_array_loop_gap replace g : forall fuel s d n res,
  is_gap g = true ->
  length (g ++ s) < fuel ->
  length d + length (g ++ s) <= n ->
  (forall fuel', length s < fuel' ->
     read_json_array_loop fuel' replace (Cursors s (d ++ g) n) = res) ->
  read_json_array_loop fuel replace (Cursors (g ++ s) d n) = res.
Proof.
  induction g as [|c g IH]; intros fuel s d n res Hg Hfuel Hcap Hk.
  - rewrite app_nil_r in Hk. apply Hk. exact Hfuel.
  - destruct fuel as [|fuel]; [simpl in Hfuel; lia|].
    simpl in Hg. apply andb_true_iff in Hg. destruct Hg as [Hc Hg].
    unfold gap_char in Hc.
    apply andb_true_iff in Hc. destruct Hc as [Hc Hbr].
    apply andb_true_iff in Hc. destruct Hc as [_ Hq].
    cbn [read_json_array_loop app]. run_peek.
    rewrite Hbr. apply char_neqb_true, char_eqb_false in Hq. rewrite Hq.
    run_copy.
    apply IH; [exact Hg | side | side |].
    intros fuel' Hfuel'. rewrite <- app_assoc. apply Hk. exact Hfuel'.
Qed.

Lemma render_elems_cons b g es :
  render_elems ((b, g) :: es) = quoted b ++ g ++ render_elems es.
Proof.
  unfold render_elems. cbn [flat_map]. unfold render_elem. cbn [fst snd].
  rewrite <- app_assoc. reflexivity.
Qed.

Lemma read_elems_cons replace b g es :
  read_elems replace ((b, g) :: es)
  = ((if replace then mask_body b else b), g) :: read_elems replace es.
Proof. destruct replace; reflexivity. Qed.

Lemma length_quoted b : length (quoted b) = S (S (length b)).
Proof. unfold quoted. simpl. rewrite length_app. simpl. lia. Qed.

Lemma length_mask_body b : length (mask_body b) <= length b.
Proof. destruct b; simpl; lia. Qed.

Lemma peek_quoted b r d n :
  peek (Cursors (quoted b ++ r) d n) = Ok (DQUOTE, Cursors (quoted b ++ r) d n).
Proof. reflexivity. Qed.

(** One string of a value, read as the flag says. *)
Lemma read_string_as (replace : bool) b r d n :
  well_quoted DQUOTE b = true ->
  length d + length (quoted b ++ r) <= n ->
  (if replace return M unit
   then read_and_replace_json_string else read_json_string)
    (Cursors (quoted b ++ r) d n)
  = Ok (tt, Cursors r (d ++ quoted (if replace then mask_body b else b)) n).
Proof.
  intros Hb Hcap. destruct replace.
  - apply read_and_replace_json_string_masks; assumption.
  - apply read_json_string_copies; assumption.
Qed.

Lemma read_json_array_loop_elems replace es : forall fuel r d n,
  forallb scannable_elem es = true ->
  length (render_elems es ++ RBRACKET :: r) < fuel ->
  length d + length (render_elems es ++ RBRACKET :: r) <= n ->
  read_json_array_loop fuel replace
    (Cursors (render_elems es ++ RBRACKET :: r) d n)
  = Ok (tt, Cursors (RBRACKET :: r)
                    (d ++ render_elems (read_elems replace es)) n).
Proof.
  induction es as [|[b g] es IH]; intros fuel r d n Hes Hfuel Hcap.
  - destruct fuel as [|fuel]; [simpl in Hfuel; lia|].
    cbn [render_elems flat_map app read_json_array_loop]. run_peek.
    rewrite char_neqb_refl.
    destruct replace; cbn [read_elems map render_elems flat_map];
      rewrite app_nil_r; reflexivity.
  - destruct fuel as [|fuel]; [simpl in Hfuel; lia|].
    simpl in Hes. apply andb_true_iff in Hes. destruct Hes as [Hbg Hes].
    unfold scannable_elem in Hbg. cbn [fst snd] in Hbg.
    apply andb_true_iff in Hbg. destruct Hbg as [Hb Hg].
    rewrite read_elems_cons, !render_elems_cons.
    rewrite render_elems_cons in Hfuel, Hcap.
    rewrite <- !app_assoc in *.
    cbn [read_json_array_loop].
    rewrite (bind_ok _ (peek_quoted _ _ _ _)). cbv beta.
    change (DQUOTE != RBRACKET) with true. rewrite char_eqb_refl. cbv iota.
    rewrite (bind_ok _ (read_string_as replace b _ d n Hb Hcap)).
    pose proof (length_mask_body b) as Hm.
    rewrite !length_app, length_quoted in Hfuel, Hcap.
    apply read_json_array_loop_gap; [exact Hg | | | ].
    + rewrite !length_app. lia.
    + rewrite !length_app, length_quoted. destruct replace; lia.
    + intros fuel' Hfuel'.
      rewrite (IH fuel' r _ n Hes Hfuel').
      * rewrite <- !app_assoc. reflexivity.
      * rewrite !length_app, length_quoted in *. destruct replace; lia.
Qed.

Lemma read_json_value_reads replace v r d n :
  scannable_value v = true ->
  length d + length (render_value v ++ r) <= n ->
  read_json_value replace (Cursors (render_value v ++ r) d n)
  = Ok (tt, Cursors r (d ++ render_value (read_value replace v)) n).
Proof.
  intros Hv Hcap. destruct v as [b | g es]; unfold read_json_value.
  - cbn [render_value] in *.
    rewrite (bind_ok _ (peek_quoted _ _ _ _)). cbv beta.
    rewrite char_eqb_refl.
    rewrite (read_string_as replace b r d n Hv Hcap).
    destruct replace; reflexivity.
  - cbn [render_value scannable_value] in *.
    apply andb_true_iff in Hv. destruct Hv as [Hg Hes].
    cbn [app] in *. rewrite <- !app_assoc in *. cbn [app] in *.
    run_peek.
    change (LBRACKET == DQUOTE) with false. rewrite char_eqb_refl. cbv iota.
    run_copy.
    unfold bounded at 1. cbn [src].
    erewrite (bind_ok _).
    2:{ apply read_json_array_loop_gap; [exact Hg | side | side |].
        intros fuel' Hfuel'.
        apply (read_json_array_loop_elems replace es fuel' r _ n Hes Hfuel').
        side. }
    rewrite copy_cons.
    + f_equal. f_equal. f_equal.
      destruct replace; cbn [read_value mask_value render_value read_elems app];
        rewrite <- !app_assoc; reflexivity.
    + pose proof (length_mask_body []) as _.
      assert (Hlen : length (render_elems (read_elems replace es))
                     <= length (render_elems es)).
      { clear. induction es as [|[b g] es IH].
        - destruct replace; simpl; lia.
        - rewrite read_elems_cons, !render_elems_cons.
          rewrite !length_app, !length_quoted.
          pose proof (length_mask_body b). destruct replace; lia. }
      rewrite !length_app in *. simpl in *. rewrite !length_app in *.
      simpl in *. lia.
Qed.

(** ** The replace decision *)

Lemma chars_eqb_true a : forall b, chars_eqb a b = true <-> a = b.
Proof.
  induction a as [|x a IH]; intros [|y b]; simpl; split; intros H;
    try reflexivity; try discriminate.
  - apply andb_true_iff in H. destruct H as [Hx Ha].
    apply char_eqb_true in Hx. apply IH in Ha. subst. reflexivity.
  - injection H as Hx Ha. subst.
    rewrite char_eqb_refl. simpl. apply IH. reflexivity.
Qed.

Lemma nat_of_ascii_diff (a b : char) :
  a <> b -> (Z.of_nat (nat_of_ascii a) - Z.of_nat (nat_of_ascii b) <> 0)%Z.
Proof.
  intros Hab H. apply Hab.
  assert (Hn : nat_of_ascii a = nat_of_ascii b) by lia.
  rewrite <- (ascii_nat_embedding a), <- (ascii_nat_embedding b), Hn.
  reflexivity.
Qed.

(** One byte of [strncmp] against a byte of the pattern that is not NUL. *)
Lemma strncmp_step a s p ps n :
  p <> NUL ->
  (strncmp (a :: s) (p :: ps) (S n) =? 0)%Z
  = (a == p) && (strncmp s ps n =? 0)%Z.
Proof.
  intros Hp. cbn [strncmp hd tl]. unfold char_neqb.
  destruct (a == p) eqn:Hap; cbn [negb andb].
  - apply char_eqb_true in Hap. subst a.
    rewrite (char_eqb_diff _ _ Hp). reflexivity.
  - apply char_eqb_false in Hap.
    apply Z.eqb_neq. apply nat_of_ascii_diff. exact Hap.
Qed.

Lemma strncmp_suffix a b c :
  (strncmp [a; b; c] ESCAPED_TARGET_SUFFIX 3 =? 0)%Z
  = chars_eqb [a; b; c] ESCAPED_TARGET_SUFFIX.
Proof.
  unfold ESCAPED_TARGET_SUFFIX, TARGET_SUFFIX. cbn [app chars_eqb].
  rewrite !strncmp_step by discriminate.
  cbn [strncmp]. rewrite !andb_true_r, andb_assoc. reflexivity.
Qed.

Lemma last_three (l : list char) :
  3 <= length l ->
  exists a b c, skipn (length l - 3) l = [a; b; c].
Proof.
  intros H.
  assert (Hlen : length (skipn (length l - 3) l) = 3)
    by (rewrite length_skipn; lia).
  destruct (skipn (length l - 3) l) as [|a [|b [|c [|e t]]]];
    try discriminate.
  exists a, b, c. reflexivity.
Qed.

Lemma skipn_buffer (d0 span : list char) k :
  k <= length span ->
  skipn (length (d0 ++ span) - k) (d0 ++ span) = skipn (length span - k) span.
Proof.
  intros Hk. rewrite length_app, skipn_app.
  rewrite skipn_all2 by lia. cbn [app].
  f_equal. lia.
Qed.

Lemma key_is_target_decides d0 span s n :
  key_is_target (length d0) (strlen ESCAPED_TARGET_SUFFIX)
                (Cursors s (d0 ++ span) n)
  = Ok (span_is_target span, Cursors s (d0 ++ span) n).
Proof.
  unfold key_is_target, span_is_target. cbn [dest].
  change (strlen ESCAPED_TARGET_SUFFIX) with 3.
  f_equal. f_equal.
  replace (length (d0 ++ span) - length d0) with (length span)
    by (rewrite length_app; lia).
  destruct (3 <=? length span) eqn:Hlen; cbn [andb]; [|reflexivity].
  apply Nat.leb_le in Hlen.
  rewrite skipn_buffer by exact Hlen.
  destruct (last_three span Hlen) as (a & b & c & Habc).
  rewrite Habc. apply strncmp_suffix.
Qed.

(** On a quoted key the decision is that the body ends with the suffix. *)
Lemma span_is_target_quoted k : span_is_target (quoted k) = is_target k.
Proof.
  unfold span_is_target, is_target, ends_with.
  rewrite length_quoted. change (length TARGET_SUFFIX) with 2.
  destruct (Nat.le_gt_cases 2 (length k)) as [Hk | Hk].
  - replace (3 <=? S (S (length k))) with true by (symmetry; apply Nat.leb_le; lia).
    replace (2 <=? length k) with true by (symmetry; apply Nat.leb_le; lia).
    cbn [andb]. unfold quoted.
    change (DQUOTE :: k ++ [DQUOTE]) with ([DQUOTE] ++ k ++ [DQUOTE]).
    replace (S (S (length k)) - 3) with (length [DQUOTE] + (length k - 2))
      by (simpl; lia).
    rewrite skipn_app, skipn_all2 by (simpl; lia). cbn [app].
    replace (length [DQUOTE] + (length k - 2) - length [DQUOTE])
      with (length k - 2) by (simpl; lia).
    rewrite skipn_app.
    replace (length k - 2 - length k) with 0 by lia. cbn [skipn].
    assert (Hlen : length (skipn (length k - 2) k) = 2)
      by (rewrite length_skipn; lia).
    destruct (skipn (length k - 2) k) as [|a [|b [|c t]]]; try discriminate.
    unfold ESCAPED_TARGET_SUFFIX, TARGET_SUFFIX.
    cbn [app chars_eqb]. rewrite char_eqb_refl. reflexivity.
  - replace (2 <=? length k) with false by (symmetry; apply Nat.leb_gt; lia).
    cbn [andb].
    destruct k as [|a [|b k]]; [reflexivity | | simpl in Hk; lia].
    reflexivity.
Qed.

(** ** One pass of the driver over a document *)

Lemma read_json_filler_upto f s d n :
  is_filler f = true ->
  filler_stops s = true ->
  length d + length (f ++ s) <= n ->
  read_json_filler (Cursors (f ++ s) d n) = Ok (tt, Cursors s (d ++ f) n).
Proof.
  intros Hf Hs Hcap. destruct s as [|c r]; [discriminate|].
  apply read_json_filler_copies; auto.
  simpl in Hs. apply negb_true_iff in Hs. exact Hs.
Qed.

Lemma filler_stops_quoted b r : filler_stops (quoted b ++ r) = true.
Proof. reflexivity. Qed.

Lemma filler_stops_value v r : filler_stops (render_value v ++ r) = true.
Proof. destruct v; reflexivity. Qed.

Lemma length_render_read_value replace v :
  length (render_value (read_value replace v)) <= length (render_value v).
Proof.
  destruct replace; [|simpl; lia].
  destruct v as [b | g es]; cbn [read_value mask_value render_value].
  - rewrite !length_quoted. pose proof (length_mask_body b). lia.
  - cbn [length]. rewrite !length_app. cbn [length].
    assert (length (render_elems (map mask_elem es)) <= length (render_elems es)).
    { induction es as [|[b g'] es IH]; [simpl; lia|].
      cbn [map]. unfold mask_elem at 1. cbn [fst snd].
      rewrite !render_elems_cons, !length_app, !length_quoted.
      pose proof (length_mask_body b). lia. }
    lia.
Qed.

(** The key and the separator of one pair, followed by any continuation [k]
    of the decision. *)
Lemma read_key_then (k : bool -> M unit) f ky sp r d n :
  is_filler f = true ->
  well_quoted DQUOTE ky = true ->
  is_filler sp = true ->
  filler_stops r = true ->
  length d + length (f ++ quoted ky ++ sp ++ r) <= n ->
  (read_json_filler ;;
   temp <- dest_pos ;;
   read_json_string ;;
   replace <- key_is_target temp (strlen ESCAPED_TARGET_SUFFIX) ;;
   read_json_filler ;;
   k replace)
    (Cursors (f ++ quoted ky ++ sp ++ r) d n)
  = k (is_target ky) (Cursors r (d ++ f ++ quoted ky ++ sp) n).
Proof.
  intros Hf Hky Hsp Hr Hcap.
  rewrite !length_app, length_quoted in Hcap.
  erewrite (bind_ok _).
  2:{ apply read_json_filler_upto;
        [ exact Hf | apply filler_stops_quoted
        | rewrite !length_app, length_quoted; lia ]. }
  cbv beta. unfold dest_pos at 1. unfold bind at 1. cbn [dest].
  erewrite (bind_ok _).
  2:{ apply read_json_string_copies;
        [ exact Hky | rewrite !length_app, length_quoted; lia ]. }
  cbv beta.
  rewrite (bind_ok _ (key_is_target_decides (d ++ f) (quoted ky) _ n)).
  cbv beta. rewrite span_is_target_quoted.
  erewrite (bind_ok _).
  2:{ apply read_json_filler_upto;
        [ exact Hsp | exact Hr
        | rewrite !length_app, length_quoted; lia ]. }
  cbv beta. rewrite <- !app_assoc. reflexivity.
Qed.

(** The key, the separator and the value of one pair, followed by any
    continuation [k]. *)
Lemma read_pair_then (k : M unit) f ky sp v r d n :
  is_filler f = true ->
  well_quoted DQUOTE ky = true ->
  is_filler sp = true ->
  scannable_value v = true ->
  length d + length (f ++ quoted ky ++ sp ++ render_value v ++ r) <= n ->
  (read_json_filler ;;
   temp <- dest_pos ;;
   read_json_string ;;
   replace <- key_is_target temp (strlen ESCAPED_TARGET_SUFFIX) ;;
   read_json_filler ;;
   read_json_value replace ;;
   k)
    (Cursors (f ++ quoted ky ++ sp ++ render_value v ++ r) d n)
  = k (Cursors r
         (d ++ f ++ quoted ky ++ sp
            ++ render_value (read_value (is_target ky) v)) n).
Proof.
  intros Hf Hky Hsp Hv Hcap.
  rewrite (read_key_then (fun replace => read_json_value replace ;; k))
    by (auto using filler_stops_value).
  rewrite !length_app, length_quoted in Hcap.
  erewrite (bind_ok _).
  2:{ apply read_json_value_reads;
        [ exact Hv | rewrite !length_app, length_quoted; lia ]. }
  cbv beta. rewrite <- !app_assoc. reflexivity.
Qed.

Lemma render_pair_mask e :
  render_pair (mask_entry e)
  = quoted (key e) ++ sep e
      ++ render_value (read_value (is_target (key e)) (val e)) ++ trail e.
Proof.
  unfold mask_entry, render_pair, read_value.
  destruct (is_target (key e)); reflexivity.
Qed.

Lemma lead_mask e : lead (mask_entry e) = lead e.
Proof. unfold mask_entry. destruct (is_target (key e)); reflexivity. Qed.

Lemma json_replace_loop_stops fuel m d n :
  json_replace_loop (S fuel) m (Cursors [NUL] d n) = Ok (tt, Cursors [NUL] d n).
Proof. reflexivity. Qed.

Lemma json_replace_loop_enters fuel m s d n :
  match s with c :: _ => c != NUL | [] => false end = true ->
  json_replace_loop (S fuel) m (Cursors s d n)
  = (read_json_filler ;;
     temp <- dest_pos ;;
     read_json_string ;;
     replace <- key_is_target temp m ;;
     read_json_filler ;;
     read_json_value replace ;;
     read_json_filler ;;
     json_replace_loop fuel m) (Cursors s d n).
Proof.
  destruct s as [|c t]; [discriminate|]. intros Hc.
  cbn [json_replace_loop]. run_peek. rewrite Hc. reflexivity.
Qed.

Lemma pair_head_not_nul f e r :
  is_filler f = true ->
  match f ++ render_pair e ++ r with c :: _ => c != NUL | [] => false end = true.
Proof.
  intros Hf. destruct f as [|c f]; [reflexivity|].
  simpl in Hf. apply andb_true_iff in Hf. destruct Hf as [Hc _].
  unfold filler_char in Hc.
  apply andb_true_iff in Hc. destruct Hc as [Hc _].
  apply andb_true_iff in Hc. destruct Hc as [Hc _].
  exact Hc.
Qed.

Lemma length_render_pair_mask e :
  length (render_pair (mask_entry e)) <= length (render_pair e).
Proof.
  rewrite render_pair_mask. unfold render_pair.
  rewrite !length_app.
  pose proof (length_render_read_value (is_target (key e)) (val e)). lia.
Qed.

(** The loop over the pairs of a scannable document that is followed by more
    filler [g] and a text [rest] at which filler stops: the pairs are read and
    masked, and the loop goes on at [rest]. *)
Lemma json_replace_loop_pairs_then d' : forall e f g rest fuel dst n res,
  is_filler f = true ->
  scannable_pair e = true ->
  scannable d' = true ->
  is_filler g = true ->
  filler_stops rest = true ->
  length (f ++ render_pair e ++ render d' ++ g ++ rest) < fuel ->
  length dst + length (f ++ render_pair e ++ render d' ++ g ++ rest) <= n ->
  (forall fuel', length rest < fuel' ->
     json_replace_loop fuel' (strlen ESCAPED_TARGET_SUFFIX)
       (Cursors rest
          (dst ++ f ++ render_pair (mask_entry e) ++ render (mask d') ++ g) n)
     = res) ->
  json_replace_loop fuel (strlen ESCAPED_TARGET_SUFFIX)
    (Cursors (f ++ render_pair e ++ render d' ++ g ++ rest) dst n)
  = res.
Proof.
  induction d' as [|e' d'' IH];
    intros e f g rest fuel dst n res Hf He Hd Hg Hrest Hfuel Hcap Hk;
    (destruct fuel as [|fuel]; [lia|]);
    rewrite json_replace_loop_enters by (apply pair_head_not_nul; exact Hf);
    unfold scannable_pair in He;
    apply andb_true_iff in He; destruct He as [He Htr];
    apply andb_true_iff in He; destruct He as [He Hv];
    apply andb_true_iff in He; destruct He as [Hk' Hsp];
    pose proof (length_render_read_value (is_target (key e)) (val e)) as Hlen;
    rewrite render_pair_mask in Hk;
    unfold render_pair at 1; unfold render_pair in Hfuel, Hcap;
    rewrite <- !app_assoc in *;
    rewrite !length_app, length_quoted in Hfuel, Hcap;
    (rewrite read_pair_then;
       [ | exact Hf | exact Hk' | exact Hsp | exact Hv
         | rewrite !length_app, length_quoted; lia ]).
  - cbn [render flat_map mask map app length] in *.
    rewrite (app_assoc (trail e) g).
    erewrite (bind_ok _).
    2:{ apply read_json_filler_upto.
        - unfold is_filler. rewrite forallb_app. fold (is_filler (trail e)).
          fold (is_filler g). rewrite Htr, Hg. reflexivity.
        - exact Hrest.
        - rewrite !length_app, length_quoted. lia. }
    cbv beta. rewrite <- !app_assoc. apply Hk. lia.
  - cbn [scannable forallb] in Hd. apply andb_true_iff in Hd.
    destruct Hd as [He' Hd]. unfold scannable_entry in He'.
    apply andb_true_iff in He'. destruct He' as [Hl' Hp'].
    cbn [render flat_map mask map] in *.
    fold (render d'') in *. fold (mask d'') in *.
    unfold render_entry in *. rewrite lead_mask in Hk.
    rewrite <- !app_assoc in *. rewrite !length_app in Hfuel, Hcap.
    rewrite (app_assoc (trail e) (lead e')).
    erewrite (bind_ok _).
    2:{ apply read_json_filler_upto.
        - unfold is_filler. rewrite forallb_app. fold (is_filler (trail e)).
          fold (is_filler (lead e')). rewrite Htr, Hl'. reflexivity.
        - unfold render_pair. rewrite <- !app_assoc. apply filler_stops_quoted.
        - rewrite !length_app, length_quoted. lia. }
    cbv beta.
    apply (IH e' [] g rest fuel _ n res eq_refl Hp' Hd Hg Hrest).
    + cbn [app]. rewrite !length_app. lia.
    + cbn [app]. rewrite !length_app, length_quoted. lia.
    + intros fuel' Hfuel'. cbn [app]. rewrite <- ?app_assoc.
      rewrite <- ?app_assoc in Hk. apply Hk. exact Hfuel'.
Qed.

Lemma json_replace_loop_pairs d' e f fuel dst n :
  is_filler f = true ->
  scannable_pair e = true ->
  scannable d' = true ->
  length (f ++ render_pair e ++ render d' ++ [NUL]) < fuel ->
  length dst + length (f ++ render_pair e ++ render d' ++ [NUL]) <= n ->
  json_replace_loop fuel (strlen ESCAPED_TARGET_SUFFIX)
    (Cursors (f ++ render_pair e ++ render d' ++ [NUL]) dst n)
  = Ok (tt, Cursors [NUL]
              (dst ++ f ++ render_pair (mask_entry e) ++ render (mask d')) n).
Proof.
  intros Hf He Hd Hfuel Hcap.
  apply (json_replace_loop_pairs_then d' e f [] [NUL]); auto.
  intros [|fuel'] Hfuel'; [simpl in Hfuel'; lia|].
  rewrite json_replace_loop_stops, app_nil_r. reflexivity.
Qed.

(** ** Texts without a NUL byte *)

Lemma nul_free_app a b : nul_free (a ++ b) = nul_free a && nul_free b.
Proof. apply forallb_app. Qed.

Lemma until_nul_nul_free l r :
  nul_free l = true -> until_nul (l ++ NUL :: r) = l.
Proof.
  induction l as [|c l IH]; intros H; [reflexivity|].
  simpl in H. apply andb_true_iff in H. destruct H as [Hc Hl].
  cbn [app until_nul]. apply char_neqb_true, char_eqb_false in Hc.
  rewrite Hc, (IH Hl). reflexivity.
Qed.

Lemma strlen_nul_free l r : nul_free l = true -> strlen (l ++ NUL :: r) = length l.
Proof. intros H. unfold strlen. rewrite until_nul_nul_free; auto. Qed.

Lemma forallb_weaken (p q : char -> bool) l :
  (forall c, p c = true -> q c = true) ->
  forallb p l = true -> forallb q l = true.
Proof.
  intros Hpq. induction l as [|c l IH]; [reflexivity|].
  simpl. intros H. apply andb_true_iff in H. destruct H as [Hc Hl].
  rewrite (Hpq c Hc), (IH Hl). reflexivity.
Qed.

Lemma nul_free_filler f : is_filler f = true -> nul_free f = true.
Proof.
  apply forallb_weaken. intros c Hc. unfold filler_char in Hc.
  apply andb_true_iff in Hc. destruct Hc as [Hc _].
  apply andb_true_iff in Hc. destruct Hc as [Hc _]. exact Hc.
Qed.

Lemma nul_free_gap g : is_gap g = true -> nul_free g = true.
Proof.
  apply forallb_weaken. intros c Hc. unfold gap_char in Hc.
  apply andb_true_iff in Hc. destruct Hc as [Hc _].
  apply andb_true_iff in Hc. destruct Hc as [Hc _]. exact Hc.
Qed.

Lemma nul_free_well_quoted b : forall prev,
  well_quoted prev b = true -> nul_free b = true.
Proof.
  induction b as [|c b IH]; intros prev H; [reflexivity|].
  simpl in H. apply andb_true_iff in H. destruct H as [H Hb].
  apply andb_true_iff in H. destruct H as [_ Hc].
  simpl. rewrite Hc. exact (IH c Hb).
Qed.

Lemma nul_free_quoted b :
  well_quoted DQUOTE b = true -> nul_free (quoted b) = true.
Proof.
  intros H. unfold quoted.
  change (DQUOTE :: b ++ [DQUOTE]) with ([DQUOTE] ++ b ++ [DQUOTE]).
  rewrite !nul_free_app, (nul_free_well_quoted b DQUOTE H). reflexivity.
Qed.

Lemma nul_free_elems es :
  forallb scannable_elem es = true -> nul_free (render_elems es) = true.
Proof.
  induction es as [|[b g] es IH]; intros H; [reflexivity|].
  simpl in H. apply andb_true_iff in H. destruct H as [Hbg Hes].
  unfold scannable_elem in Hbg. cbn [fst snd] in Hbg.
  apply andb_true_iff in Hbg. destruct Hbg as [Hb Hg].
  rewrite render_elems_cons, !nul_free_app.
  rewrite (nul_free_quoted b Hb), (nul_free_gap g Hg), (IH Hes). reflexivity.
Qed.

Lemma nul_free_value v :
  scannable_value v = true -> nul_free (render_value v) = true.
Proof.
  destruct v as [b | g es]; cbn [scannable_value render_value]; intros H.
  - apply nul_free_quoted. exact H.
  - apply andb_true_iff in H. destruct H as [Hg Hes].
    change (LBRACKET :: g ++ render_elems es ++ [RBRACKET])
      with ([LBRACKET] ++ g ++ render_elems es ++ [RBRACKET]).
    rewrite !nul_free_app, (nul_free_gap g Hg), (nul_free_elems es Hes).
    reflexivity.
Qed.

Lemma nul_free_entry e :
  scannable_entry e = true -> nul_free (render_entry e) = true.
Proof.
  unfold scannable_entry, scannable_pair. intros H.
  apply andb_true_iff in H. destruct H as [Hl H].
  apply andb_true_iff in H. destruct H as [H Ht].
  apply andb_true_iff in H. destruct H as [H Hv].
  apply andb_true_iff in H. destruct H as [Hk Hs].
  unfold render_entry, render_pair. rewrite !nul_free_app.
  rewrite (nul_free_filler _ Hl), (nul_free_quoted _ Hk),
    (nul_free_filler _ Hs), (nul_free_value _ Hv), (nul_free_filler _ Ht).
  reflexivity.
Qed.

Lemma nul_free_render d : scannable d = true -> nul_free (render d) = true.
Proof.
  induction d as [|e d IH]; intros H; [reflexivity|].
  simpl in H. apply andb_true_iff in H. destruct H as [He Hd].
  cbn [render flat_map]. rewrite nul_free_app.
  rewrite (nul_free_entry e He). apply IH. exact Hd.
Qed.

(** ** Masking keeps a document scannable and never lengthens it *)

Lemma well_quoted_mask_body b : well_quoted DQUOTE (mask_body b) = true.
Proof. destruct b; reflexivity. Qed.

Lemma scannable_mask_value v :
  scannable_value v = true -> scannable_value (mask_value v) = true.
Proof.
  destruct v as [b | g es]; cbn [scannable_value mask_value]; intros H.
  - apply well_quoted_mask_body.
  - apply andb_true_iff in H. destruct H as [Hg Hes]. rewrite Hg. cbn [andb].
    induction es as [|[b g'] es IH]; [reflexivity|].
    simpl in Hes. apply andb_true_iff in Hes. destruct Hes as [Hbg Hes].
    unfold scannable_elem in Hbg. cbn [fst snd] in Hbg.
    apply andb_true_iff in Hbg. destruct Hbg as [_ Hg'].
    cbn [map forallb]. rewrite (IH Hes), andb_true_r.
    unfold scannable_elem, mask_elem. cbn [fst snd].
    rewrite well_quoted_mask_body, Hg'. reflexivity.
Qed.

Lemma scannable_mask_entry e :
  scannable_entry e = true -> scannable_entry (mask_entry e) = true.
Proof.
  unfold mask_entry. destruct (is_target (key e)); [|auto].
  unfold scannable_entry, scannable_pair. cbn [lead key sep val trail].
  intros H.
  apply andb_true_iff in H. destruct H as [Hl H].
  apply andb_true_iff in H. destruct H as [H Ht].
  apply andb_true_iff in H. destruct H as [H Hv].
  apply andb_true_iff in H. destruct H as [Hk Hs].
  rewrite Hl, Hk, Hs, Ht, (scannable_mask_value _ Hv). reflexivity.
Qed.

Lemma scannable_mask d : scannable d = true -> scannable (mask d) = true.
Proof.
  induction d as [|e d IH]; intros H; [reflexivity|].
  simpl in H. apply andb_true_iff in H. destruct H as [He Hd].
  cbn [mask map scannable forallb].
  rewrite (scannable_mask_entry e He). apply IH. exact Hd.
Qed.

Lemma length_render_mask d : length (render (mask d)) <= length (render d).
Proof.
  induction d as [|e d IH]; [simpl; lia|].
  cbn [mask map render flat_map]. fold (mask d). fold (render (mask d)).
  fold (render d). unfold render_entry. rewrite lead_mask, !length_app.
  pose proof (length_render_pair_mask e). lia.
Qed.

(** ** The transform on scannable documents *)

Lemma json_replace_no_try_catch_masks d n :
  scannable d = true ->
  length (render d) < n ->
  json_replace_no_try_catch (Cursors (render d ++ [NUL]) [] n)
  = Ok (tt, Cursors [NUL] (render (mask d) ++ [NUL]) n).
Proof.
  intros Hd Hn. unfold json_replace_no_try_catch.
  pose proof (length_render_mask d) as Hlen.
  destruct d as [|e d].
  - cbn [render flat_map app mask map] in *.
    erewrite (bind_ok _);
      [ | unfold bounded; cbn [src length]; apply json_replace_loop_stops ].
    apply emit_ok. simpl in *. lia.
  - cbn [scannable forallb] in Hd. apply andb_true_iff in Hd.
    destruct Hd as [He Hd]. unfold scannable_entry in He.
    apply andb_true_iff in He. destruct He as [Hl Hp].
    cbn [render flat_map mask map] in *.
    fold (render d) in *. fold (mask d) in *. fold (render (mask d)) in *.
    unfold render_entry in *. rewrite lead_mask in *.
    rewrite <- !app_assoc in *.
    erewrite (bind_ok _).
    2:{ unfold bounded; cbn [src]. apply json_replace_loop_pairs;
          [ exact Hl | exact Hp | exact Hd | lia
          | rewrite !length_app in *; cbn [length] in *; lia ]. }
    cbv beta. cbn [app].
    rewrite emit_ok by (rewrite !length_app in *; lia).
    rewrite <- !app_assoc. reflexivity.
Qed.

Lemma json_replace_scannable d :
  scannable d = true -> json_replace (render d) = Ok (render (mask d)).
Proof.
  intros Hd. unfold json_replace.
  rewrite (strlen_nul_free (render d) [] (nul_free_render d Hd)).
  rewrite json_replace_no_try_catch_masks by (auto; lia).
  cbn [dest]. f_equal.
  apply until_nul_nul_free, nul_free_render, scannable_mask, Hd.
Qed.

(** ** What every run does: consumed and written bytes *)

Lemma moved_refl st : moved st st [] [].
Proof. unfold moved. rewrite app_nil_r. auto. Qed.

Lemma moved_trans st st1 st2 c1 w1 c2 w2 :
  moved st st1 c1 w1 -> moved st1 st2 c2 w2 ->
  moved st st2 (c1 ++ c2) (w1 ++ w2).
Proof.
  intros (Hc1 & Hs1 & Hd1) (Hc2 & Hs2 & Hd2). unfold moved.
  rewrite Hc2, Hc1, Hs1, Hs2, Hd2, Hd1, <- !app_assoc. auto.
Qed.

Lemma moved_length st st' c w :
  moved st st' c w -> length (src st) = length c + length (src st').
Proof. intros (_ & Hs & _). rewrite Hs, length_app. reflexivity. Qed.

Lemma run_ret A (a : A) st throws (Q : A -> cursors -> list char -> list char -> Prop) :
  Q a st [] [] -> run (ret a) st throws Q.
Proof.
  intros HQ. unfold run, ret. exists [], []. split; [apply moved_refl | exact HQ].
Qed.

Lemma run_bind A B (m : M A) (k : A -> M B) st throws
    (Q1 : A -> cursors -> list char -> list char -> Prop)
    (Q2 : B -> cursors -> list char -> list char -> Prop) :
  run m st throws Q1 ->
  (forall a st' c w,
      moved st st' c w -> Q1 a st' c w ->
      run (k a) st' throws (fun b st'' c' w' => Q2 b st'' (c ++ c') (w ++ w'))) ->
  run (bind m k) st throws Q2.
Proof.
  unfold run, bind. intros Hm Hk.
  destruct (m st) as [[a st'] | what | | ]; try exact Hm.
  destruct Hm as (c & w & Hmv & HQ1).
  specialize (Hk a st' c w Hmv HQ1).
  destruct (k a st') as [[b st''] | what | | ]; try exact Hk.
  destruct Hk as (c' & w' & Hmv' & HQ2).
  exists (c ++ c'), (w ++ w'). split; [|exact HQ2].
  eapply moved_trans; eassumption.
Qed.

Lemma run_weaken A (m : M A) st (throws throws' : Prop)
    (Q Q' : A -> cursors -> list char -> list char -> Prop) :
  run m st throws Q ->
  (throws -> throws') ->
  (forall a st' c w, moved st st' c w -> Q a st' c w -> Q' a st' c w) ->
  run m st throws' Q'.
Proof.
  unfold run. intros Hm Ht HQ.
  destruct (m st) as [[a st'] | what | | ]; auto.
  destruct Hm as (c & w & Hmv & Hq). exists c, w. auto.
Qed.

(** The primitives. *)
Lemma run_peek st throws :
  run peek st throws (fun a st' c w =>
    c = [] /\ w = [] /\ st' = st /\ exists t, src st = a :: t).
Proof.
  unfold run, peek. destruct (src st) as [|a t] eqn:Hs; [exact I|].
  exists [], []. split; [apply moved_refl|].
  repeat split. exists t. reflexivity.
Qed.

Lemma run_skip st throws :
  run skip st throws (fun _ st' c w =>
    w = [] /\ exists a, c = [a] /\ src st = a :: src st').
Proof.
  unfold run, skip. destruct (src st) as [|a t] eqn:Hs; [exact I|].
  exists [a], []. unfold moved. cbn [src dest cap].
  rewrite Hs, app_nil_r. repeat split. exists a. auto.
Qed.

Lemma run_emit x st throws :
  run (emit x) st throws (fun _ st' c w => c = [] /\ w = [x]).
Proof.
  unfold run, emit. destruct (length (dest st) <? cap st); [|exact I].
  exists [], [x]. unfold moved. cbn [src dest cap]. auto.
Qed.

Lemma run_copy st throws :
  run copy st throws (fun _ st' c w =>
    w = c /\ exists a, c = [a] /\ src st = a :: src st').
Proof.
  unfold copy.
  eapply run_bind; [apply run_peek|].
  intros a st1 c1 w1 _ (-> & -> & -> & t & Hs).
  eapply run_bind; [apply run_emit|].
  intros _ st2 c2 w2 (Hcap2 & Hs2 & Hd2) (-> & ->).
  eapply run_weaken; [apply run_skip | exact (fun H => H) |].
  cbn [app] in *.
  intros _ st3 c3 w3 _ (-> & a' & -> & Hs3).
  rewrite <- Hs2, Hs in Hs3. injection Hs3 as <- Hs3.
  split; [reflexivity|]. exists a. split; [reflexivity|].
  rewrite Hs, Hs3. reflexivity.
Qed.

(** The filler scanner copies what it consumes, only filler, and stops where
    filler stops. *)
Lemma run_read_json_filler_loop fuel : forall st,
  length (src st) < fuel ->
  run (read_json_filler_loop fuel) st False (fun _ st' c w =>
    w = c /\ is_filler c = true /\ filler_stops (src st') = true).
Proof.
  induction fuel as [|fuel IH]; intros st Hfuel; [lia|].
  cbn [read_json_filler_loop].
  eapply run_bind; [apply run_peek|].
  intros a st1 c1 w1 _ (-> & -> & -> & t & Hs).
  destruct ((a != NUL) && (a != DQUOTE) && (a != LBRACKET)) eqn:Ha.
  - eapply run_bind; [apply run_copy|].
    intros _ st2 c2 w2 Hmv (-> & a' & -> & Hs2).
    rewrite Hs in Hs2. injection Hs2 as <- Hs2.
    eapply run_weaken; [apply IH | exact (fun H => H) |].
    + rewrite Hs in Hfuel. rewrite <- Hs2. simpl in Hfuel. lia.
    + intros _ st3 c3 w3 _ (-> & Hf & Hstop). cbn [app].
      repeat split; [|exact Hstop].
      cbn [is_filler forallb]. unfold filler_char at 1. rewrite Ha. exact Hf.
  - apply run_ret. repeat split.
    rewrite Hs. cbn [filler_stops]. unfold filler_char. rewrite Ha. reflexivity.
Qed.

Lemma run_read_json_filler st :
  run read_json_filler st False (fun _ st' c w =>
    w = c /\ is_filler c = true /\ filler_stops (src st') = true).
Proof.
  unfold read_json_filler, bounded, run.
  apply run_read_json_filler_loop. lia.
Qed.

(** The body loops of the two string readers stop at a double quote; one
    copies what it consumes, the other writes nothing. *)
Lemma run_read_json_string_loop fuel : forall escaped st,
  length (src st) < fuel ->
  run (read_json_string_loop fuel escaped) st False (fun _ st' c w =>
    w = c /\ exists t, src st' = DQUOTE :: t).
Proof.
  induction fuel as [|fuel IH]; intros escaped st Hfuel; [lia|].
  cbn [read_json_string_loop].
  eapply run_bind; [apply run_peek|].
  intros a st1 c1 w1 _ (-> & -> & -> & t & Hs).
  destruct ((a != DQUOTE) || escaped) eqn:Ha.
  - eapply run_bind; [apply run_copy|].
    intros _ st2 c2 w2 Hmv (-> & a' & -> & Hs2).
    rewrite Hs in Hs2. injection Hs2 as <- Hs2.
    eapply run_weaken; [apply IH | exact (fun H => H) |].
    + rewrite Hs in Hfuel. rewrite <- Hs2. simpl in Hfuel. lia.
    + intros _ st3 c3 w3 _ (-> & Hq). cbn [app]. split; [reflexivity|exact Hq].
  - apply run_ret. split; [reflexivity|].
    apply orb_false_iff in Ha. destruct Ha as [Ha _].
    apply char_neqb_false in Ha. subst a. exists t. exact Hs.
Qed.

Lemma run_skip_json_string_loop fuel : forall escaped st,
  length (src st) < fuel ->
  run (skip_json_string_loop fuel escaped) st False (fun _ st' c w =>
    w = [] /\ (exists t, src st' = DQUOTE :: t)
    /\ (forall a t, src st = a :: t -> (a != DQUOTE) || escaped = true ->
        1 <= length c)).
Proof.
  induction fuel as [|fuel IH]; intros escaped st Hfuel; [lia|].
  cbn [skip_json_string_loop].
  eapply run_bind; [apply run_peek|].
  intros a st1 c1 w1 _ (-> & -> & -> & t & Hs).
  destruct ((a != DQUOTE) || escaped) eqn:Ha.
  - eapply run_bind; [apply run_skip|].
    intros _ st2 c2 w2 Hmv (-> & a' & -> & Hs2).
    rewrite Hs in Hs2. injection Hs2 as <- Hs2.
    eapply run_weaken; [apply IH | exact (fun H => H) |].
    + rewrite Hs in Hfuel. rewrite <- Hs2. simpl in Hfuel. lia.
    + intros _ st3 c3 w3 _ (-> & Hq & _). cbn [app].
      repeat split; [exact Hq|]. intros; simpl; lia.
  - apply run_ret. repeat split.
    + apply orb_false_iff in Ha. destruct Ha as [Ha _].
      apply char_neqb_false in Ha. subst a. exists t. exact Hs.
    + intros a0 t0 Hs0 Ha0. rewrite Hs in Hs0. injection Hs0 as <- _.
      rewrite Ha in Ha0. discriminate.
Qed.

(** Both string readers consume at least two bytes and never write more than
    they consume; the verbatim one writes exactly what it consumes. *)
Lemma run_read_json_string st :
  run read_json_string st False (fun _ st' c w => w = c /\ 2 <= length c).
Proof.
  unfold read_json_string.
  eapply run_bind; [apply run_copy|].
  intros _ st1 c1 w1 _ (-> & a & -> & Hs1).
  eapply run_bind.
  { unfold bounded, run. apply run_read_json_string_loop. lia. }
  intros _ st2 c2 w2 _ (-> & t & Hs2).
  eapply run_weaken; [apply run_copy | exact (fun H => H) |].
  intros _ st3 c3 w3 _ (-> & a3 & -> & Hs3).
  split; [reflexivity|]. rewrite !length_app. simpl. lia.
Qed.

Lemma run_read_and_replace_json_string st :
  run read_and_replace_json_string st False (fun _ st' c w =>
    length w <= length c /\ 2 <= length c).
Proof.
  unfold read_and_replace_json_string.
  eapply run_bind; [apply run_copy|].
  intros _ st1 c1 w1 _ (-> & a & -> & Hs1).
  eapply run_bind; [apply run_peek|].
  intros b st2 c2 w2 _ (-> & -> & -> & t & Hs2).
  destruct (b == DQUOTE) eqn:Hb.
  - eapply run_weaken; [apply run_copy | exact (fun H => H) |].
    intros _ st3 c3 w3 _ (-> & a3 & -> & Hs3).
    rewrite !length_app. simpl. lia.
  - eapply run_bind.
    { unfold bounded, run. apply run_skip_json_string_loop. lia. }
    intros _ st3 c3 w3 _ (-> & _ & Hc3).
    specialize (Hc3 b t Hs2).
    unfold char_neqb in Hc3. rewrite Hb in Hc3. specialize (Hc3 eq_refl).
    eapply run_bind; [apply run_emit|].
    intros _ st4 c4 w4 _ (-> & ->).
    eapply run_weaken; [apply run_copy | exact (fun H => H) |].
    intros _ st5 c5 w5 _ (-> & a5 & -> & Hs5).
    rewrite !length_app. simpl. lia.
Qed.

(** The array loop never throws; it stops at a closing bracket. *)
Lemma run_read_json_array_loop fuel : forall replace st,
  length (src st) < fuel ->
  run (read_json_array_loop fuel replace) st False (fun _ st' c w =>
    length w <= length c /\ exists t, src st' = RBRACKET :: t).
Proof.
  induction fuel as [|fuel IH]; intros replace st Hfuel; [lia|].
  cbn [read_json_array_loop].
  eapply run_bind; [apply run_peek|].
  intros a st1 c1 w1 _ (-> & -> & -> & t & Hs).
  destruct (a != RBRACKET) eqn:Ha.
  - eapply run_bind with
      (Q1 := fun _ _ c w => length w <= length c /\ 1 <= length c).
    { destruct (a == DQUOTE); [destruct replace|].
      - eapply run_weaken;
          [apply run_read_and_replace_json_string | exact (fun H => H) |].
        intros _ st2 c2 w2 _ (Hw & Hc). lia.
      - eapply run_weaken; [apply run_read_json_string | exact (fun H => H) |].
        intros _ st2 c2 w2 _ (-> & Hc). lia.
      - eapply run_weaken; [apply run_copy | exact (fun H => H) |].
        intros _ st2 c2 w2 _ (-> & a2 & -> & _). simpl. lia. }
    intros _ st2 c2 w2 Hmv (Hw & Hc).
    apply moved_length in Hmv.
    eapply run_weaken; [apply IH | exact (fun H => H) |].
    + lia.
    + intros _ st3 c3 w3 _ (Hw3 & Hq). cbn [app].
      rewrite !length_app. split; [lia | exact Hq].
  - apply run_ret. split; [simpl; lia|].
    apply char_neqb_false in Ha. subst a. exists t. exact Hs.
Qed.

(** The value reader throws exactly on a leading byte that is neither a
    double quote nor an opening bracket. *)
Lemma run_read_json_value replace st :
  run (read_json_value replace) st
    (forall t, src st <> DQUOTE :: t /\ src st <> LBRACKET :: t)
    (fun _ st' c w => length w <= length c /\ 2 <= length c).
Proof.
  unfold read_json_value.
  eapply run_bind; [apply run_peek|].
  intros a st1 c1 w1 _ (-> & -> & -> & t & Hs).
  destruct (a == DQUOTE) eqn:Hq; [|destruct (a == LBRACKET) eqn:Hb].
  - destruct replace.
    + eapply run_weaken;
        [apply run_read_and_replace_json_string | intros [] |].
      intros u st2 c2 w2 _ H. exact H.
    + eapply run_weaken; [apply run_read_json_string | intros [] |].
      intros u st2 c2 w2 _ (-> & Hc). split; [lia | exact Hc].
  - eapply run_weaken with (throws := False)
      (Q := fun _ _ c w => length w <= length c /\ 2 <= length c);
      [ | intros [] | auto ].
    eapply run_bind; [apply run_copy|].
    intros _ st2 c2 w2 _ (-> & a2 & -> & _).
    eapply run_bind.
    { unfold bounded, run. apply run_read_json_array_loop. lia. }
    intros _ st3 c3 w3 _ (Hw3 & _).
    eapply run_weaken; [apply run_copy | exact (fun H => H) |].
    intros _ st4 c4 w4 _ (-> & a4 & -> & _).
    rewrite !length_app. simpl. lia.
  - unfold run, throw. intros t0. rewrite Hs. split; intros Heq;
      injection Heq as Ha Ht; subst a.
    + rewrite char_eqb_refl in Hq. discriminate.
    + rewrite char_eqb_refl in Hb. discriminate.
Qed.

(** The driver loop stops at the terminator and never writes more than it
    consumes. *)
Lemma run_json_replace_loop fuel : forall m st,
  length (src st) < fuel ->
  run (json_replace_loop fuel m) st True (fun _ st' c w =>
    length w <= length c /\ exists t, src st' = NUL :: t).
Proof.
  induction fuel as [|fuel IH]; intros m st Hfuel; [lia|].
  cbn [json_replace_loop].
  eapply run_bind; [apply run_peek|].
  intros a st1 c1 w1 _ (-> & -> & -> & t & Hs).
  destruct (a != NUL) eqn:Ha.
  - eapply run_bind.
    { eapply run_weaken; [apply run_read_json_filler | tauto |].
      intros u st2 c2 w2 _ H. exact H. }
    intros _ st2 c2 w2 Hmv2 (-> & _ & _).
    unfold dest_pos at 1. unfold bind at 1.
    eapply run_bind.
    { eapply run_weaken; [apply run_read_json_string | tauto |].
      intros u st3 c3 w3 _ H. exact H. }
    intros _ st3 c3 w3 Hmv3 (-> & Hc3).
    unfold key_is_target at 1. unfold bind at 1.
    eapply run_bind.
    { eapply run_weaken; [apply run_read_json_filler | tauto |].
      intros u st4 c4 w4 _ H. exact H. }
    intros _ st4 c4 w4 Hmv4 (-> & _ & _).
    eapply run_bind.
    { eapply run_weaken; [apply run_read_json_value | tauto |].
      intros u st5 c5 w5 _ H. exact H. }
    intros _ st5 c5 w5 Hmv5 (Hw5 & Hc5).
    eapply run_bind.
    { eapply run_weaken; [apply run_read_json_filler | tauto |].
      intros u st6 c6 w6 _ H. exact H. }
    intros _ st6 c6 w6 Hmv6 (-> & _ & _).
    apply moved_length in Hmv2, Hmv3, Hmv4, Hmv5, Hmv6.
    eapply run_weaken; [apply IH | exact (fun H => H) |].
    + lia.
    + intros _ st7 c7 w7 _ (Hw7 & Hq). cbn [app].
      rewrite !length_app. split; [lia | exact Hq].
  - apply run_ret. split; [simpl; lia|].
    apply char_neqb_false in Ha. subst a. exists t. exact Hs.
Qed.

(** ** Reading the run predicate back *)

Lemma run_returns A (m : M A) st throws
    (Q : A -> cursors -> list char -> list char -> Prop) a st' :
  run m st throws Q -> m st = Ok (a, st') ->
  exists c w, moved st st' c w /\ Q a st' c w.
Proof. unfold run. intros H Hm. rewrite Hm in H. exact H. Qed.

Arguments run_returns {A m st throws Q a st'} _ _.

Lemma run_in_budget A (m : M A) st throws
    (Q : A -> cursors -> list char -> list char -> Prop) :
  run m st throws Q -> m st <> OutOfFuel.
Proof. unfold run. intros H Hm. rewrite Hm in H. exact H. Qed.

Arguments run_in_budget {A m st throws Q} _ _.

(** ** The whole transform, on any input *)

Lemma length_until_nul l : length (until_nul l) <= length l.
Proof.
  induction l as [|c l IH]; [simpl; lia|].
  cbn [until_nul]. destruct (c == NUL); simpl; lia.
Qed.

Lemma run_json_replace_no_try_catch st :
  run json_replace_no_try_catch st True (fun _ st' c w =>
    exists w0, w = w0 ++ [NUL] /\ length w0 <= length c
               /\ exists t, src st' = NUL :: t).
Proof.
  unfold json_replace_no_try_catch.
  eapply run_bind.
  { unfold bounded, run. apply run_json_replace_loop. lia. }
  intros _ st1 c1 w1 _ (Hw1 & t & Hs1).
  eapply run_weaken; [apply run_emit | exact (fun H => H) |].
  intros _ st2 c2 w2 (_ & Hs2 & _) (-> & ->).
  exists w1. rewrite app_nil_r in *. repeat split; [exact Hw1|].
  exists t. cbn [app] in Hs2. rewrite <- Hs2. exact Hs1.
Qed.

(** The iteration budget is never what stops [json_replace]. *)
Lemma json_replace_fuel str : json_replace str <> OutOfFuel.
Proof.
  unfold json_replace.
  pose proof (run_json_replace_no_try_catch
                (Cursors (str ++ [NUL]) [] (strlen (str ++ [NUL]) + 1))) as H.
  unfold run in H.
  destruct (json_replace_no_try_catch _) as [[u st'] | what | | ];
    try discriminate.
  contradiction.
Qed.

(** The exception always carries the fixed message. *)
Lemma json_replace_throws str what :
  json_replace str = Throw what -> what = JSON_READ_ERROR_MSG.
Proof.
  unfold json_replace.
  destruct (json_replace_no_try_catch _) as [[u st'] | what' | | ];
    try discriminate.
  intros H. injection H as <-. reflexivity.
Qed.

(** ** An input that ends where a value is expected *)

Lemma json_replace_loop_dangling_key fuel f ky sp d n :
  is_filler f = true ->
  well_quoted DQUOTE ky = true ->
  is_filler sp = true ->
  length (f ++ quoted ky ++ sp ++ [NUL]) < fuel ->
  length d + length (f ++ quoted ky ++ sp ++ [NUL]) <= n ->
  json_replace_loop fuel (strlen ESCAPED_TARGET_SUFFIX)
    (Cursors (f ++ quoted ky ++ sp ++ [NUL]) d n)
  = Throw JSON_READ_ERROR_MSG.
Proof.
  intros Hf Hky Hsp Hfuel Hcap.
  destruct fuel as [|fuel]; [lia|].
  rewrite json_replace_loop_enters.
  - rewrite (read_key_then
               (fun replace =>
                  read_json_value replace ;; read_json_filler ;;
                  json_replace_loop fuel (strlen ESCAPED_TARGET_SUFFIX)));
      auto.
  - destruct f as [|c f]; [reflexivity|].
    simpl in Hf. apply andb_true_iff in Hf. destruct Hf as [Hc _].
    unfold filler_char in Hc.
    apply andb_true_iff in Hc. destruct Hc as [Hc _].
    apply andb_true_iff in Hc. destruct Hc as [Hc _]. exact Hc.
Qed.

Lemma json_replace_dangling_key d f ky sp :
  scannable d = true ->
  is_filler f = true ->
  well_quoted DQUOTE ky = true ->
  is_filler sp = true ->
  json_replace (render d ++ f ++ quoted ky ++ sp) = Throw JSON_READ_ERROR_MSG.
Proof.
  intros Hd Hf Hky Hsp. unfold json_replace.
  assert (Hloop :
    forall n, length (render d ++ f ++ quoted ky ++ sp) < n ->
    json_replace_no_try_catch
      (Cursors ((render d ++ f ++ quoted ky ++ sp) ++ [NUL]) [] n)
    = Throw JSON_READ_ERROR_MSG).
  { intros n Hn. unfold json_replace_no_try_catch, bind, bounded. cbn [src].
    match goal with |- match ?x with _ => _ end = _ =>
      assert (Hx : x = Throw JSON_READ_ERROR_MSG); [|rewrite Hx; reflexivity]
    end.
    rewrite <- ?app_assoc. rewrite <- ?app_assoc in Hn.
    destruct d as [|e d].
    - cbn [render flat_map app] in *.
      apply json_replace_loop_dangling_key; auto.
      rewrite !length_app in *. cbn [length] in *. lia.
    - cbn [scannable forallb] in Hd. apply andb_true_iff in Hd.
      destruct Hd as [He Hd]. unfold scannable_entry in He.
      apply andb_true_iff in He. destruct He as [Hl Hp].
      cbn [render flat_map] in *. fold (render d) in *.
      unfold render_entry in *. rewrite <- !app_assoc in *.
      apply (json_replace_loop_pairs_then d e (lead e) f
               (quoted ky ++ sp ++ [NUL])); auto.
      + rewrite !length_app in *. cbn [length] in *. lia.
      + intros fuel' Hfuel'.
        apply (json_replace_loop_dangling_key fuel' [] ky sp); auto.
        cbn [app]. rewrite !length_app in *. cbn [length] in *.
        pose proof (length_render_mask d) as Hm.
        pose proof (length_render_pair_mask e) as Hm'. lia. }
  rewrite Hloop; [reflexivity|].
  rewrite strlen_nul_free; [lia|].
  rewrite !nul_free_app, (nul_free_render d Hd), (nul_free_filler f Hf),
    (nul_free_quoted ky Hky), (nul_free_filler sp Hsp). reflexivity.
Qed.

(** ** String literals that the scan reads as written *)

Lemma well_quoted_string_body n : forall b prev,
  length b <= n ->
  is_string_body b = true ->
  (final prev b != BACKSLASH) = true ->
  well_quoted prev b = true.
Proof.
  induction n as [|n IH]; intros b prev Hn Hb Hfin.
  - destruct b; [exact Hfin | simpl in Hn; lia].
  - destruct b as [|c b]; [exact Hfin|].
    cbn [is_string_body] in Hb. cbn [well_quoted final] in *.
    destruct (c == BACKSLASH) eqn:Hc.
    + apply char_eqb_true in Hc. subst c.
      destruct b as [|e b]; [discriminate|].
      apply andb_true_iff in Hb. destruct Hb as [He Hb].
      cbn [well_quoted final] in *. rewrite char_eqb_refl, He.
      rewrite orb_true_r. cbn [andb].
      change (BACKSLASH != DQUOTE) with true.
      change (BACKSLASH != NUL) with true. cbn [orb andb].
      apply IH; [simpl in Hn; lia | exact Hb | exact Hfin].
    + apply andb_true_iff in Hb. destruct Hb as [Hb Hrest].
      apply andb_true_iff in Hb. destruct Hb as [Hq Hnul].
      rewrite Hq, Hnul. cbn [orb andb].
      apply IH; [simpl in Hn; lia | exact Hrest | exact Hfin].
Qed.

Lemma well_quoted_literal b :
  is_string_body b = true -> closes b = true -> well_quoted DQUOTE b = true.
Proof. intros Hb Hc. apply (well_quoted_string_body (length b)); auto. Qed.

Lemma scannable_conforming_value v :
  conforming_value v = true -> closing_value v = true ->
  scannable_value v = true.
Proof.
  destruct v as [b | g es]; cbn [conforming_value closing_value scannable_value].
  - apply well_quoted_literal.
  - intros H Hc. apply andb_true_iff in H. destruct H as [Hg Hes].
    rewrite Hg. cbn [andb].
    induction es as [|[b g'] es IH]; [reflexivity|].
    cbn [forallb fst] in *.
    apply andb_true_iff in Hes. destruct Hes as [Hbg Hes].
    apply andb_true_iff in Hc. destruct Hc as [Hcb Hc].
    unfold conforming_elem in Hbg. cbn [fst snd] in Hbg.
    apply andb_true_iff in Hbg. destruct Hbg as [Hb Hg'].
    rewrite (IH Hes Hc), andb_true_r.
    unfold scannable_elem. cbn [fst snd].
    rewrite (well_quoted_literal b Hb Hcb), Hg'. reflexivity.
Qed.

Lemma scannable_conforming d :
  conforming d = true -> closing d = true -> scannable d = true.
Proof.
  induction d as [|e d IH]; [reflexivity|].
  cbn [conforming closing scannable forallb]. intros H Hc.
  apply andb_true_iff in H. destruct H as [He Hd].
  apply andb_true_iff in Hc. destruct Hc as [Hce Hcd].
  specialize (IH Hd Hcd). unfold scannable in IH. rewrite IH, andb_true_r.
  unfold conforming_entry in He.
  apply andb_true_iff in He. destruct He as [He Ht].
  apply andb_true_iff in He. destruct He as [He Hv].
  apply andb_true_iff in He. destruct He as [He Hs].
  apply andb_true_iff in He. destruct He as [Hl Hk].
  apply andb_true_iff in Hce. destruct Hce as [Hck Hcv].
  unfold scannable_entry, scannable_pair.
  rewrite Hl, Hs, Ht, (well_quoted_literal _ Hk Hck),
    (scannable_conforming_value _ Hv Hcv). reflexivity.
Qed.

Lemma mask_no_target d : no_target d = true -> mask d = d.
Proof.
  induction d as [|e d IH]; [reflexivity|].
  cbn [no_target forallb mask map]. intros H.
  apply andb_true_iff in H. destruct H as [He Hd].
  fold (mask d). rewrite (IH Hd). f_equal.
  unfold mask_entry. apply negb_true_iff in He. rewrite He. reflexivity.
Qed.

(** ** Documents put together *)

Lemma render_app d1 d2 : render (d1 ++ d2) = render d1 ++ render d2.
Proof. unfold render. apply flat_map_app. Qed.

Lemma mask_app d1 d2 : mask (d1 ++ d2) = mask d1 ++ mask d2.
Proof. unfold mask. apply map_app. Qed.

Lemma render_elems_app es1 es2 :
  render_elems (es1 ++ es2) = render_elems es1 ++ render_elems es2.
Proof. unfold render_elems. apply flat_map_app. Qed.

Lemma render_single e : render [e] = render_entry e.
Proof. unfold render. cbn [flat_map]. apply app_nil_r. Qed.

(** The output for a document with one entry singled out. *)
Lemma json_replace_around d1 e d2 :
  scannable (d1 ++ [e] ++ d2) = true ->
  json_replace (render (d1 ++ [e] ++ d2))
  = Ok (render (mask d1) ++ render_entry (mask_entry e) ++ render (mask d2)).
Proof.
  intros H. rewrite (json_replace_scannable _ H).
  rewrite !mask_app, !render_app. cbn [mask map].
  rewrite render_single. reflexivity.
Qed.

(** ** A body that ends in an escaped backslash *)

Lemma quotes_escaped_string_body n : forall b prev,
  length b <= n -> is_string_body b = true -> quotes_escaped prev b = true.
Proof.
  induction n as [|n IH]; intros b prev Hn Hb.
  - destruct b; [reflexivity | simpl in Hn; lia].
  - destruct b as [|c b]; [reflexivity|].
    cbn [is_string_body] in Hb. cbn [quotes_escaped].
    destruct (c == BACKSLASH) eqn:Hc.
    + apply char_eqb_true in Hc. subst c.
      destruct b as [|e b]; [reflexivity|].
      apply andb_true_iff in Hb. destruct Hb as [_ Hb].
      cbn [quotes_escaped]. rewrite char_eqb_refl, orb_true_r.
      change (BACKSLASH != DQUOTE) with true. cbn [orb andb].
      apply IH; [simpl in Hn; lia | exact Hb].
    + apply andb_true_iff in Hb. destruct Hb as [Hb Hrest].
      apply andb_true_iff in Hb. destruct Hb as [Hq _].
      rewrite Hq. cbn [orb andb].
      apply IH; [simpl in Hn; lia | exact Hrest].
Qed.

Lemma copy_cases c s d n :
  copy (Cursors (c :: s) d n)
  = if length d <? n then Ok (tt, Cursors s (d ++ [c]) n) else OutOfBounds.
Proof.
  unfold copy, bind, peek, emit, skip. cbn [src dest cap].
  destruct (length d <? n); reflexivity.
Qed.

(** Over a body whose quotes are all escaped the copying loop does not stop:
    if it returns at all, it has gone on from the end of the body. *)
Lemma read_json_string_loop_through b : forall prev fuel s d n st',
  quotes_escaped prev b = true ->
  read_json_string_loop fuel (prev == BACKSLASH) (Cursors (b ++ s) d n)
  = Ok (tt, st') ->
  exists fuel',
    read_json_string_loop fuel' (final prev b == BACKSLASH)
                          (Cursors s (d ++ b) n)
    = Ok (tt, st').
Proof.
  induction b as [|c b IH]; intros prev fuel s d n st' Hb Hrun.
  - exists fuel. cbn [final app] in *. rewrite app_nil_r. exact Hrun.
  - destruct fuel as [|fuel]; [discriminate|].
    cbn [quotes_escaped] in Hb. apply andb_true_iff in Hb.
    destruct Hb as [Hc Hb].
    cbn [read_json_string_loop app] in Hrun.
    rewrite (bind_ok _ (peek_cons _ _ _ _)) in Hrun. cbv beta in Hrun.
    rewrite Hc in Hrun. unfold bind at 1 in Hrun.
    rewrite copy_cases in Hrun.
    destruct (length d <? n); [|discriminate].
    destruct (IH c fuel s (d ++ [c]) n st' Hb Hrun) as [fuel' H'].
    exists fuel'. cbn [final]. rewrite <- app_assoc in H'. exact H'.
Qed.

Lemma run_read_json_string_quote st :
  run read_json_string st False (fun _ st' c w => exists c0, c = c0 ++ [DQUOTE]).
Proof.
  unfold read_json_string.
  eapply run_bind; [apply run_copy|].
  intros _ st1 c1 w1 _ (-> & a & -> & Hs1).
  eapply run_bind.
  { unfold bounded, run. apply run_read_json_string_loop. lia. }
  intros _ st2 c2 w2 _ (-> & t & Hs2).
  eapply run_weaken; [apply run_copy | exact (fun H => H) |].
  intros _ st3 c3 w3 _ (-> & a3 & -> & Hs3).
  rewrite Hs2 in Hs3. injection Hs3 as <- _.
  exists ([a] ++ c2). rewrite <- app_assoc. reflexivity.
Qed.

(** Whatever its budget, when the copying loop returns it has stopped at a
    double quote further on. *)
Lemma read_json_string_loop_returns fuel : forall escaped st st',
  read_json_string_loop fuel escaped st = Ok (tt, st') ->
  exists c t, src st = c ++ DQUOTE :: t /\ src st' = DQUOTE :: t.
Proof.
  induction fuel as [|fuel IH]; intros escaped st st' Hrun; [discriminate|].
  cbn [read_json_string_loop] in Hrun.
  destruct st as [s d n]. destruct s as [|a s]; [discriminate|].
  rewrite (bind_ok _ (peek_cons _ _ _ _)) in Hrun. cbv beta in Hrun.
  destruct ((a != DQUOTE) || escaped) eqn:Ha.
  - unfold bind at 1 in Hrun. rewrite copy_cases in Hrun.
    destruct (length d <? n); [|discriminate].
    destruct (IH _ _ _ Hrun) as (c & t & Hs & Hs').
    cbn [src] in *. exists (a :: c), t. rewrite Hs. auto.
  - unfold ret in Hrun. injection Hrun as <-.
    apply orb_false_iff in Ha. destruct Ha as [Ha _].
    apply char_neqb_false in Ha. subst a.
    exists [], s. auto.
Qed.

Lemma skip_json_string_loop_through b : forall prev fuel s d n st',
  quotes_escaped prev b = true ->
  skip_json_string_loop fuel (prev == BACKSLASH) (Cursors (b ++ s) d n)
  = Ok (tt, st') ->
  exists fuel',
    skip_json_string_loop fuel' (final prev b == BACKSLASH) (Cursors s d n)
    = Ok (tt, st').
Proof.
  induction b as [|c b IH]; intros prev fuel s d n st' Hb Hrun.
  - exists fuel. exact Hrun.
  - destruct fuel as [|fuel]; [discriminate|].
    cbn [quotes_escaped] in Hb. apply andb_true_iff in Hb.
    destruct Hb as [Hc Hb].
    cbn [skip_json_string_loop app] in Hrun.
    rewrite (bind_ok _ (peek_cons _ _ _ _)) in Hrun. cbv beta in Hrun.
    rewrite Hc in Hrun.
    rewrite (bind_ok _ (skip_cons _ _ _ _)) in Hrun.
    exact (IH c fuel s d n st' Hb Hrun).
Qed.

Lemma skip_json_string_loop_returns fuel : forall escaped st st',
  skip_json_string_loop fuel escaped st = Ok (tt, st') ->
  exists c t, src st = c ++ DQUOTE :: t /\ src st' = DQUOTE :: t.
Proof.
  induction fuel as [|fuel IH]; intros escaped st st' Hrun; [discriminate|].
  cbn [skip_json_string_loop] in Hrun.
  destruct st as [s d n]. destruct s as [|a s]; [discriminate|].
  rewrite (bind_ok _ (peek_cons _ _ _ _)) in Hrun. cbv beta in Hrun.
  destruct ((a != DQUOTE) || escaped) eqn:Ha.
  - rewrite (bind_ok _ (skip_cons _ _ _ _)) in Hrun.
    destruct (IH _ _ _ Hrun) as (c & t & Hs & Hs').
    cbn [src] in *. exists (a :: c), t. rewrite Hs. auto.
  - unfold ret in Hrun. injection Hrun as <-.
    apply orb_false_iff in Ha. destruct Ha as [Ha _].
    apply char_neqb_false in Ha. subst a.
    exists [], s. auto.
Qed.

(** Where no double quote is left after a literal that ends in an escaped
    backslash, neither string reader returns. *)
Lemma string_reader_overruns (replace : bool) b t dst n st' :
  is_string_body b = true ->
  closes b = false ->
  ~ In DQUOTE t ->
  (if replace return M unit
   then read_and_replace_json_string else read_json_string)
    (Cursors (quoted b ++ t) dst n) <> Ok (tt, st').
Proof.
  intros Hb Hc Ht Hrun.
  pose proof (quotes_escaped_string_body (length b) b DQUOTE
                (Nat.le_refl _) Hb) as Hq.
  unfold closes in Hc. apply char_neqb_false in Hc.
  unfold quoted in Hrun. cbn [app] in Hrun. rewrite <- app_assoc in Hrun.
  cbn [app] in Hrun.
  destruct replace.
  - unfold read_and_replace_json_string in Hrun. unfold bind at 1 in Hrun.
    rewrite copy_cases in Hrun.
    destruct (length dst <? n); [|discriminate].
    destruct b as [|c b]; [discriminate|].
    cbn [app] in Hrun.
    rewrite (bind_ok _ (peek_cons _ _ _ _)) in Hrun. cbv beta in Hrun.
    assert (Hcq : (c == DQUOTE) = false).
    { cbn [quotes_escaped] in Hq. apply andb_true_iff in Hq.
      destruct Hq as [Hq _]. rewrite orb_false_r in Hq.
      apply char_neqb_true, char_eqb_false in Hq. exact Hq. }
    rewrite Hcq in Hrun.
    unfold bind at 1 in Hrun. unfold bounded at 1 in Hrun. cbn [src] in Hrun.
    destruct (skip_json_string_loop _ false _) as [[u st2] | | | ] eqn:Hloop;
      try discriminate.
    destruct u.
    destruct (skip_json_string_loop_through (c :: b) DQUOTE _ (DQUOTE :: t)
                _ n st2 Hq Hloop) as [fuel' Hl'].
    rewrite Hc, char_eqb_refl in Hl'.
    destruct fuel' as [|fuel']; [discriminate|].
    cbn [skip_json_string_loop] in Hl'.
    rewrite (bind_ok _ (peek_cons _ _ _ _)) in Hl'. cbv beta in Hl'.
    rewrite orb_true_r in Hl'.
    rewrite (bind_ok _ (skip_cons _ _ _ _)) in Hl'.
    destruct (skip_json_string_loop_returns _ _ _ _ Hl') as (c0 & t0 & Hs & _).
    cbn [src] in Hs. apply Ht. rewrite Hs. apply in_or_app. right. left.
    reflexivity.
  - unfold read_json_string in Hrun. unfold bind at 1 in Hrun.
    rewrite copy_cases in Hrun.
    destruct (length dst <? n); [|discriminate].
    unfold bind at 1 in Hrun. unfold bounded at 1 in Hrun. cbn [src] in Hrun.
    destruct (read_json_string_loop _ false _) as [[u st2] | | | ] eqn:Hloop;
      try discriminate.
    destruct u.
    destruct (read_json_string_loop_through b DQUOTE _ (DQUOTE :: t) _ n st2
                Hq Hloop) as [fuel' Hl'].
    rewrite Hc, char_eqb_refl in Hl'.
    destruct fuel' as [|fuel']; [discriminate|].
    cbn [read_json_string_loop] in Hl'.
    rewrite (bind_ok _ (peek_cons _ _ _ _)) in Hl'. cbv beta in Hl'.
    rewrite orb_true_r in Hl'. unfold bind at 1 in Hl'.
    rewrite copy_cases in Hl'.
    destruct (length _ <? n); [|discriminate].
    destruct (read_json_string_loop_returns _ _ _ _ Hl') as (c0 & t0 & Hs & _).
    cbn [src] in Hs. apply Ht. rewrite Hs. apply in_or_app. right. left.
    reflexivity.
Qed.

Lemma filler_no_quote f : is_filler f = true -> ~ In DQUOTE (f ++ [NUL]).
Proof.
  intros Hf Hin. apply in_app_or in Hin. destruct Hin as [Hin | Hin].
  - unfold is_filler in Hf. rewrite forallb_forall in Hf.
    specialize (Hf DQUOTE Hin). discriminate.
  - destruct Hin as [Hin | []]. discriminate.
Qed.

Lemma read_json_value_overruns replace b t dst n :
  is_string_body b = true ->
  closes b = false ->
  is_filler t = true ->
  read_json_value replace (Cursors (quoted b ++ t ++ [NUL]) dst n)
  = OutOfBounds.
Proof.
  intros Hb Hc Ht.
  pose proof (run_read_json_value replace
                (Cursors (quoted b ++ t ++ [NUL]) dst n)) as Hrun.
  unfold run in Hrun.
  destruct (read_json_value replace _) as [[u st'] | what | | ] eqn:Hv;
    [ | | reflexivity | contradiction].
  - exfalso. destruct u.
    unfold read_json_value in Hv.
    rewrite (bind_ok _ (peek_quoted _ _ _ _)) in Hv. cbv beta in Hv.
    rewrite char_eqb_refl in Hv.
    exact (string_reader_overruns replace b (t ++ [NUL]) dst n st' Hb Hc
             (filler_no_quote t Ht) Hv).
  - exfalso. destruct (Hrun (b ++ [DQUOTE] ++ t ++ [NUL])) as [Hq _].
    apply Hq. cbn [src]. unfold quoted. cbn [app].
    rewrite <- app_assoc. reflexivity.
Qed.

Lemma json_replace_loop_last_value_overruns fuel f ky sp b t d n :
  is_filler f = true ->
  well_quoted DQUOTE ky = true ->
  is_filler sp = true ->
  is_string_body b = true ->
  closes b = false ->
  is_filler t = true ->
  length (f ++ quoted ky ++ sp ++ quoted b ++ t ++ [NUL]) < fuel ->
  length d + length (f ++ quoted ky ++ sp ++ quoted b ++ t ++ [NUL]) <= n ->
  json_replace_loop fuel (strlen ESCAPED_TARGET_SUFFIX)
    (Cursors (f ++ quoted ky ++ sp ++ quoted b ++ t ++ [NUL]) d n)
  = OutOfBounds.
Proof.
  intros Hf Hky Hsp Hb Hc Ht Hfuel Hcap.
  destruct fuel as [|fuel]; [lia|].
  rewrite json_replace_loop_enters.
  - rewrite (read_key_then
               (fun replace =>
                  read_json_value replace ;; read_json_filler ;;
                  json_replace_loop fuel (strlen ESCAPED_TARGET_SUFFIX)));
      auto using filler_stops_quoted.
    unfold bind at 1. rewrite read_json_value_overruns; auto.
  - destruct f as [|c f]; [reflexivity|].
    simpl in Hf. apply andb_true_iff in Hf. destruct Hf as [Hx _].
    unfold filler_char in Hx.
    apply andb_true_iff in Hx. destruct Hx as [Hx _].
    apply andb_true_iff in Hx. destruct Hx as [Hx _]. exact Hx.
Qed.

Lemma nul_free_string_body n : forall b,
  length b <= n -> is_string_body b = true -> nul_free b = true.
Proof.
  induction n as [|n IH]; intros b Hn Hb.
  - destruct b; [reflexivity | simpl in Hn; lia].
  - destruct b as [|c b]; [reflexivity|].
    cbn [is_string_body] in Hb. cbn [nul_free forallb].
    destruct (c == BACKSLASH) eqn:Hc.
    + apply char_eqb_true in Hc. subst c.
      destruct b as [|e b]; [discriminate|].
      apply andb_true_iff in Hb. destruct Hb as [He Hb].
      cbn [forallb]. rewrite He.
      change (BACKSLASH != NUL) with true. cbn [andb].
      apply IH; [simpl in Hn; lia | exact Hb].
    + apply andb_true_iff in Hb. destruct Hb as [Hb Hrest].
      apply andb_true_iff in Hb. destruct Hb as [_ Hnul].
      rewrite Hnul. cbn [andb].
      apply IH; [simpl in Hn; lia | exact Hrest].
Qed.

(** A document whose last value is a string that ends in an escaped
    backslash: the transform reads past the terminator. *)
Lemma json_replace_last_value_overruns d l ky sp b t :
  scannable d = true ->
  is_filler l = true ->
  well_quoted DQUOTE ky = true ->
  is_filler sp = true ->
  is_string_body b = true ->
  closes b = false ->
  is_filler t = true ->
  json_replace (render (d ++ [Entry l ky sp (VString b) t])) = OutOfBounds.
Proof.
  intros Hd Hl Hky Hsp Hb Hc Ht. unfold json_replace.
  rewrite render_app, render_single. unfold render_entry, render_pair.
  cbn [lead key sep val trail render_value].
  rewrite strlen_nul_free.
  2:{ rewrite !nul_free_app, (nul_free_render d Hd), (nul_free_filler l Hl),
        (nul_free_quoted ky Hky), (nul_free_filler sp Hsp),
        (nul_free_filler t Ht).
      unfold quoted.
      change (DQUOTE :: b ++ [DQUOTE]) with ([DQUOTE] ++ b ++ [DQUOTE]).
      rewrite !nul_free_app,
        (nul_free_string_body (length b) b (Nat.le_refl _) Hb).
      reflexivity. }
  unfold json_replace_no_try_catch, bind, bounded. cbn [src].
  match goal with |- match match ?x with _ => _ end with _ => _ end = _ =>
    assert (Hx : x = OutOfBounds); [|rewrite Hx; reflexivity]
  end.
  rewrite <- !app_assoc. rewrite !length_app, !length_quoted.
  destruct d as [|e d].
  - cbn [render flat_map app length].
    apply json_replace_loop_last_value_overruns; auto;
      rewrite !length_app, !length_quoted; cbn [length]; lia.
  - cbn [scannable forallb] in Hd. apply andb_true_iff in Hd.
    destruct Hd as [He Hd]. unfold scannable_entry in He.
    apply andb_true_iff in He. destruct He as [Hle Hp].
    cbn [render flat_map]. fold (render d).
    unfold render_entry. rewrite <- !app_assoc.
    apply (json_replace_loop_pairs_then d e (lead e) l
             (quoted ky ++ sp ++ quoted b ++ t ++ [NUL])); auto.
    + rewrite !length_app, !length_quoted. cbn [length]. lia.
    + rewrite !length_app, !length_quoted. cbn [length]. lia.
    + intros fuel' Hfuel'.
      apply (json_replace_loop_last_value_overruns fuel' [] ky sp b t); auto.
      cbn [app]. rewrite !length_app, !length_quoted in *. cbn [length] in *.
      pose proof (length_render_mask d) as Hm.
      pose proof (length_render_pair_mask e) as Hm'. lia.
Qed.

Lemma conforming_last d e :
  conforming (d ++ [e]) = true ->
  conforming d = true /\ conforming_entry e = true.
Proof.
  unfold conforming. rewrite forallb_app. cbn [forallb].
  rewrite andb_true_r. apply andb_true_iff.
Qed.

(** The same, for a document of the grammar. *)
Lemma json_replace_escaped_backslash_overruns d l k s b t :
  conforming (d ++ [Entry l k s (VString b) t]) = true ->
  closing d = true ->
  closes k = true ->
  closes b = false ->
  json_replace (render (d ++ [Entry l k s (VString b) t])) = OutOfBounds.
Proof.
  intros Hconf Hd Hk Hb.
  apply conforming_last in Hconf. destruct Hconf as [Hcd He].
  unfold conforming_entry in He. cbn [lead key sep val trail] in He.
  apply andb_true_iff in He. destruct He as [He Ht].
  apply andb_true_iff in He. destruct He as [He Hv].
  apply andb_true_iff in He. destruct He as [He Hs].
  apply andb_true_iff in He. destruct He as [Hl Hkb].
  cbn [conforming_value] in Hv.
  apply json_replace_last_value_overruns; auto.
  - apply scannable_conforming; assumption.
  - apply well_quoted_literal; assumption.
Qed.

(** ** Masking twice *)

Lemma mask_body_idem b : mask_body (mask_body b) = mask_body b.
Proof. destruct b; reflexivity. Qed.

Lemma mask_value_idem v : mask_value (mask_value v) = mask_value v.
Proof.
  destruct v as [b | g es]; cbn [mask_value].
  - rewrite mask_body_idem. reflexivity.
  - f_equal. rewrite map_map. apply map_ext. intros [b t].
    unfold mask_elem. cbn [fst snd]. rewrite mask_body_idem. reflexivity.
Qed.

Lemma mask_entry_idem e : mask_entry (mask_entry e) = mask_entry e.
Proof.
  unfold mask_entry. destruct (is_target (key e)) eqn:Hk.
  - cbn [key]. rewrite Hk. cbn [lead key sep val trail].
    rewrite mask_value_idem. reflexivity.
  - rewrite Hk. reflexivity.
Qed.

Lemma mask_idem d : mask (mask d) = mask d.
Proof.
  unfold mask. rewrite map_map. apply map_ext. exact mask_entry_idem.
Qed.

(** ** Documents that differ in masked bodies only *)

Lemma mask_body_alike b1 b2 :
  alike_body b1 b2 = true -> mask_body b1 = mask_body b2.
Proof. destruct b1, b2; cbn; congruence. Qed.

Lemma mask_elems_alike es1 : forall es2,
  alike_elems es1 es2 = true -> map mask_elem es1 = map mask_elem es2.
Proof.
  induction es1 as [|[b1 t1] es1 IH]; intros [|[b2 t2] es2] H;
    try discriminate; [reflexivity|].
  cbn [alike_elems fst snd] in H.
  apply andb_true_iff in H. destruct H as [H Hes].
  apply andb_true_iff in H. destruct H as [Hb Ht].
  apply chars_eqb_true in Ht. subst t2.
  cbn [map]. unfold mask_elem at 1 3. cbn [fst snd].
  rewrite (mask_body_alike _ _ Hb), (IH _ Hes). reflexivity.
Qed.

Lemma elems_eqb_true es1 : forall es2, elems_eqb es1 es2 = true -> es1 = es2.
Proof.
  induction es1 as [|[b1 t1] es1 IH]; intros [|[b2 t2] es2] H;
    try discriminate; [reflexivity|].
  cbn [elems_eqb fst snd] in H.
  apply andb_true_iff in H. destruct H as [H Hes].
  apply andb_true_iff in H. destruct H as [Hb Ht].
  apply chars_eqb_true in Hb, Ht. subst. rewrite (IH _ Hes). reflexivity.
Qed.

Lemma value_eqb_true v1 v2 : value_eqb v1 v2 = true -> v1 = v2.
Proof.
  destruct v1 as [b1 | g1 es1], v2 as [b2 | g2 es2]; cbn [value_eqb];
    try discriminate.
  - intros H. apply chars_eqb_true in H. subst. reflexivity.
  - intros H. apply andb_true_iff in H. destruct H as [Hg Hes].
    apply chars_eqb_true in Hg. apply elems_eqb_true in Hes. subst.
    reflexivity.
Qed.

Lemma mask_value_alike v1 v2 :
  alike_value v1 v2 = true -> mask_value v1 = mask_value v2.
Proof.
  destruct v1 as [b1 | g1 es1], v2 as [b2 | g2 es2]; cbn [alike_value];
    try discriminate.
  - intros Hb. cbn [mask_value]. rewrite (mask_body_alike _ _ Hb). reflexivity.
  - intros H. apply andb_true_iff in H. destruct H as [Hg Hes].
    apply chars_eqb_true in Hg. subst g2.
    cbn [mask_value]. rewrite (mask_elems_alike _ _ Hes). reflexivity.
Qed.

Lemma mask_entry_alike e1 e2 :
  alike_entry e1 e2 = true -> mask_entry e1 = mask_entry e2.
Proof.
  destruct e1 as [l1 k1 s1 v1 t1], e2 as [l2 k2 s2 v2 t2].
  unfold alike_entry, mask_entry. cbn [lead key sep val trail].
  intros H.
  apply andb_true_iff in H. destruct H as [H Hv].
  apply andb_true_iff in H. destruct H as [H Ht].
  apply andb_true_iff in H. destruct H as [H Hs].
  apply andb_true_iff in H. destruct H as [Hl Hk].
  apply chars_eqb_true in Hl, Hk, Hs, Ht. subst.
  destruct (is_target k2).
  - rewrite (mask_value_alike _ _ Hv). reflexivity.
  - rewrite (value_eqb_true _ _ Hv). reflexivity.
Qed.

Lemma mask_alike d1 : forall d2, alike d1 d2 = true -> mask d1 = mask d2.
Proof.
  induction d1 as [|e1 d1 IH]; intros [|e2 d2] H; try discriminate;
    [reflexivity|].
  cbn [alike] in H. apply andb_true_iff in H. destruct H as [He Hd].
  cbn [mask map]. rewrite (mask_entry_alike _ _ He). f_equal.
  exact (IH _ Hd).
Qed.

(** ** The filler scanner, with the room it needs *)

Lemma read_json_filler_loop_exact f : forall fuel s d n,
  is_filler f = true ->
  filler_stops s = true ->
  length f < fuel ->
  length d + length f <= n ->
  read_json_filler_loop fuel (Cursors (f ++ s) d n)
  = Ok (tt, Cursors s (d ++ f) n).
Proof.
  induction f as [|c f IH]; intros fuel s d n Hf Hs Hfuel Hn.
  - destruct fuel as [|fuel]; [lia|].
    destruct s as [|c r]; [discriminate|].
    cbn [filler_stops] in Hs. apply negb_true_iff in Hs.
    cbn [app]. rewrite app_nil_r.
    apply read_json_filler_loop_stops. exact Hs.
  - destruct fuel as [|fuel]; [simpl in Hfuel; lia|].
    cbn [is_filler forallb] in Hf. apply andb_true_iff in Hf.
    destruct Hf as [Hc Hf].
    cbn [read_json_filler_loop app].
    run_peek. unfold filler_char in Hc. rewrite Hc.
    erewrite (bind_ok _); [ | apply copy_cons; simpl in Hn; lia ].
    cbv beta.
    rewrite IH; auto.
    + rewrite <- app_assoc. reflexivity.
    + simpl in Hfuel. lia.
    + rewrite length_app. simpl in *. lia.
Qed.

Lemma read_json_filler_exact f s d n :
  is_filler f = true ->
  filler_stops s = true ->
  length d + length f <= n ->
  read_json_filler (Cursors (f ++ s) d n) = Ok (tt, Cursors s (d ++ f) n).
Proof.
  intros Hf Hs Hn. unfold read_json_filler, bounded. cbn [src].
  apply read_json_filler_loop_exact; auto.
  rewrite length_app. lia.
Qed.

Lemma read_json_filler_loop_unstopped f : forall fuel d n,
  is_filler f = true ->
  length f < fuel ->
  read_json_filler_loop fuel (Cursors f d n) = OutOfBounds.
Proof.
  induction f as [|c f IH]; intros fuel d n Hf Hfuel.
  - destruct fuel as [|fuel]; [lia|]. reflexivity.
  - destruct fuel as [|fuel]; [simpl in Hfuel; lia|].
    cbn [is_filler forallb] in Hf. apply andb_true_iff in Hf.
    destruct Hf as [Hc Hf].
    cbn [read_json_filler_loop].
    run_peek. unfold filler_char in Hc. rewrite Hc.
    unfold bind at 1. rewrite copy_cases.
    destruct (length d <? n); [|reflexivity].
    apply IH; auto. simpl in Hfuel. lia.
Qed.

(** ** The string readers, with the room they need *)

Lemma read_json_string_loop_exact b : forall prev fuel r d n,
  quotes_escaped prev b = true ->
  (final prev b != BACKSLASH) = true ->
  length b < fuel ->
  length d + length b <= n ->
  read_json_string_loop fuel (prev == BACKSLASH)
    (Cursors (b ++ DQUOTE :: r) d n)
  = Ok (tt, Cursors (DQUOTE :: r) (d ++ b) n).
Proof.
  induction b as [|c b IH]; intros prev fuel r d n Hq Hfin Hfuel Hn.
  - destruct fuel as [|fuel]; [lia|].
    cbn [final] in Hfin. apply char_neqb_true, char_eqb_false in Hfin.
    cbn [read_json_string_loop app]. run_peek.
    rewrite Hfin, char_neqb_refl. cbn [orb]. rewrite app_nil_r. reflexivity.
  - destruct fuel as [|fuel]; [simpl in Hfuel; lia|].
    cbn [quotes_escaped] in Hq. apply andb_true_iff in Hq.
    destruct Hq as [Hc Hq]. cbn [final] in Hfin.
    cbn [read_json_string_loop app]. run_peek. rewrite Hc.
    erewrite (bind_ok _); [ | apply copy_cons; simpl in Hn; lia ].
    cbv beta.
    rewrite IH; auto.
    + rewrite <- app_assoc. reflexivity.
    + simpl in Hfuel. lia.
    + rewrite length_app. simpl in *. lia.
Qed.

Lemma skip_json_string_loop_exact b : forall prev fuel r d n,
  quotes_escaped prev b = true ->
  (final prev b != BACKSLASH) = true ->
  length b < fuel ->
  skip_json_string_loop fuel (prev == BACKSLASH)
    (Cursors (b ++ DQUOTE :: r) d n)
  = Ok (tt, Cursors (DQUOTE :: r) d n).
Proof.
  induction b as [|c b IH]; intros prev fuel r d n Hq Hfin Hfuel.
  - destruct fuel as [|fuel]; [lia|].
    cbn [final] in Hfin. apply char_neqb_true, char_eqb_false in Hfin.
    cbn [skip_json_string_loop app]. run_peek.
    rewrite Hfin, char_neqb_refl. reflexivity.
  - destruct fuel as [|fuel]; [simpl in Hfuel; lia|].
    cbn [quotes_escaped] in Hq. apply andb_true_iff in Hq.
    destruct Hq as [Hc Hq]. cbn [final] in Hfin.
    cbn [skip_json_string_loop app]. run_peek. rewrite Hc. run_skip.
    apply IH; auto. simpl in Hfuel. lia.
Qed.

(** Where a double quote of the body is not escaped, the loops stop inside
    the body. *)
Lemma read_json_string_loop_stops_inside b : forall prev fuel s d n st',
  quotes_escaped prev b = false ->
  read_json_string_loop fuel (prev == BACKSLASH) (Cursors (b ++ s) d n)
  = Ok (tt, st') ->
  length s < length (src st').
Proof.
  induction b as [|c b IH]; intros prev fuel s d n st' Hq Hrun;
    [discriminate|].
  destruct fuel as [|fuel]; [discriminate|].
  cbn [read_json_string_loop app] in Hrun.
  rewrite (bind_ok _ (peek_cons _ _ _ _)) in Hrun. cbv beta in Hrun.
  cbn [quotes_escaped] in Hq.
  destruct ((c != DQUOTE) || (prev == BACKSLASH)) eqn:Hc.
  - cbn [andb] in Hq. unfold bind at 1 in Hrun. rewrite copy_cases in Hrun.
    destruct (length d <? n); [|discriminate].
    exact (IH c fuel s _ n st' Hq Hrun).
  - unfold ret in Hrun. injection Hrun as <-. cbn [src length].
    rewrite length_app. lia.
Qed.

Lemma skip_json_string_loop_stops_inside b : forall prev fuel s d n st',
  quotes_escaped prev b = false ->
  skip_json_string_loop fuel (prev == BACKSLASH) (Cursors (b ++ s) d n)
  = Ok (tt, st') ->
  length s < length (src st').
Proof.
  induction b as [|c b IH]; intros prev fuel s d n st' Hq Hrun;
    [discriminate|].
  destruct fuel as [|fuel]; [discriminate|].
  cbn [skip_json_string_loop app] in Hrun.
  rewrite (bind_ok _ (peek_cons _ _ _ _)) in Hrun. cbv beta in Hrun.
  cbn [quotes_escaped] in Hq.
  destruct ((c != DQUOTE) || (prev == BACKSLASH)) eqn:Hc.
  - cbn [andb] in Hq.
    rewrite (bind_ok _ (skip_cons _ _ _ _)) in Hrun.
    exact (IH c fuel s _ n st' Hq Hrun).
  - unfold ret in Hrun. injection Hrun as <-. cbn [src length].
    rewrite length_app. lia.
Qed.

(** Where the body ends in a backslash, the loops go past the closing
    quote. *)
Lemma read_json_string_loop_passes b : forall fuel r d n st',
  quotes_escaped DQUOTE b = true ->
  closes b = false ->
  read_json_string_loop fuel false (Cursors (b ++ DQUOTE :: r) d n)
  = Ok (tt, st') ->
  length (src st') <= length r.
Proof.
  intros fuel r d n st' Hq Hc Hrun.
  destruct (read_json_string_loop_through b DQUOTE fuel (DQUOTE :: r) d n st'
              Hq Hrun) as [fuel' Hl'].
  unfold closes in Hc. apply char_neqb_false in Hc.
  rewrite Hc, char_eqb_refl in Hl'.
  destruct fuel' as [|fuel']; [discriminate|].
  cbn [read_json_string_loop] in Hl'.
  rewrite (bind_ok _ (peek_cons _ _ _ _)) in Hl'. cbv beta in Hl'.
  rewrite orb_true_r in Hl'. unfold bind at 1 in Hl'.
  rewrite copy_cases in Hl'.
  destruct (length _ <? n); [|discriminate].
  destruct (read_json_string_loop_returns _ _ _ _ Hl') as (c & t & Hs & Hs2).
  cbn [src] in Hs. rewrite Hs2, Hs, length_app. simpl. lia.
Qed.

Lemma skip_json_string_loop_passes b : forall fuel r d n st',
  quotes_escaped DQUOTE b = true ->
  closes b = false ->
  skip_json_string_loop fuel false (Cursors (b ++ DQUOTE :: r) d n)
  = Ok (tt, st') ->
  length (src st') <= length r.
Proof.
  intros fuel r d n st' Hq Hc Hrun.
  destruct (skip_json_string_loop_through b DQUOTE fuel (DQUOTE :: r) d n st'
              Hq Hrun) as [fuel' Hl'].
  unfold closes in Hc. apply char_neqb_false in Hc.
  rewrite Hc, char_eqb_refl in Hl'.
  destruct fuel' as [|fuel']; [discriminate|].
  cbn [skip_json_string_loop] in Hl'.
  rewrite (bind_ok _ (peek_cons _ _ _ _)) in Hl'. cbv beta in Hl'.
  rewrite orb_true_r in Hl'.
  rewrite (bind_ok _ (skip_cons _ _ _ _)) in Hl'.
  destruct (skip_json_string_loop_returns _ _ _ _ Hl') as (c & t & Hs & Hs2).
  cbn [src] in Hs. rewrite Hs2, Hs, length_app. simpl. lia.
Qed.

(** The verbatim reader returns right after the closing quote of the literal
    only for a body whose quotes are escaped and that does not end in a
    backslash. *)
Lemma read_json_string_closes b r d n st' :
  read_json_string (Cursors (quoted b ++ r) d n) = Ok (tt, st') ->
  src st' = r ->
  quotes_escaped DQUOTE b = true /\ closes b = true.
Proof.
  intros Hrun Hsrc.
  unfold quoted in Hrun. cbn [app] in Hrun. rewrite <- app_assoc in Hrun.
  cbn [app] in Hrun.
  unfold read_json_string in Hrun. unfold bind at 1 in Hrun.
  rewrite copy_cases in Hrun.
  destruct (length d <? n); [|discriminate].
  unfold bind at 1 in Hrun. unfold bounded at 1 in Hrun. cbn [src] in Hrun.
  destruct (read_json_string_loop _ false _) as [[u st2] | | | ] eqn:Hloop;
    try discriminate.
  destruct u.
  assert (Hlen : length (src st2) = S (length r)).
  { destruct (read_json_string_loop_returns _ _ _ _ Hloop) as (c & t & _ & Hs2).
    destruct st2 as [s2 d2 n2]. cbn [src] in *. subst s2.
    rewrite copy_cases in Hrun.
    destruct (length d2 <? n2); [|discriminate].
    injection Hrun as <-. cbn [src] in Hsrc. subst t. reflexivity. }
  destruct (quotes_escaped DQUOTE b) eqn:Hq.
  - split; [reflexivity|].
    destruct (closes b) eqn:Hc; [reflexivity|].
    pose proof (read_json_string_loop_passes b _ r _ n st2 Hq Hc Hloop). lia.
  - change false with (DQUOTE == BACKSLASH) in Hloop.
    pose proof (read_json_string_loop_stops_inside b DQUOTE _ (DQUOTE :: r)
                  _ n st2 Hq Hloop) as H.
    simpl in H. lia.
Qed.

Lemma read_json_string_exact b r d n :
  quotes_escaped DQUOTE b = true ->
  closes b = true ->
  length d + length (quoted b) <= n ->
  read_json_string (Cursors (quoted b ++ r) d n)
  = Ok (tt, Cursors r (d ++ quoted b) n).
Proof.
  intros Hq Hc Hn. unfold quoted in *. cbn [app]. rewrite <- app_assoc.
  cbn [app]. cbn [length] in Hn. rewrite length_app in Hn. cbn [length] in Hn.
  unfold read_json_string.
  erewrite (bind_ok _); [ | apply copy_cons; lia ]. cbv beta.
  erewrite (bind_ok _).
  2:{ unfold bounded. cbn [src].
      change false with (DQUOTE == BACKSLASH).
      apply read_json_string_loop_exact; auto.
      - rewrite length_app. simpl. lia.
      - rewrite length_app. simpl. lia. }
  cbv beta. rewrite copy_cons by (rewrite !length_app; simpl; lia).
  rewrite <- !app_assoc. reflexivity.
Qed.

Lemma read_and_replace_json_string_closes b r d n st' :
  read_and_replace_json_string (Cursors (quoted b ++ r) d n) = Ok (tt, st') ->
  src st' = r ->
  quotes_escaped DQUOTE b = true /\ closes b = true.
Proof.
  intros Hrun Hsrc.
  unfold quoted in Hrun. cbn [app] in Hrun. rewrite <- app_assoc in Hrun.
  cbn [app] in Hrun.
  unfold read_and_replace_json_string in Hrun. unfold bind at 1 in Hrun.
  rewrite copy_cases in Hrun.
  destruct (length d <? n); [|discriminate].
  destruct b as [|c b]; [split; reflexivity|].
  cbn [app] in Hrun.
  rewrite (bind_ok _ (peek_cons _ _ _ _)) in Hrun. cbv beta in Hrun.
  destruct (c == DQUOTE) eqn:Hcq.
  - exfalso. rewrite copy_cases in Hrun.
    destruct (length _ <? n); [|discriminate].
    injection Hrun as <-. cbn [src] in Hsrc.
    apply (f_equal (@length char)) in Hsrc.
    rewrite length_app in Hsrc. simpl in Hsrc. lia.
  - unfold bind at 1 in Hrun. unfold bounded at 1 in Hrun. cbn [src] in Hrun.
    destruct (skip_json_string_loop _ false _) as [[u st2] | | | ] eqn:Hloop;
      try discriminate.
    destruct u.
    assert (Hlen : length (src st2) = S (length r)).
    { destruct (skip_json_string_loop_returns _ _ _ _ Hloop)
        as (c0 & t & _ & Hs2).
      destruct st2 as [s2 d2 n2]. cbn [src] in *. subst s2.
      unfold bind at 1 in Hrun. unfold emit in Hrun. cbn [src dest cap] in Hrun.
      destruct (length d2 <? n2); [|discriminate].
      rewrite copy_cases in Hrun.
      destruct (length _ <? n2); [|discriminate].
      injection Hrun as <-. cbn [src] in Hsrc. subst t. reflexivity. }
    change (c :: b ++ DQUOTE :: r) with ((c :: b) ++ DQUOTE :: r) in Hloop.
    destruct (quotes_escaped DQUOTE (c :: b)) eqn:Hq.
    + split; [reflexivity|].
      destruct (closes (c :: b)) eqn:Hc; [reflexivity|].
      pose proof (skip_json_string_loop_passes (c :: b) _ r _ n st2 Hq Hc
                    Hloop).
      lia.
    + change false with (DQUOTE == BACKSLASH) in Hloop.
      pose proof (skip_json_string_loop_stops_inside (c :: b) DQUOTE _
                    (DQUOTE :: r) _ n st2 Hq Hloop) as H.
      simpl in H. lia.
Qed.

Lemma read_and_replace_json_string_exact b r d n :
  quotes_escaped DQUOTE b = true ->
  closes b = true ->
  length d + length (quoted (mask_body b)) <= n ->
  read_and_replace_json_string (Cursors (quoted b ++ r) d n)
  = Ok (tt, Cursors r (d ++ quoted (mask_body b)) n).
Proof.
  intros Hq Hc Hn. unfold quoted in *. cbn [app]. rewrite <- app_assoc.
  cbn [app]. cbn [length] in Hn. rewrite length_app in Hn. cbn [length] in Hn.
  unfold read_and_replace_json_string.
  erewrite (bind_ok _); [ | apply copy_cons; lia ]. cbv beta.
  destruct b as [|c b].
  - cbn [app mask_body] in *. run_peek. rewrite char_eqb_refl.
    rewrite copy_cons by (rewrite length_app; simpl in *; lia).
    rewrite <- app_assoc. reflexivity.
  - cbn [app mask_body] in *. run_peek.
    assert (Hcq : (c == DQUOTE) = false).
    { cbn [quotes_escaped] in Hq. apply andb_true_iff in Hq.
      destruct Hq as [Hq _]. rewrite orb_false_r in Hq.
      apply char_neqb_true, char_eqb_false in Hq. exact Hq. }
    rewrite Hcq.
    erewrite (bind_ok _).
    2:{ unfold bounded. cbn [src].
        change false with (DQUOTE == BACKSLASH).
        change (c :: b ++ DQUOTE :: r) with ((c :: b) ++ DQUOTE :: r).
        apply skip_json_string_loop_exact; auto.
        rewrite length_app. simpl. lia. }
    cbv beta.
    erewrite (bind_ok _);
      [ | apply emit_ok; rewrite length_app; simpl in *; lia ].
    cbv beta.
    rewrite copy_cons by (rewrite !length_app; simpl in *; lia).
    rewrite <- !app_assoc. reflexivity.
Qed.

(** ** Runs that return before the terminator, replayed over another tail *)

Lemma bind_ok_inv A B (m : M A) (k : A -> M B) st b st'' :
  bind m k st = Ok (b, st'') ->
  exists a st', m st = Ok (a, st') /\ k a st' = Ok (b, st'').
Proof.
  unfold bind. destruct (m st) as [[a st'] | what | | ]; try discriminate.
  intros H. exists a, st'. auto.
Qed.

Lemma bind_throw_inv A B (m : M A) (k : A -> M B) st what :
  bind m k st = Throw what ->
  m st = Throw what
  \/ exists a st', m st = Ok (a, st') /\ k a st' = Throw what.
Proof.
  unfold bind. destruct (m st) as [[a st'] | what' | | ]; try discriminate.
  - intros H. right. exists a, st'. auto.
  - intros H. left. injection H as ->. reflexivity.
Qed.

Lemma nul_free_cons c s :
  nul_free (c :: s) = true -> c <> NUL /\ nul_free s = true.
Proof.
  cbn [nul_free forallb]. intros H. apply andb_true_iff in H.
  destruct H as [Hc Hs]. apply char_neqb_true in Hc. auto.
Qed.

(** The filler scanner. *)
Lemma read_json_filler_loop_moves fuel : forall s d n st',
  nul_free s = true ->
  read_json_filler_loop fuel (Cursors (s ++ [NUL]) d n) = Ok (tt, st') ->
  exists f s',
    s = f ++ s' /\ st' = Cursors (s' ++ [NUL]) (d ++ f) n
    /\ is_filler f = true /\ filler_stops (s' ++ [NUL]) = true.
Proof.
  induction fuel as [|fuel IH]; intros s d n st' Hs Hrun; [discriminate|].
  destruct s as [|a s].
  - cbn [app] in Hrun. rewrite read_json_filler_loop_stops in Hrun
      by reflexivity.
    injection Hrun as <-. exists [], []. cbn [app]. rewrite app_nil_r.
    repeat split.
  - cbn [read_json_filler_loop app] in Hrun.
    rewrite (bind_ok _ (peek_cons _ _ _ _)) in Hrun. cbv beta in Hrun.
    destruct ((a != NUL) && (a != DQUOTE) && (a != LBRACKET)) eqn:Ha.
    + unfold bind at 1 in Hrun. rewrite copy_cases in Hrun.
      destruct (length d <? n); [|discriminate].
      apply nul_free_cons in Hs. destruct Hs as [_ Hs].
      destruct (IH s _ n st' Hs Hrun) as (f & s' & -> & -> & Hf & Hstop).
      exists (a :: f), s'. rewrite <- app_assoc. repeat split; auto.
      cbn [is_filler forallb]. unfold filler_char at 1. rewrite Ha. exact Hf.
    + unfold ret in Hrun. injection Hrun as <-.
      exists [], (a :: s). cbn [app]. rewrite app_nil_r. repeat split.
      cbn [filler_stops]. unfold filler_char. rewrite Ha. reflexivity.
Qed.

Lemma read_json_filler_moves s d n st' :
  nul_free s = true ->
  read_json_filler (Cursors (s ++ [NUL]) d n) = Ok (tt, st') ->
  exists f s',
    s = f ++ s' /\ st' = Cursors (s' ++ [NUL]) (d ++ f) n
    /\ is_filler f = true /\ filler_stops (s' ++ [NUL]) = true.
Proof. unfold read_json_filler, bounded. apply read_json_filler_loop_moves. Qed.

(** The body loops of the string readers. *)
Lemma read_json_string_loop_moves fuel : forall escaped s d n st',
  nul_free s = true ->
  read_json_string_loop fuel escaped (Cursors (s ++ [NUL]) d n)
  = Ok (tt, st') ->
  exists c s',
    s = c ++ DQUOTE :: s' /\ st' = Cursors (DQUOTE :: s' ++ [NUL]) (d ++ c) n
    /\ forall t p n' fuel',
         length p + length d + length c <= n' ->
         length c < fuel' ->
         read_json_string_loop fuel' escaped (Cursors (s ++ t) (p ++ d) n')
         = Ok (tt, Cursors (DQUOTE :: s' ++ t) (p ++ d ++ c) n').
Proof.
  induction fuel as [|fuel IH]; intros escaped s d n st' Hs Hrun;
    [discriminate|].
  cbn [read_json_string_loop] in Hrun.
  destruct s as [|a s].
  - exfalso. cbn [app] in Hrun.
    rewrite (bind_ok _ (peek_cons _ _ _ _)) in Hrun. cbv beta in Hrun.
    change (NUL != DQUOTE) with true in Hrun. cbn [orb] in Hrun.
    unfold bind at 1 in Hrun. rewrite copy_cases in Hrun.
    destruct (length d <? n); [|discriminate].
    destruct fuel; discriminate.
  - cbn [app] in Hrun.
    rewrite (bind_ok _ (peek_cons _ _ _ _)) in Hrun. cbv beta in Hrun.
    destruct ((a != DQUOTE) || escaped) eqn:Ha.
    + unfold bind at 1 in Hrun. rewrite copy_cases in Hrun.
      destruct (length d <? n); [|discriminate].
      apply nul_free_cons in Hs. destruct Hs as [_ Hs].
      destruct (IH _ s _ n st' Hs Hrun) as (c & s' & -> & -> & Hany).
      exists (a :: c), s'. rewrite <- app_assoc. repeat split; auto.
      intros t p n' fuel' Hn Hfuel.
      destruct fuel' as [|fuel']; [simpl in Hfuel; lia|].
      cbn [read_json_string_loop app]. run_peek. rewrite Ha.
      erewrite (bind_ok _);
        [ | apply copy_cons; rewrite length_app; simpl in Hn; lia ].
      cbv beta.
      specialize (Hany t p n' fuel').
      rewrite <- !app_assoc in *. cbn [app] in *.
      apply Hany; simpl in *; rewrite ?length_app in *; simpl in *; lia.
    + unfold ret in Hrun. injection Hrun as <-.
      apply orb_false_iff in Ha. destruct Ha as [Ha He].
      apply char_neqb_false in Ha. subst a.
      exists [], s. rewrite !app_nil_r. repeat split.
      intros t p n' fuel' Hn Hfuel.
      destruct fuel' as [|fuel']; [simpl in Hfuel; lia|].
      cbn [read_json_string_loop app]. run_peek.
      rewrite He, char_neqb_refl. reflexivity.
Qed.

Lemma skip_json_string_loop_moves fuel : forall escaped s d n st',
  nul_free s = true ->
  skip_json_string_loop fuel escaped (Cursors (s ++ [NUL]) d n)
  = Ok (tt, st') ->
  exists c s',
    s = c ++ DQUOTE :: s' /\ st' = Cursors (DQUOTE :: s' ++ [NUL]) d n
    /\ (forall a r, s = a :: r -> (a != DQUOTE) || escaped = true ->
        1 <= length c)
    /\ forall t d' n' fuel',
         length c < fuel' ->
         skip_json_string_loop fuel' escaped (Cursors (s ++ t) d' n')
         = Ok (tt, Cursors (DQUOTE :: s' ++ t) d' n').
Proof.
  induction fuel as [|fuel IH]; intros escaped s d n st' Hs Hrun;
    [discriminate|].
  cbn [skip_json_string_loop] in Hrun.
  destruct s as [|a s].
  - exfalso. cbn [app] in Hrun.
    rewrite (bind_ok _ (peek_cons _ _ _ _)) in Hrun. cbv beta in Hrun.
    change (NUL != DQUOTE) with true in Hrun. cbn [orb] in Hrun.
    rewrite (bind_ok _ (skip_cons _ _ _ _)) in Hrun.
    destruct fuel; discriminate.
  - cbn [app] in Hrun.
    rewrite (bind_ok _ (peek_cons _ _ _ _)) in Hrun. cbv beta in Hrun.
    destruct ((a != DQUOTE) || escaped) eqn:Ha.
    + rewrite (bind_ok _ (skip_cons _ _ _ _)) in Hrun.
      apply nul_free_cons in Hs. destruct Hs as [_ Hs].
      destruct (IH _ s _ n st' Hs Hrun) as (c & s' & -> & -> & _ & Hany).
      exists (a :: c), s'. repeat split; auto.
      * intros; simpl; lia.
      * intros t d' n' fuel' Hfuel.
        destruct fuel' as [|fuel']; [simpl in Hfuel; lia|].
        cbn [skip_json_string_loop app]. run_peek. rewrite Ha. run_skip.
        apply Hany. simpl in Hfuel. lia.
    + unfold ret in Hrun. injection Hrun as <-.
      pose proof Ha as Ha'.
      apply orb_false_iff in Ha. destruct Ha as [Ha He].
      apply char_neqb_false in Ha. subst a.
      exists [], s. repeat split.
      * intros a r Heq Hc. injection Heq as <- _. rewrite Ha' in Hc.
        discriminate.
      * intros t d' n' fuel' Hfuel.
        destruct fuel' as [|fuel']; [simpl in Hfuel; lia|].
        cbn [skip_json_string_loop app]. run_peek. rewrite Ha'. reflexivity.
Qed.

Lemma read_json_string_moves s d n st' :
  nul_free s = true ->
  read_json_string (Cursors (s ++ [NUL]) d n) = Ok (tt, st') ->
  replays read_json_string s d n st'.
Proof.
  intros Hs Hrun. unfold read_json_string in Hrun.
  destruct s as [|a s].
  - exfalso. cbn [app] in Hrun. unfold bind at 1 in Hrun.
    rewrite copy_cases in Hrun. destruct (length d <? n); [|discriminate].
    discriminate.
  - cbn [app] in Hrun. unfold bind at 1 in Hrun.
    rewrite copy_cases in Hrun. destruct (length d <? n); [|discriminate].
    apply bind_ok_inv in Hrun. destruct Hrun as ([] & st2 & Hloop & Hrun).
    unfold bounded in Hloop. cbn [src] in Hloop.
    apply nul_free_cons in Hs. destruct Hs as [Ha0 Hs].
    apply char_neqb_true in Ha0.
    destruct (read_json_string_loop_moves _ _ s _ n st2 Hs Hloop)
      as (c & s' & -> & -> & Hany).
    rewrite copy_cases in Hrun.
    destruct (length _ <? n); [|discriminate].
    injection Hrun as <-.
    exists (a :: c ++ [DQUOTE]), (a :: c ++ [DQUOTE]), s'.
    rewrite <- !app_assoc. cbn [app].
    split; [rewrite <- app_assoc; reflexivity|].
    split; [reflexivity|].
    split; [lia|].
    split; [simpl; rewrite length_app; simpl; lia|].
    split.
    { rewrite nul_free_app in Hs. apply andb_true_iff in Hs.
      destruct Hs as [Hc _]. unfold nul_free in *. cbn [forallb].
      rewrite forallb_app, Ha0, Hc. reflexivity. }
    intros t p n' Hn. cbn [length] in Hn. rewrite length_app in Hn.
    cbn [length] in Hn.
    unfold read_json_string.
    erewrite (bind_ok _); [ | apply copy_cons; rewrite length_app; lia ].
    cbv beta.
    erewrite (bind_ok _).
    2:{ unfold bounded. cbn [src].
        specialize (Hany t p n' (S (length (c ++ DQUOTE :: s' ++ t)))).
        replace ((p ++ d) ++ [a]) with (p ++ d ++ [a])
          by (rewrite <- app_assoc; reflexivity).
        rewrite <- app_assoc in Hany |- *. cbn [app] in Hany |- *.
        apply Hany.
        - rewrite length_app. simpl. lia.
        - rewrite length_app. simpl. lia. }
    cbv beta.
    rewrite copy_cons by (rewrite !length_app; simpl; lia).
    rewrite <- !app_assoc. reflexivity.
Qed.

Lemma read_and_replace_json_string_moves s d n st' :
  nul_free s = true ->
  read_and_replace_json_string (Cursors (s ++ [NUL]) d n) = Ok (tt, st') ->
  replays read_and_replace_json_string s d n st'.
Proof.
  intros Hs Hrun. unfold read_and_replace_json_string in Hrun.
  destruct s as [|a s].
  - exfalso. cbn [app] in Hrun. unfold bind at 1 in Hrun.
    rewrite copy_cases in Hrun. destruct (length d <? n); [|discriminate].
    discriminate.
  - cbn [app] in Hrun. unfold bind at 1 in Hrun.
    rewrite copy_cases in Hrun. destruct (length d <? n); [|discriminate].
    apply nul_free_cons in Hs. destruct Hs as [Ha0 Hs].
    apply char_neqb_true in Ha0.
    destruct s as [|b s].
    + exfalso. cbn [app] in Hrun.
      rewrite (bind_ok _ (peek_cons _ _ _ _)) in Hrun. cbv beta in Hrun.
      change (NUL == DQUOTE) with false in Hrun. cbv iota in Hrun.
      unfold bind at 1 in Hrun. unfold bounded in Hrun. cbn [src] in Hrun.
      cbn in Hrun. discriminate.
    + cbn [app] in Hrun.
      rewrite (bind_ok _ (peek_cons _ _ _ _)) in Hrun. cbv beta in Hrun.
      destruct (b == DQUOTE) eqn:Hb.
      * rewrite copy_cases in Hrun.
        destruct (length _ <? n); [|discriminate].
        injection Hrun as <-.
        exists [a; b], [a; b], s. rewrite <- !app_assoc. cbn [app].
        split; [reflexivity|]. split; [reflexivity|].
        split; [simpl; lia|]. split; [simpl; lia|].
        split.
        { apply nul_free_cons in Hs. destruct Hs as [Hb0 _].
          apply char_neqb_true in Hb0. cbn [nul_free forallb].
          rewrite Ha0, Hb0. reflexivity. }
        intros t p n' Hn. simpl in Hn.
        unfold read_and_replace_json_string.
        erewrite (bind_ok _); [ | apply copy_cons; rewrite length_app; lia ].
        cbv beta. run_peek. rewrite Hb.
        rewrite copy_cons by (rewrite !length_app; simpl; lia).
        rewrite <- !app_assoc. reflexivity.
      * apply bind_ok_inv in Hrun. destruct Hrun as ([] & st2 & Hloop & Hrun).
        unfold bounded in Hloop. cbn [src] in Hloop.
        change (b :: s ++ [NUL]) with ((b :: s) ++ [NUL]) in Hloop.
        destruct (skip_json_string_loop_moves _ _ (b :: s) _ n st2 Hs Hloop)
          as (c & s' & Heq & -> & Hone & Hany).
        specialize (Hone b s eq_refl).
        unfold char_neqb in Hone. rewrite Hb in Hone. specialize (Hone eq_refl).
        apply bind_ok_inv in Hrun. destruct Hrun as ([] & st3 & Hemit & Hrun).
        unfold emit in Hemit. cbn [src dest cap] in Hemit.
        destruct (length _ <? n); [|discriminate].
        injection Hemit as <-.
        rewrite copy_cases in Hrun.
        destruct (length _ <? n); [|discriminate].
        injection Hrun as <-.
        exists (a :: c ++ [DQUOTE]), [a; REPLACE_CHAR; DQUOTE], s'.
        split; [cbn [app]; rewrite Heq, <- app_assoc; reflexivity|].
        split; [rewrite <- !app_assoc; reflexivity|].
        split; [simpl; rewrite length_app; simpl; lia|].
        split; [simpl; rewrite length_app; simpl; lia|].
        split; [cbn [nul_free forallb]; rewrite Ha0; reflexivity|].
        intros t p n' Hn. simpl in Hn.
        unfold read_and_replace_json_string. cbn [app].
        erewrite (bind_ok _); [ | apply copy_cons; rewrite length_app; lia ].
        cbv beta. run_peek. rewrite Hb.
        erewrite (bind_ok _).
        2:{ unfold bounded. cbn [src].
            change (b :: s ++ t) with ((b :: s) ++ t).
            apply Hany.
            rewrite length_app, Heq, length_app. simpl. lia. }
        cbv beta.
        erewrite (bind_ok _);
          [ | apply emit_ok; rewrite !length_app; simpl; lia ].
        cbv beta.
        rewrite copy_cons by (rewrite !length_app; simpl; lia).
        rewrite <- !app_assoc. reflexivity.
Qed.

Lemma read_string_as_moves (replace : bool) s d n st' :
  nul_free s = true ->
  (if replace return M unit
   then read_and_replace_json_string else read_json_string)
    (Cursors (s ++ [NUL]) d n) = Ok (tt, st') ->
  replays (if replace return M unit
           then read_and_replace_json_string else read_json_string)
          s d n st'.
Proof.
  destruct replace.
  - apply read_and_replace_json_string_moves.
  - apply read_json_string_moves.
Qed.

Lemma read_json_array_loop_moves fuel : forall replace s d n st',
  nul_free s = true ->
  read_json_array_loop fuel replace (Cursors (s ++ [NUL]) d n) = Ok (tt, st') ->
  exists c w s',
    s = c ++ RBRACKET :: s'
    /\ st' = Cursors (RBRACKET :: s' ++ [NUL]) (d ++ w) n
    /\ length w <= length c /\ nul_free w = true
    /\ forall t p n' fuel',
         length p + length d + length w <= n' ->
         length c < fuel' ->
         read_json_array_loop fuel' replace (Cursors (s ++ t) (p ++ d) n')
         = Ok (tt, Cursors (RBRACKET :: s' ++ t) (p ++ d ++ w) n').
Proof.
  induction fuel as [|fuel IH]; intros replace s d n st' Hs Hrun;
    [discriminate|].
  cbn [read_json_array_loop] in Hrun.
  destruct s as [|a s].
  - exfalso. cbn [app] in Hrun.
    rewrite (bind_ok _ (peek_cons _ _ _ _)) in Hrun. cbv beta in Hrun.
    change (NUL != RBRACKET) with true in Hrun.
    change (NUL == DQUOTE) with false in Hrun. cbv iota in Hrun.
    unfold bind at 1 in Hrun. rewrite copy_cases in Hrun.
    destruct (length d <? n); [|discriminate].
    destruct fuel; discriminate.
  - change ((a :: s) ++ [NUL]) with (a :: s ++ [NUL]) in Hrun.
    rewrite (bind_ok _ (peek_cons _ _ _ _)) in Hrun. cbv beta in Hrun.
    destruct (a != RBRACKET) eqn:Ha.
    + apply bind_ok_inv in Hrun. destruct Hrun as ([] & st2 & Hstep & Hrun).
      assert (Hone : exists c1 w1 s2,
        a :: s = c1 ++ s2 /\ st2 = Cursors (s2 ++ [NUL]) (d ++ w1) n
        /\ length w1 <= length c1 /\ 1 <= length c1 /\ nul_free w1 = true
        /\ forall t p n',
             length p + length d + length w1 <= n' ->
             (if a == DQUOTE
              then (if replace return M unit
                    then read_and_replace_json_string else read_json_string)
              else copy) (Cursors ((a :: s) ++ t) (p ++ d) n')
             = Ok (tt, Cursors (s2 ++ t) (p ++ d ++ w1) n')).
      { destruct (a == DQUOTE).
        - change (a :: s ++ [NUL]) with ((a :: s) ++ [NUL]) in Hstep.
          destruct (read_string_as_moves replace (a :: s) d n st2 Hs Hstep)
            as (c1 & w1 & s2 & Heq & -> & Hw & Hc & Hz & Hany).
          exists c1, w1, s2. repeat split; auto. lia.
        - rewrite copy_cases in Hstep.
          destruct (length d <? n); [|discriminate].
          injection Hstep as <-.
          exists [a], [a], s. repeat split; auto.
          { apply nul_free_cons in Hs. destruct Hs as [Hz _].
            apply char_neqb_true in Hz. cbn [nul_free forallb].
            rewrite Hz. reflexivity. }
          intros t p n' Hn. cbn [app]. rewrite copy_cons.
          + rewrite <- app_assoc. reflexivity.
          + rewrite length_app. simpl in Hn. lia. }
      destruct Hone as (c1 & w1 & s2 & Heq & -> & Hw1 & Hc1 & Hz1 & Hany1).
      assert (Hs2 : nul_free s2 = true).
      { rewrite Heq, nul_free_app in Hs. apply andb_true_iff in Hs. tauto. }
      destruct (IH replace s2 _ n st' Hs2 Hrun)
        as (c2 & w2 & s' & -> & -> & Hw2 & Hz2 & Hany2).
      exists (c1 ++ c2), (w1 ++ w2), s'.
      split; [rewrite Heq, <- app_assoc; reflexivity|].
      split; [rewrite <- app_assoc; reflexivity|].
      split; [rewrite !length_app; lia|].
      split; [rewrite nul_free_app, Hz1, Hz2; reflexivity|].
      intros t p n' fuel' Hn Hfuel. rewrite !length_app in Hn, Hfuel.
      destruct fuel' as [|fuel']; [lia|].
      cbn [read_json_array_loop].
      change ((a :: s) ++ t) with (a :: s ++ t).
      run_peek. rewrite Ha.
      erewrite (bind_ok _).
      2:{ change (a :: s ++ t) with ((a :: s) ++ t). apply Hany1. lia. }
      cbv beta.
      rewrite Hany2 by (rewrite ?length_app; lia).
      rewrite <- !app_assoc. reflexivity.
    + unfold ret in Hrun. injection Hrun as <-.
      apply char_neqb_false in Ha. subst a.
      exists [], [], s. cbn [app]. rewrite app_nil_r.
      split; [reflexivity|]. split; [reflexivity|].
      split; [simpl; lia|]. split; [reflexivity|].
      intros t p n' fuel' Hn Hfuel.
      destruct fuel' as [|fuel']; [simpl in Hfuel; lia|].
      cbn [read_json_array_loop app]. run_peek.
      rewrite char_neqb_refl. reflexivity.
Qed.

Lemma read_json_value_moves replace s d n st' :
  nul_free s = true ->
  read_json_value replace (Cursors (s ++ [NUL]) d n) = Ok (tt, st') ->
  replays (read_json_value replace) s d n st'.
Proof.
  intros Hs Hrun. unfold read_json_value in Hrun.
  destruct s as [|a s]; [discriminate|].
  change ((a :: s) ++ [NUL]) with (a :: s ++ [NUL]) in Hrun.
  rewrite (bind_ok _ (peek_cons _ _ _ _)) in Hrun. cbv beta in Hrun.
  destruct (a == DQUOTE) eqn:Hq; [|destruct (a == LBRACKET) eqn:Hb].
  - change (a :: s ++ [NUL]) with ((a :: s) ++ [NUL]) in Hrun.
    destruct (read_string_as_moves replace (a :: s) d n st' Hs Hrun)
      as (c & w & s' & Heq & -> & Hw & Hc & Hz & Hany).
    exists c, w, s'. repeat split; auto.
    intros t p n' Hn. unfold read_json_value.
    change ((a :: s) ++ t) with (a :: s ++ t).
    run_peek. rewrite Hq. apply Hany. exact Hn.
  - unfold bind at 1 in Hrun. rewrite copy_cases in Hrun.
    destruct (length d <? n); [|discriminate].
    apply bind_ok_inv in Hrun. destruct Hrun as ([] & st2 & Hloop & Hrun).
    unfold bounded in Hloop. cbn [src] in Hloop.
    apply nul_free_cons in Hs. destruct Hs as [Ha0 Hs].
    apply char_neqb_true in Ha0.
    destruct (read_json_array_loop_moves _ replace s _ n st2 Hs Hloop)
      as (c & w & s' & Heq & -> & Hw & Hz & Hany).
    rewrite copy_cases in Hrun.
    destruct (length _ <? n); [|discriminate].
    injection Hrun as <-.
    exists (a :: c ++ [RBRACKET]), (a :: w ++ [RBRACKET]), s'.
    split; [cbn [app]; rewrite Heq, <- app_assoc; reflexivity|].
    split; [rewrite <- !app_assoc; reflexivity|].
    split; [simpl; rewrite !length_app; simpl; lia|].
    split; [simpl; rewrite length_app; simpl; lia|].
    split.
    { cbn [nul_free forallb]. rewrite forallb_app, Ha0. cbn [andb].
      fold (nul_free w). rewrite Hz. reflexivity. }
    intros t p n' Hn. cbn [length] in Hn. rewrite length_app in Hn.
    cbn [length] in Hn.
    unfold read_json_value. cbn [app]. run_peek. rewrite Hq, Hb.
    erewrite (bind_ok _); [ | apply copy_cons; rewrite length_app; lia ].
    cbv beta.
    erewrite (bind_ok _).
    2:{ unfold bounded. cbn [src].
        replace ((p ++ d) ++ [a]) with (p ++ d ++ [a])
          by (rewrite <- app_assoc; reflexivity).
        apply Hany.
        - rewrite length_app. simpl. lia.
        - rewrite length_app, Heq, length_app. simpl. lia. }
    cbv beta.
    rewrite copy_cons by (rewrite !length_app; simpl; lia).
    rewrite <- !app_assoc. reflexivity.
  - discriminate.
Qed.

(** The value reader throws on the byte under the cursor alone. *)
Lemma read_json_value_throws_moves replace a s d n what :
  read_json_value replace (Cursors (a :: s) d n) = Throw what ->
  forall s' d' n',
    read_json_value replace (Cursors (a :: s') d' n') = Throw what.
Proof.
  intros Hrun s' d' n'.
  pose proof (run_read_json_value replace (Cursors (a :: s) d n)) as H.
  unfold run in H. rewrite Hrun in H. cbn [src] in H.
  destruct (H s) as [Hq Hb].
  assert (Haq : (a == DQUOTE) = false).
  { apply char_eqb_false. intros ->. apply Hq. reflexivity. }
  assert (Hab : (a == LBRACKET) = false).
  { apply char_eqb_false. intros ->. apply Hb. reflexivity. }
  unfold read_json_value in Hrun |- *.
  rewrite (bind_ok _ (peek_cons _ _ _ _)) in Hrun. run_peek.
  rewrite Haq, Hab in Hrun |- *. exact Hrun.
Qed.

Lemma filler_stops_app s t :
  s <> [] -> filler_stops (s ++ [NUL]) = true -> filler_stops (s ++ t) = true.
Proof. destruct s as [|c s]; [congruence|]. intros _ H. exact H. Qed.

(** ** The driver loop, replayed over another tail *)

Lemma json_replace_loop_moves fuel : forall s d n st',
  s <> [] ->
  nul_free s = true ->
  json_replace_loop fuel (strlen ESCAPED_TARGET_SUFFIX)
    (Cursors (s ++ [NUL]) d n) = Ok (tt, st') ->
  exists w,
    st' = Cursors [NUL] (d ++ w) n /\ length w <= length s
    /\ nul_free w = true
    /\ forall t te wt room budget,
         resumes t te wt room budget ->
         forall p n' fuel',
           length p + length d + length s + room <= n' ->
           length s + budget < fuel' ->
           json_replace_loop fuel' (strlen ESCAPED_TARGET_SUFFIX)
             (Cursors (s ++ t) (p ++ d) n')
           = Ok (tt, Cursors te (p ++ d ++ w ++ wt) n').
Proof.
  induction fuel as [|fuel IH]; intros s d n st' Hne Hs Hrun; [discriminate|].
  destruct s as [|a0 s0]; [congruence|].
  set (s := a0 :: s0) in *.
  assert (Ha0 : (a0 != NUL) = true).
  { apply nul_free_cons in Hs. apply char_neqb_true. tauto. }
  rewrite json_replace_loop_enters in Hrun by exact Ha0.
  (* the filler before the key *)
  apply bind_ok_inv in Hrun. destruct Hrun as ([] & st1 & H1 & Hrun).
  destruct (read_json_filler_moves s d n st1 Hs H1)
    as (f1 & s1 & Hs1 & -> & Hf1 & Hstop1).
  assert (Hn1 : nul_free s1 = true).
  { rewrite Hs1, nul_free_app in Hs. apply andb_true_iff in Hs. tauto. }
  (* the key *)
  unfold dest_pos at 1 in Hrun. unfold bind at 1 in Hrun. cbn [dest] in Hrun.
  apply bind_ok_inv in Hrun. destruct Hrun as ([] & st2 & H2 & Hrun).
  destruct (read_json_string_moves s1 _ n st2 Hn1 H2)
    as (c2 & w2 & s2 & Hs2 & -> & Hw2 & Hc2 & Hz2 & Hany2).
  assert (Hn2 : nul_free s2 = true).
  { rewrite Hs2, nul_free_app in Hn1. apply andb_true_iff in Hn1. tauto. }
  assert (Hne1 : s1 <> []).
  { intros ->. destruct c2; simpl in *; [lia | discriminate]. }
  (* the replace decision *)
  rewrite (bind_ok _ (key_is_target_decides (d ++ f1) w2 _ n)) in Hrun.
  (* the filler before the value *)
  apply bind_ok_inv in Hrun. destruct Hrun as ([] & st3 & H3 & Hrun).
  destruct (read_json_filler_moves s2 _ n st3 Hn2 H3)
    as (f3 & s3 & Hs3 & -> & Hf3 & Hstop3).
  assert (Hn3 : nul_free s3 = true).
  { rewrite Hs3, nul_free_app in Hn2. apply andb_true_iff in Hn2. tauto. }
  (* the value *)
  apply bind_ok_inv in Hrun. destruct Hrun as ([] & st4 & H4 & Hrun).
  destruct (read_json_value_moves _ s3 _ n st4 Hn3 H4)
    as (c4 & w4 & s4 & Hs4 & -> & Hw4 & Hc4 & Hz4 & Hany4).
  assert (Hn4 : nul_free s4 = true).
  { rewrite Hs4, nul_free_app in Hn3. apply andb_true_iff in Hn3. tauto. }
  assert (Hne3 : s3 <> []).
  { intros ->. destruct c4; simpl in *; [lia | discriminate]. }
  (* the filler after the value *)
  apply bind_ok_inv in Hrun. destruct Hrun as ([] & st5 & H5 & Hrun).
  destruct (read_json_filler_moves s4 _ n st5 Hn4 H5)
    as (f5 & s5 & Hs5 & -> & Hf5 & Hstop5).
  assert (Hn5 : nul_free s5 = true).
  { rewrite Hs5, nul_free_app in Hn4. apply andb_true_iff in Hn4. tauto. }
  assert (Hlen : length s
                 = length f1 + length c2 + length f3 + length c4
                   + length f5 + length s5).
  { rewrite Hs1, Hs2, Hs3, Hs4, Hs5, !length_app. lia. }
  (* the replay of the first four steps *)
  assert (Hhead : forall (k : M unit) p n' tl,
    length p + length d + length f1 + length w2 + length f3 + length w4 <= n' ->
    (read_json_filler ;;
     temp <- dest_pos ;;
     read_json_string ;;
     replace <- key_is_target temp (strlen ESCAPED_TARGET_SUFFIX) ;;
     read_json_filler ;;
     read_json_value replace ;;
     k) (Cursors (s ++ tl) (p ++ d) n')
    = k (Cursors (s4 ++ tl) (p ++ d ++ f1 ++ w2 ++ f3 ++ w4) n')).
  { intros k p n' tl Hn.
    rewrite Hs1, <- app_assoc.
    erewrite (bind_ok _).
    2:{ apply read_json_filler_exact; auto.
        - apply filler_stops_app; assumption.
        - rewrite length_app. lia. }
    cbv beta. unfold dest_pos at 1. unfold bind at 1. cbn [dest].
    erewrite (bind_ok _).
    2:{ replace ((p ++ d) ++ f1) with (p ++ d ++ f1)
          by (rewrite <- app_assoc; reflexivity).
        apply Hany2. rewrite length_app. lia. }
    cbv beta.
    replace (p ++ (d ++ f1) ++ w2) with ((p ++ d ++ f1) ++ w2)
      by (rewrite <- !app_assoc; reflexivity).
    replace (length ((p ++ d) ++ f1)) with (length (p ++ d ++ f1))
      by (rewrite <- app_assoc; reflexivity).
    rewrite (bind_ok _ (key_is_target_decides (p ++ d ++ f1) w2 _ n')).
    rewrite Hs3, <- app_assoc.
    erewrite (bind_ok _).
    2:{ apply read_json_filler_exact; auto.
        - apply filler_stops_app; assumption.
        - rewrite !length_app. lia. }
    cbv beta.
    erewrite (bind_ok _).
    2:{ replace (((p ++ d ++ f1) ++ w2) ++ f3)
          with (p ++ ((d ++ f1) ++ w2) ++ f3)
          by (rewrite <- !app_assoc; reflexivity).
        apply Hany4. rewrite !length_app. lia. }
    cbv beta. rewrite <- !app_assoc. reflexivity. }
  destruct s5 as [|a5 s5'].
  - (* the driver loop ends here *)
    cbn [app] in Hrun.
    destruct fuel as [|fuel]; [discriminate|].
    rewrite json_replace_loop_stops in Hrun. injection Hrun as <-.
    exists (f1 ++ w2 ++ f3 ++ w4 ++ f5).
    split; [rewrite <- !app_assoc; reflexivity|].
    split; [rewrite !length_app; cbn [length] in Hlen; lia|].
    split.
    { rewrite !nul_free_app, Hz2, Hz4, (nul_free_filler f1 Hf1),
        (nul_free_filler f3 Hf3), (nul_free_filler f5 Hf5). reflexivity. }
    intros t te wt room budget HT p n' fuel' Hn Hfuel.
    destruct fuel' as [|fuel']; [lia|].
    rewrite json_replace_loop_enters by exact Ha0.
    rewrite Hhead by lia.
    rewrite Hs5, app_nil_r.
    rewrite HT; auto.
    + rewrite <- !app_assoc. reflexivity.
    + rewrite !length_app. cbn [length] in Hlen. lia.
    + cbn [length] in Hlen. lia.
  - destruct (IH (a5 :: s5') _ n st' ltac:(discriminate) Hn5 Hrun)
      as (w & -> & Hw & Hz & Hany).
    exists (f1 ++ w2 ++ f3 ++ w4 ++ f5 ++ w).
    split; [rewrite <- !app_assoc; reflexivity|].
    split; [rewrite !length_app; lia|].
    split.
    { rewrite !nul_free_app, Hz2, Hz4, Hz, (nul_free_filler f1 Hf1),
        (nul_free_filler f3 Hf3), (nul_free_filler f5 Hf5). reflexivity. }
    intros t te wt room budget HT p n' fuel' Hn Hfuel.
    destruct fuel' as [|fuel']; [lia|].
    rewrite json_replace_loop_enters by exact Ha0.
    rewrite Hhead by lia.
    rewrite Hs5, <- app_assoc.
    erewrite (bind_ok _).
    2:{ apply read_json_filler_exact;
          [ assumption
          | apply filler_stops_app; [discriminate | assumption]
          | rewrite !length_app; lia ]. }
    cbv beta.
    replace ((p ++ d ++ f1 ++ w2 ++ f3 ++ w4) ++ f5)
      with (p ++ ((((d ++ f1) ++ w2) ++ f3) ++ w4) ++ f5)
      by (rewrite <- !app_assoc; reflexivity).
    rewrite (Hany t te wt room budget HT)
      by (rewrite ?length_app in *; lia).
    rewrite <- !app_assoc. reflexivity.
Qed.

Lemma filler_stops_nul s t :
  filler_stops (s ++ [NUL]) = true -> filler_stops (s ++ NUL :: t) = true.
Proof. destruct s; intros H; [reflexivity | exact H]. Qed.

Lemma json_replace_loop_at_nul fuel m t d n :
  json_replace_loop (S fuel) m (Cursors (NUL :: t) d n)
  = Ok (tt, Cursors (NUL :: t) d n).
Proof. reflexivity. Qed.

Lemma resumes_at_nul t : resumes (NUL :: t) (NUL :: t) [] 0 0.
Proof.
  intros f P n' fuel' Hf Hn Hfuel.
  erewrite (bind_ok _).
  2:{ apply read_json_filler_exact; [exact Hf | reflexivity | lia]. }
  cbv beta. destruct fuel' as [|fuel']; [lia|].
  rewrite json_replace_loop_at_nul, app_nil_r. reflexivity.
Qed.

Lemma read_json_filler_no_throw st what : read_json_filler st <> Throw what.
Proof.
  intros H. pose proof (run_read_json_filler st) as R.
  unfold run in R. rewrite H in R. exact R.
Qed.

Lemma read_json_string_no_throw st what : read_json_string st <> Throw what.
Proof.
  intros H. pose proof (run_read_json_string st) as R.
  unfold run in R. rewrite H in R. exact R.
Qed.

Lemma read_json_string_ends_quoted s d n c s' w :
  read_json_string (Cursors (s ++ [NUL]) d n)
  = Ok (tt, Cursors (s' ++ [NUL]) w n) ->
  s = c ++ s' ->
  exists c0, c = c0 ++ [DQUOTE].
Proof.
  intros Hrun Heq.
  destruct (run_returns (run_read_json_string_quote _) Hrun)
    as (c1 & w1 & (_ & Hs & _) & c0 & ->).
  cbn [src] in Hs. exists c0.
  rewrite Heq, <- app_assoc in Hs.
  assert (Hl : length c = length (c0 ++ [DQUOTE])).
  { apply (f_equal (@length char)) in Hs. rewrite !length_app in Hs.
    rewrite !length_app. simpl in *. lia. }
  apply (f_equal (firstn (length c))) in Hs.
  rewrite firstn_app, Nat.sub_diag, firstn_all, firstn_O, app_nil_r in Hs.
  rewrite Hl in Hs.
  rewrite firstn_app, Nat.sub_diag, firstn_all, firstn_O, app_nil_r in Hs.
  exact Hs.
Qed.

(** When the driver loop throws, the input ends in a double quote and
    filler; and it throws whatever lies behind the terminator. *)
Lemma json_replace_loop_throws_moves fuel : forall s d n what,
  nul_free s = true ->
  json_replace_loop fuel (strlen ESCAPED_TARGET_SUFFIX)
    (Cursors (s ++ [NUL]) d n) = Throw what ->
  (exists pre f, s = pre ++ DQUOTE :: f /\ is_filler f = true)
  /\ forall t p n' fuel',
       length p + length d + length s <= n' ->
       length s < fuel' ->
       json_replace_loop fuel' (strlen ESCAPED_TARGET_SUFFIX)
         (Cursors (s ++ NUL :: t) (p ++ d) n')
       = Throw what.
Proof.
  induction fuel as [|fuel IH]; intros s d n what Hs Hrun; [discriminate|].
  destruct s as [|a0 s0]; [discriminate|].
  set (s := a0 :: s0) in *.
  assert (Ha0 : (a0 != NUL) = true).
  { apply nul_free_cons in Hs. apply char_neqb_true. tauto. }
  rewrite json_replace_loop_enters in Hrun by exact Ha0.
  (* the filler before the key *)
  apply bind_throw_inv in Hrun.
  destruct Hrun as [H1 | ([] & st1 & H1 & Hrun)];
    [apply read_json_filler_no_throw in H1; contradiction|].
  destruct (read_json_filler_moves s d n st1 Hs H1)
    as (f1 & s1 & Hs1 & -> & Hf1 & Hstop1).
  assert (Hn1 : nul_free s1 = true).
  { rewrite Hs1, nul_free_app in Hs. apply andb_true_iff in Hs. tauto. }
  (* the key *)
  unfold dest_pos at 1 in Hrun. unfold bind at 1 in Hrun. cbn [dest] in Hrun.
  apply bind_throw_inv in Hrun.
  destruct Hrun as [H2 | ([] & st2 & H2 & Hrun)];
    [apply read_json_string_no_throw in H2; contradiction|].
  destruct (read_json_string_moves s1 _ n st2 Hn1 H2)
    as (c2 & w2 & s2 & Hs2 & -> & Hw2 & Hc2 & Hz2 & Hany2).
  destruct (read_json_string_ends_quoted _ _ _ c2 _ _ H2 Hs2) as [c0 Hc0].
  assert (Hn2 : nul_free s2 = true).
  { rewrite Hs2, nul_free_app in Hn1. apply andb_true_iff in Hn1. tauto. }
  assert (Hne1 : s1 <> []).
  { intros ->. destruct c2; simpl in *; [lia | discriminate]. }
  (* the replace decision *)
  rewrite (bind_ok _ (key_is_target_decides (d ++ f1) w2 _ n)) in Hrun.
  (* the filler before the value *)
  apply bind_throw_inv in Hrun.
  destruct Hrun as [H3 | ([] & st3 & H3 & Hrun)];
    [apply read_json_filler_no_throw in H3; contradiction|].
  destruct (read_json_filler_moves s2 _ n st3 Hn2 H3)
    as (f3 & s3 & Hs3 & -> & Hf3 & Hstop3).
  assert (Hn3 : nul_free s3 = true).
  { rewrite Hs3, nul_free_app in Hn2. apply andb_true_iff in Hn2. tauto. }
  (* the replay up to the value *)
  assert (Hhead : forall (k : bool -> M unit) t p n',
    length p + length d + length f1 + length w2 + length f3 <= n' ->
    (read_json_filler ;;
     temp <- dest_pos ;;
     read_json_string ;;
     replace <- key_is_target temp (strlen ESCAPED_TARGET_SUFFIX) ;;
     read_json_filler ;;
     k replace) (Cursors (s ++ NUL :: t) (p ++ d) n')
    = k (span_is_target w2)
        (Cursors (s3 ++ NUL :: t) (p ++ d ++ f1 ++ w2 ++ f3) n')).
  { intros k t p n' Hn.
    rewrite Hs1, <- app_assoc.
    erewrite (bind_ok _).
    2:{ apply read_json_filler_exact; auto.
        - apply filler_stops_nul; assumption.
        - rewrite length_app. lia. }
    cbv beta. unfold dest_pos at 1. unfold bind at 1. cbn [dest].
    erewrite (bind_ok _).
    2:{ replace ((p ++ d) ++ f1) with (p ++ d ++ f1)
          by (rewrite <- app_assoc; reflexivity).
        apply Hany2. rewrite length_app. lia. }
    cbv beta.
    replace (p ++ (d ++ f1) ++ w2) with ((p ++ d ++ f1) ++ w2)
      by (rewrite <- !app_assoc; reflexivity).
    replace (length ((p ++ d) ++ f1)) with (length (p ++ d ++ f1))
      by (rewrite <- app_assoc; reflexivity).
    rewrite (bind_ok _ (key_is_target_decides (p ++ d ++ f1) w2 _ n')).
    rewrite Hs3, <- app_assoc.
    erewrite (bind_ok _).
    2:{ apply read_json_filler_exact; auto.
        - apply filler_stops_nul; assumption.
        - rewrite !length_app. lia. }
    cbv beta. rewrite <- !app_assoc. reflexivity. }
  (* the value *)
  apply bind_throw_inv in Hrun.
  destruct Hrun as [H4 | ([] & st4 & H4 & Hrun)].
  - (* the value reader throws: it stands at the terminator *)
    assert (He3 : s3 = []).
    { destruct s3 as [|x s3']; [reflexivity|]. exfalso.
      pose proof (run_read_json_value (span_is_target w2)
                    (Cursors ((x :: s3') ++ [NUL]) (((d ++ f1) ++ w2) ++ f3) n))
        as R.
      unfold run in R. rewrite H4 in R. cbn [src app] in R.
      destruct (R (s3' ++ [NUL])) as [Rq Rb].
      cbn [app filler_stops] in Hstop3. apply negb_true_iff in Hstop3.
      unfold filler_char in Hstop3.
      apply nul_free_cons in Hn3. destruct Hn3 as [Hx _].
      apply char_neqb_true in Hx. rewrite Hx in Hstop3. cbn [andb] in Hstop3.
      apply andb_false_iff in Hstop3.
      destruct Hstop3 as [Hq | Hb];
        [apply char_neqb_false in Hq | apply char_neqb_false in Hb];
        subst x; congruence. }
    subst s3. rewrite app_nil_r in Hs3. subst s2.
    split.
    + exists (f1 ++ c0), f3. split; [|exact Hf3].
      unfold s in *. rewrite Hs1, Hs2, Hc0, <- !app_assoc. reflexivity.
    + intros t p n' fuel' Hn Hfuel.
      assert (Hlen : length s = length f1 + length c2 + length f3).
      { rewrite Hs1, Hs2, !length_app. lia. }
      destruct fuel' as [|fuel']; [lia|].
      rewrite json_replace_loop_enters by exact Ha0.
      rewrite (Hhead (fun replace =>
                 read_json_value replace ;; read_json_filler ;;
                 json_replace_loop fuel' (strlen ESCAPED_TARGET_SUFFIX)))
        by lia.
      cbn [app] in H4 |- *. unfold bind at 1.
      rewrite (read_json_value_throws_moves _ _ _ _ _ _ H4). reflexivity.
  - destruct (read_json_value_moves _ s3 _ n st4 Hn3 H4)
      as (c4 & w4 & s4 & Hs4 & -> & Hw4 & Hc4 & Hz4 & Hany4).
    assert (Hn4 : nul_free s4 = true).
    { rewrite Hs4, nul_free_app in Hn3. apply andb_true_iff in Hn3. tauto. }
    (* the filler after the value *)
    apply bind_throw_inv in Hrun.
    destruct Hrun as [H5 | ([] & st5 & H5 & Hrun)];
      [apply read_json_filler_no_throw in H5; contradiction|].
    destruct (read_json_filler_moves s4 _ n st5 Hn4 H5)
      as (f5 & s5 & Hs5 & -> & Hf5 & Hstop5).
    assert (Hn5 : nul_free s5 = true).
    { rewrite Hs5, nul_free_app in Hn4. apply andb_true_iff in Hn4. tauto. }
    assert (Hlen : length s
                   = length f1 + length c2 + length f3 + length c4
                     + length f5 + length s5).
    { rewrite Hs1, Hs2, Hs3, Hs4, Hs5, !length_app. lia. }
    destruct (IH s5 _ n what Hn5 Hrun) as [(pre & f & Hpre & Hf) Hany].
    split.
    + exists (f1 ++ c2 ++ f3 ++ c4 ++ f5 ++ pre), f. split; [|exact Hf].
      unfold s in *. rewrite Hs1, Hs2, Hs3, Hs4, Hs5, Hpre, <- !app_assoc.
      reflexivity.
    + intros t p n' fuel' Hn Hfuel.
      destruct fuel' as [|fuel']; [lia|].
      rewrite json_replace_loop_enters by exact Ha0.
      rewrite (Hhead (fun replace =>
                 read_json_value replace ;; read_json_filler ;;
                 json_replace_loop fuel' (strlen ESCAPED_TARGET_SUFFIX)))
        by lia.
      erewrite (bind_ok _).
      2:{ replace (p ++ d ++ f1 ++ w2 ++ f3)
            with (p ++ ((d ++ f1) ++ w2) ++ f3)
            by (rewrite <- !app_assoc; reflexivity).
          apply Hany4. rewrite !length_app. lia. }
      cbv beta.
      rewrite Hs5, <- app_assoc.
      erewrite (bind_ok _).
      2:{ apply read_json_filler_exact;
            [ assumption
            | apply filler_stops_nul; assumption
            | rewrite !length_app; lia ]. }
      cbv beta.
      replace ((p ++ (((d ++ f1) ++ w2) ++ f3) ++ w4) ++ f5)
        with (p ++ ((((d ++ f1) ++ w2) ++ f3) ++ w4) ++ f5)
        by (rewrite <- !app_assoc; reflexivity).
      apply Hany; rewrite ?length_app in *; lia.
Qed.

(** ** The transform on a C string, whatever lies behind its terminator and
    however large the allocation *)

Lemma json_replace_no_try_catch_moves s n st' :
  nul_free s = true ->
  json_replace_no_try_catch (Cursors (s ++ [NUL]) [] n) = Ok (tt, st') ->
  exists w,
    st' = Cursors [NUL] (w ++ [NUL]) n /\ length w <= length s
    /\ nul_free w = true
    /\ (forall t n',
          length s < n' ->
          json_replace_no_try_catch (Cursors (s ++ NUL :: t) [] n')
          = Ok (tt, Cursors (NUL :: t) (w ++ [NUL]) n'))
    /\ (s <> [] ->
        forall t te wt room budget,
          resumes t te wt room budget ->
          forall p n' fuel',
            length p + length s + room <= n' ->
            length s + budget < fuel' ->
            json_replace_loop fuel' (strlen ESCAPED_TARGET_SUFFIX)
              (Cursors (s ++ t) p n')
            = Ok (tt, Cursors te (p ++ w ++ wt) n')).
Proof.
  intros Hs Hrun. unfold json_replace_no_try_catch in Hrun.
  apply bind_ok_inv in Hrun. destruct Hrun as ([] & st1 & Hloop & Hemit).
  unfold bounded in Hloop. cbn [src] in Hloop.
  destruct s as [|a0 s0].
  - cbn [app] in Hloop. rewrite json_replace_loop_at_nul in Hloop.
    injection Hloop as <-.
    unfold emit in Hemit. cbn [src dest cap length] in Hemit.
    destruct (0 <? n) eqn:Hn; [|discriminate]. injection Hemit as <-.
    exists []. repeat split; [simpl; lia | | congruence].
    intros t n' Hn'. cbn [app]. unfold json_replace_no_try_catch, bounded.
    cbn [src]. unfold bind. rewrite json_replace_loop_at_nul.
    unfold emit. cbn [src dest cap length].
    replace (0 <? n') with true
      by (symmetry; apply Nat.ltb_lt; simpl in Hn'; lia).
    reflexivity.
  - destruct (json_replace_loop_moves _ (a0 :: s0) [] n st1
                ltac:(discriminate) Hs Hloop) as (w & -> & Hw & Hz & Hany).
    unfold emit in Hemit. cbn [src dest cap app] in Hemit.
    destruct (length w <? n); [|discriminate]. injection Hemit as <-.
    exists w. repeat split; auto.
    + intros t n' Hn'.
      unfold json_replace_no_try_catch, bounded. cbn [src].
      erewrite (bind_ok _).
      2:{ apply (Hany _ _ _ _ _ (resumes_at_nul t) [] n').
          - simpl in *. lia.
          - cbn [src]. rewrite length_app. simpl. lia. }
      cbv beta. cbn [app]. rewrite app_nil_r.
      apply emit_ok. lia.
    + intros _ t te wt room budget HT p n' fuel' Hn Hfuel.
      specialize (Hany _ _ _ _ _ HT p n' fuel').
      rewrite app_nil_r in Hany. cbn [app] in Hany.
      apply Hany; simpl in *; lia.
Qed.

Lemma json_replace_no_try_catch_throws_moves s n what :
  nul_free s = true ->
  json_replace_no_try_catch (Cursors (s ++ [NUL]) [] n) = Throw what ->
  (exists pre f, s = pre ++ DQUOTE :: f /\ is_filler f = true)
  /\ forall t n',
       length s < n' ->
       json_replace_no_try_catch (Cursors (s ++ NUL :: t) [] n') = Throw what.
Proof.
  intros Hs Hrun. unfold json_replace_no_try_catch in Hrun.
  apply bind_throw_inv in Hrun.
  destruct Hrun as [Hloop | ([] & st1 & _ & Hemit)].
  - unfold bounded in Hloop. cbn [src] in Hloop.
    destruct (json_replace_loop_throws_moves _ s [] n what Hs Hloop)
      as [Hend Hany].
    split; [exact Hend|].
    intros t n' Hn'. unfold json_replace_no_try_catch, bounded. cbn [src].
    unfold bind at 1.
    rewrite (Hany t [] n'); [reflexivity | simpl; lia |].
    cbn [src]. rewrite length_app. simpl. lia.
  - unfold emit in Hemit. destruct (_ <? _); discriminate.
Qed.

Lemma is_filler_app f g : is_filler (f ++ g) = is_filler f && is_filler g.
Proof. apply forallb_app. Qed.

(** After an input that the loop reads to its end, the loop goes on over a
    second input as it does over that input alone. *)
Lemma resumes_after b wb :
  b <> [] ->
  nul_free b = true ->
  (forall p n' fuel',
      length p + length b <= n' ->
      length b < fuel' ->
      json_replace_loop fuel' (strlen ESCAPED_TARGET_SUFFIX)
        (Cursors (b ++ [NUL]) p n')
      = Ok (tt, Cursors [NUL] (p ++ wb) n')) ->
  resumes (b ++ [NUL]) [NUL] wb (length b) (length b).
Proof.
  intros Hne Hb Hloop f P n' fuel' Hf Hn Hfuel.
  destruct fuel' as [|fuel']; [lia|].
  specialize (Hloop (P ++ f) n' (S fuel')).
  rewrite length_app in Hloop.
  specialize (Hloop ltac:(lia) ltac:(lia)).
  destruct b as [|b0 b1]; [congruence|].
  set (b := b0 :: b1) in *.
  assert (Hb0 : (b0 != NUL) = true).
  { apply nul_free_cons in Hb. apply char_neqb_true. tauto. }
  rewrite json_replace_loop_enters in Hloop by exact Hb0.
  apply bind_ok_inv in Hloop. destruct Hloop as ([] & st1 & H1 & Hrest).
  destruct (read_json_filler_moves b _ n' st1 Hb H1)
    as (fb & rb & Hsplit & -> & Hfb & Hstop).
  assert (Hlenb : length b = length fb + length rb)
    by (rewrite Hsplit, length_app; reflexivity).
  rewrite Hsplit, <- app_assoc.
  erewrite (bind_ok _).
  2:{ rewrite app_assoc. apply read_json_filler_exact.
      - rewrite is_filler_app, Hf, Hfb. reflexivity.
      - exact Hstop.
      - rewrite length_app. lia. }
  cbv beta.
  replace (P ++ f ++ fb) with ((P ++ f) ++ fb)
    by (rewrite <- app_assoc; reflexivity).
  destruct rb as [|x rb'].
  - (* the second input is filler only: its own run does not return *)
    exfalso. cbn [app] in Hrest.
    unfold dest_pos at 1 in Hrest. unfold bind at 1 in Hrest.
    apply bind_ok_inv in Hrest. destruct Hrest as ([] & st2 & H2 & _).
    destruct (read_json_string_moves [] _ n' st2 eq_refl H2)
      as (c & w & s' & Heq & _ & _ & Hc & _).
    destruct c; simpl in *; [lia | discriminate].
  - assert (Hx : (x != NUL) = true).
    { rewrite Hsplit, nul_free_app in Hb. apply andb_true_iff in Hb.
      destruct Hb as [_ Hb]. apply nul_free_cons in Hb.
      apply char_neqb_true. tauto. }
    change ((x :: rb') ++ [NUL]) with (x :: rb' ++ [NUL]) in *.
    rewrite json_replace_loop_enters by exact Hx.
    erewrite (bind_ok _).
    2:{ apply (read_json_filler_exact [] (x :: rb' ++ [NUL]));
          [reflexivity | exact Hstop | rewrite !length_app; simpl; lia]. }
    cbv beta. rewrite app_nil_r.
    rewrite Hrest. rewrite <- app_assoc. reflexivity.
Qed.

Lemma json_replace_returns str out :
  nul_free str = true ->
  json_replace str = Ok out ->
  exists st',
    json_replace_no_try_catch (Cursors (str ++ [NUL]) [] (length str + 1))
    = Ok (tt, st')
    /\ out = until_nul (dest st').
Proof.
  intros Hs H. unfold json_replace in H.
  rewrite (strlen_nul_free str [] Hs) in H.
  destruct (json_replace_no_try_catch _) as [[[] st'] | | | ]; try discriminate.
  injection H as <-. exists st'. auto.
Qed.


(** ** Occurrences of the suffix *)

Lemma starts_with_app pat y : starts_with pat (pat ++ y) = true.
Proof.
  induction pat as [|p pat IH]; [reflexivity|].
  cbn [app starts_with]. rewrite char_eqb_refl. exact IH.
Qed.

Lemma occurs_unfold pat l :
  occurs pat l
  = starts_with pat l
    || match l with [] => false | _ :: l' => occurs pat l' end.
Proof. destruct l; reflexivity. Qed.

Lemma occurs_app pat x y : occurs pat y = true -> occurs pat (x ++ y) = true.
Proof.
  intros H. induction x as [|a x IH]; [exact H|].
  cbn [app occurs]. rewrite IH. apply orb_true_r.
Qed.

Lemma occurs_inside pat x y : occurs pat (x ++ pat ++ y) = true.
Proof.
  apply occurs_app. rewrite occurs_unfold, starts_with_app. reflexivity.
Qed.

Lemma occurs_later pat x y :
  occurs pat (x ++ y) = false -> occurs pat y = false.
Proof.
  intros H. destruct (occurs pat y) eqn:Hy; [|reflexivity].
  rewrite (occurs_app pat x y Hy) in H. discriminate.
Qed.

Lemma span_is_target_ends span :
  span_is_target span = true -> exists x, span = x ++ ESCAPED_TARGET_SUFFIX.
Proof.
  unfold span_is_target. intros H. apply andb_true_iff in H.
  destruct H as [_ H]. apply chars_eqb_true in H.
  exists (firstn (length span - 3) span).
  rewrite <- H. symmetry. apply firstn_skipn.
Qed.

(** ** Runs under a replace flag that is not set *)

Lemma run_read_json_array_loop_verbatim fuel : forall st,
  length (src st) < fuel ->
  run (read_json_array_loop fuel false) st False (fun _ st' c w => w = c).
Proof.
  induction fuel as [|fuel IH]; intros st Hfuel; [lia|].
  cbn [read_json_array_loop].
  eapply run_bind; [apply run_peek|].
  intros a st1 c1 w1 _ (-> & -> & -> & t & Hs).
  destruct (a != RBRACKET) eqn:Ha.
  - eapply run_bind with
      (Q1 := fun _ _ c w => w = c /\ 1 <= length c).
    { destruct (a == DQUOTE).
      - eapply run_weaken; [apply run_read_json_string | exact (fun H => H) |].
        intros _ st2 c2 w2 _ (-> & Hc). split; [reflexivity | lia].
      - eapply run_weaken; [apply run_copy | exact (fun H => H) |].
        intros _ st2 c2 w2 _ (-> & a2 & -> & _). split; [reflexivity|].
        simpl. lia. }
    intros _ st2 c2 w2 Hmv (-> & Hc).
    apply moved_length in Hmv.
    eapply run_weaken; [apply IH | exact (fun H => H) |].
    + lia.
    + intros _ st3 c3 w3 _ ->. reflexivity.
  - apply run_ret. reflexivity.
Qed.

Lemma run_read_json_value_verbatim st :
  run (read_json_value false) st True (fun _ _ c w => w = c).
Proof.
  unfold read_json_value.
  eapply run_bind; [apply run_peek|].
  intros a st1 c1 w1 _ (-> & -> & -> & t & Hs).
  destruct (a == DQUOTE) eqn:Hq; [|destruct (a == LBRACKET) eqn:Hb].
  - eapply run_weaken; [apply run_read_json_string | intros [] |].
    intros u st2 c2 w2 _ (-> & _). reflexivity.
  - eapply run_weaken with (throws := False) (Q := fun _ _ c w => w = c);
      [ | intros [] | auto ].
    eapply run_bind; [apply run_copy|].
    intros _ st2 c2 w2 _ (-> & a2 & -> & _).
    eapply run_bind.
    { unfold bounded, run. apply run_read_json_array_loop_verbatim. lia. }
    intros _ st3 c3 w3 _ ->.
    eapply run_weaken; [apply run_copy | exact (fun H => H) |].
    intros _ st4 c4 w4 _ (-> & a4 & -> & _). reflexivity.
  - unfold run, throw. exact I.
Qed.

Lemma run_read_json_value_copies st :
  run (read_json_value false) st True
    (fun _ _ c w => w = c /\ 2 <= length c).
Proof.
  pose proof (run_read_json_value_verbatim st) as R1.
  pose proof (run_read_json_value false st) as R2.
  unfold run in *.
  destruct (read_json_value false st) as [[u st5] | what | | ]; auto.
  destruct R1 as (c & w & Hmv & ->).
  destruct R2 as (c' & w' & Hmv' & _ & Hlen).
  exists c, c. split; [exact Hmv|]. split; [reflexivity|].
  apply moved_length in Hmv, Hmv'. lia.
Qed.

Lemma run_dest_pos st throws :
  run dest_pos st throws (fun a st' c w =>
    c = [] /\ w = [] /\ st' = st /\ a = length (dest st)).
Proof.
  unfold run, dest_pos. exists [], []. split; [apply moved_refl|]. auto.
Qed.

Lemma run_key_is_target temp m st throws :
  run (key_is_target temp m) st throws (fun a st' c w =>
    c = [] /\ w = [] /\ st' = st /\ key_is_target temp m st = Ok (a, st)).
Proof.
  unfold run. unfold key_is_target at 1.
  exists [], []. split; [apply moved_refl|]. auto.
Qed.

(** Where the suffix and a double quote occur nowhere in what is left of the
    input, the driver loop writes what it consumes. *)
Lemma run_json_replace_loop_verbatim fuel : forall st,
  length (src st) < fuel ->
  occurs ESCAPED_TARGET_SUFFIX (src st) = false ->
  run (json_replace_loop fuel (strlen ESCAPED_TARGET_SUFFIX)) st True
    (fun _ st' c w => w = c /\ exists t, src st' = NUL :: t).
Proof.
  induction fuel as [|fuel IH]; intros st Hfuel Hno; [lia|].
  cbn [json_replace_loop].
  eapply run_bind; [apply run_peek|].
  intros a st1 c1 w1 _ (-> & -> & -> & t & Hs).
  destruct (a != NUL) eqn:Ha.
  - eapply run_bind.
    { eapply run_weaken; [apply run_read_json_filler | tauto |].
      intros u st2 c2 w2 _ H. exact H. }
    intros _ st2 c2 w2 Hmv2 (-> & _ & _).
    eapply run_bind; [apply run_dest_pos|].
    intros temp st2' c2' w2' _ (-> & -> & -> & ->).
    eapply run_bind.
    { eapply run_weaken; [apply run_read_json_string | tauto |].
      intros u st3 c3 w3 _ H. exact H. }
    intros _ st3 c3 w3 Hmv3 (-> & Hc3).
    eapply run_bind; [apply run_key_is_target|].
    intros replace st3' c3' w3' _ (-> & -> & -> & Hkey).
    assert (Hreplace : replace = false).
    { destruct st3 as [s3 d3 n3].
      pose proof Hmv3 as (_ & Hsrc3 & Hd3). cbn [src dest] in Hsrc3, Hd3.
      subst d3. rewrite key_is_target_decides in Hkey.
      injection Hkey as <-.
      destruct (span_is_target c3) eqn:Hspan; [|reflexivity].
      destruct (span_is_target_ends c3 Hspan) as [x ->].
      destruct Hmv2 as (_ & Hsrc2 & _).
      rewrite Hsrc2, Hsrc3, <- !app_assoc in Hno.
      rewrite (occurs_app _ c2 _ (occurs_inside _ x s3)) in Hno.
      discriminate. }
    subst replace.
    eapply run_bind.
    { eapply run_weaken; [apply run_read_json_filler | tauto |].
      intros u st4 c4 w4 _ H. exact H. }
    intros _ st4 c4 w4 Hmv4 (-> & _ & _).
    eapply run_bind; [apply run_read_json_value_copies|].
    intros _ st5 c5 w5 Hmv5 (-> & Hc5).
    eapply run_bind.
    { eapply run_weaken; [apply run_read_json_filler | tauto |].
      intros u st6 c6 w6 _ H. exact H. }
    intros _ st6 c6 w6 Hmv6 (-> & _ & _).
    assert (Hno6 : occurs ESCAPED_TARGET_SUFFIX (src st6) = false).
    { destruct Hmv2 as (_ & E2 & _), Hmv3 as (_ & E3 & _),
        Hmv4 as (_ & E4 & _), Hmv5 as (_ & E5 & _), Hmv6 as (_ & E6 & _).
      rewrite E2, E3, E4, E5, E6 in Hno.
      repeat apply occurs_later in Hno. exact Hno. }
    apply moved_length in Hmv2, Hmv3, Hmv4, Hmv5, Hmv6.
    eapply run_weaken; [apply IH | exact (fun H => H) |].
    + lia.
    + exact Hno6.
    + intros _ st7 c7 w7 _ (-> & Hq). cbn [app].
      split; [reflexivity | exact Hq].
  - apply run_ret. split; [reflexivity|].
    apply char_neqb_false in Ha. subst a. exists t. exact Hs.
Qed.

Lemma terminator_of_nul_free str : forall c t,
  nul_free str = true ->
  c ++ NUL :: t = str ++ [NUL] ->
  c = str /\ t = [].
Proof.
  induction str as [|a str IH]; intros c t Hs Heq.
  - destruct c as [|x c].
    + cbn [app] in Heq. injection Heq as ->. auto.
    + cbn [app] in Heq. injection Heq as _ Heq. destruct c; discriminate.
  - apply nul_free_cons in Hs. destruct Hs as [Ha Hs].
    destruct c as [|x c].
    + cbn [app] in Heq. injection Heq as Heq _. congruence.
    + cbn [app] in Heq. injection Heq as -> Heq.
      destruct (IH c t Hs Heq) as [-> ->]. auto.
Qed.

Lemma starts_with_terminated pat : forall l,
  nul_free pat = true ->
  starts_with pat (l ++ [NUL]) = starts_with pat l.
Proof.
  induction pat as [|p pat IH]; intros l Hp; [reflexivity|].
  apply nul_free_cons in Hp. destruct Hp as [Hp Hpat].
  destruct l as [|c l].
  - cbn [app starts_with]. rewrite (char_eqb_diff p NUL Hp). reflexivity.
  - cbn [app starts_with]. rewrite (IH l Hpat). reflexivity.
Qed.

Lemma occurs_before_terminator str :
  occurs ESCAPED_TARGET_SUFFIX str = false ->
  occurs ESCAPED_TARGET_SUFFIX (str ++ [NUL]) = false.
Proof.
  induction str as [|a str IH]; intros H; [reflexivity|].
  rewrite occurs_unfold in H. apply orb_false_iff in H.
  destruct H as [Hst Hoc].
  rewrite occurs_unfold, starts_with_terminated, Hst by reflexivity.
  cbn [app orb]. exact (IH Hoc).
Qed.

(** ** What the readers consume and write, on any input *)

Lemma run_read_json_string_shape st :
  run read_json_string st False (fun _ st' c w =>
    w = c /\ exists a body, c = a :: body ++ [DQUOTE]).
Proof.
  unfold read_json_string.
  eapply run_bind; [apply run_copy|].
  intros _ st1 c1 w1 _ (-> & a & -> & Hs1).
  eapply run_bind.
  { unfold bounded, run. apply run_read_json_string_loop. lia. }
  intros _ st2 c2 w2 _ (-> & t & Hs2).
  eapply run_weaken; [apply run_copy | exact (fun H => H) |].
  intros _ st3 c3 w3 _ (-> & a3 & -> & Hs3).
  rewrite Hs2 in Hs3. injection Hs3 as <- _.
  split; [reflexivity|]. exists a, c2. reflexivity.
Qed.

Lemma run_read_and_replace_json_string_shape st :
  run read_and_replace_json_string st False (fun _ st' c w =>
    exists a body,
      c = a :: body ++ [DQUOTE] /\ w = a :: mask_body body ++ [DQUOTE]).
Proof.
  unfold read_and_replace_json_string.
  eapply run_bind; [apply run_copy|].
  intros _ st1 c1 w1 _ (-> & a & -> & Hs1).
  eapply run_bind; [apply run_peek|].
  intros b st2 c2 w2 _ (-> & -> & -> & t & Hs2).
  destruct (b == DQUOTE) eqn:Hb.
  - eapply run_weaken; [apply run_copy | exact (fun H => H) |].
    intros _ st3 c3 w3 _ (-> & a3 & -> & Hs3).
    rewrite Hs2 in Hs3. injection Hs3 as <- _.
    apply char_eqb_true in Hb. subst b.
    exists a, []. split; reflexivity.
  - eapply run_bind.
    { unfold bounded, run. apply run_skip_json_string_loop. lia. }
    intros _ st3 c3 w3 _ (-> & (t3 & Hs3) & Hc3).
    specialize (Hc3 b t Hs2).
    unfold char_neqb in Hc3. rewrite Hb in Hc3. specialize (Hc3 eq_refl).
    eapply run_bind; [apply run_emit|].
    intros _ st4 c4 w4 (_ & Hs4 & _) (-> & ->).
    eapply run_weaken; [apply run_copy | exact (fun H => H) |].
    intros _ st5 c5 w5 _ (-> & a5 & -> & Hs5).
    cbn [app] in Hs4. rewrite <- Hs4, Hs3 in Hs5. injection Hs5 as <- _.
    exists a, c3. cbn [app].
    split; [reflexivity|].
    destruct c3 as [|x c3]; [simpl in Hc3; lia|]. reflexivity.
Qed.

Lemma run_read_json_array_loop_shape fuel replace st :
  length (src st) < fuel ->
  run (read_json_array_loop fuel replace) st False (fun _ st' c w =>
    length w <= length c /\ (replace = false -> w = c)
    /\ exists t, src st' = RBRACKET :: t).
Proof.
  intros Hfuel.
  pose proof (run_read_json_array_loop fuel replace st Hfuel) as R1.
  unfold run in *.
  destruct (read_json_array_loop fuel replace st) as [[u st'] | | | ] eqn:Hrun;
    auto.
  destruct R1 as (c & w & Hmv & Hw & Ht).
  exists c, w. split; [exact Hmv|]. split; [exact Hw|]. split; [|exact Ht].
  intros ->.
  pose proof (run_read_json_array_loop_verbatim fuel st Hfuel) as R2.
  unfold run in R2. rewrite Hrun in R2.
  destruct R2 as (c' & w' & Hmv' & ->).
  destruct Hmv as (_ & Hs & Hd), Hmv' as (_ & Hs' & Hd').
  rewrite Hd in Hd'. apply app_inv_head in Hd'. subst w.
  rewrite Hs in Hs'. apply app_inv_tail in Hs'. auto.
Qed.

Lemma run_read_json_value_shape replace st :
  run (read_json_value replace) st True (fun _ st' c w =>
    (exists body,
        c = quoted body
        /\ w = quoted (if replace then mask_body body else body))
    \/ (exists body wbody,
          c = LBRACKET :: body ++ [RBRACKET]
          /\ w = LBRACKET :: wbody ++ [RBRACKET]
          /\ length wbody <= length body
          /\ (replace = false -> wbody = body))).
Proof.
  unfold read_json_value.
  eapply run_bind; [apply run_peek|].
  intros a st1 c1 w1 _ (-> & -> & -> & t & Hs).
  destruct (a == DQUOTE) eqn:Hq; [|destruct (a == LBRACKET) eqn:Hb].
  - apply char_eqb_true in Hq. subst a. destruct replace.
    + eapply run_weaken;
        [apply run_read_and_replace_json_string_shape | intros [] |].
      intros u st2 c2 w2 (_ & Hs2 & _) (a & body & -> & ->).
      rewrite Hs in Hs2. injection Hs2 as <- _.
      left. exists body. split; reflexivity.
    + eapply run_weaken; [apply run_read_json_string_shape | intros [] |].
      intros u st2 c2 w2 (_ & Hs2 & _) (-> & a & body & ->).
      rewrite Hs in Hs2. injection Hs2 as <- _.
      left. exists body. split; reflexivity.
  - apply char_eqb_true in Hb. subst a.
    eapply run_weaken with (throws := False)
      (Q := fun _ _ c w =>
         exists body wbody,
           c = LBRACKET :: body ++ [RBRACKET]
           /\ w = LBRACKET :: wbody ++ [RBRACKET]
           /\ length wbody <= length body
           /\ (replace = false -> wbody = body)); [ | intros [] | ].
    + eapply run_bind; [apply run_copy|].
      intros _ st2 c2 w2 _ (-> & a2 & -> & Hs2).
      rewrite Hs in Hs2. injection Hs2 as <- _.
      eapply run_bind.
      { unfold bounded, run. apply run_read_json_array_loop_shape. lia. }
      intros _ st3 c3 w3 _ (Hw3 & Hv3 & t3 & Hs3).
      eapply run_weaken; [apply run_copy | exact (fun H => H) |].
      intros _ st4 c4 w4 _ (-> & a4 & -> & Hs4).
      rewrite Hs3 in Hs4. injection Hs4 as <- _.
      exists c3, w3. cbn [app]. auto.
    + intros u st' c w _ H. right. exact H.
  - unfold run, throw. exact I.
Qed.

(** ** The replace flag and what is consumed *)

Lemma read_json_string_loop_as_skip fuel : forall escaped s d n st',
  read_json_string_loop fuel escaped (Cursors s d n) = Ok (tt, st') ->
  forall d0 n0,
    skip_json_string_loop fuel escaped (Cursors s d0 n0)
    = Ok (tt, Cursors (src st') d0 n0).
Proof.
  induction fuel as [|fuel IH]; intros escaped s d n st' Hrun d0 n0;
    [discriminate|].
  destruct s as [|a s]; [discriminate|].
  cbn [read_json_string_loop] in Hrun. cbn [skip_json_string_loop].
  rewrite (bind_ok _ (peek_cons _ _ _ _)) in Hrun. cbv beta in Hrun.
  run_peek.
  destruct ((a != DQUOTE) || escaped).
  - unfold bind at 1 in Hrun. rewrite copy_cases in Hrun.
    destruct (length d <? n); [|discriminate].
    run_skip. exact (IH _ _ _ _ _ Hrun d0 n0).
  - unfold ret in Hrun. injection Hrun as <-. reflexivity.
Qed.

Lemma skip_json_string_loop_as_read fuel : forall escaped s d0 n0 st',
  skip_json_string_loop fuel escaped (Cursors s d0 n0) = Ok (tt, st') ->
  forall d n,
    length d + length s <= n ->
    exists c,
      s = c ++ src st'
      /\ read_json_string_loop fuel escaped (Cursors s d n)
         = Ok (tt, Cursors (src st') (d ++ c) n).
Proof.
  induction fuel as [|fuel IH]; intros escaped s d0 n0 st' Hrun d n Hn;
    [discriminate|].
  destruct s as [|a s]; [discriminate|].
  cbn [skip_json_string_loop] in Hrun. cbn [read_json_string_loop].
  rewrite (bind_ok _ (peek_cons _ _ _ _)) in Hrun. cbv beta in Hrun.
  destruct ((a != DQUOTE) || escaped) eqn:Ha.
  - rewrite (bind_ok _ (skip_cons _ _ _ _)) in Hrun.
    destruct (IH _ _ _ _ _ Hrun (d ++ [a]) n) as (c & Hs & Hread).
    { rewrite length_app. simpl in *. lia. }
    exists (a :: c). split; [cbn [app]; rewrite <- Hs; reflexivity|].
    run_peek. rewrite Ha.
    erewrite (bind_ok _); [ | apply copy_cons; simpl in Hn; lia ].
    cbv beta. rewrite Hread, <- app_assoc. reflexivity.
  - unfold ret in Hrun. injection Hrun as <-.
    exists []. split; [reflexivity|].
    run_peek. rewrite Ha, app_nil_r. reflexivity.
Qed.

Lemma read_json_string_as_replace s d n st' :
  read_json_string (Cursors s d n) = Ok (tt, st') ->
  forall d0 n0,
    length d0 + length s <= n0 ->
    exists d0',
      read_and_replace_json_string (Cursors s d0 n0)
      = Ok (tt, Cursors (src st') d0' n0)
      /\ length d0' + length (src st') <= n0.
Proof.
  intros Hrun d0 n0 Hn. unfold read_json_string in Hrun.
  destruct s as [|a s1]; [discriminate|].
  unfold bind at 1 in Hrun. rewrite copy_cases in Hrun.
  destruct (length d <? n); [|discriminate].
  apply bind_ok_inv in Hrun. destruct Hrun as ([] & st2 & Hloop & Hrun).
  unfold bounded in Hloop. cbn [src] in Hloop.
  destruct (read_json_string_loop_returns _ _ _ _ Hloop) as (c & t & Hs1 & Hs2).
  cbn [src] in Hs1.
  destruct st2 as [s2 d2 n2]. cbn [src] in Hs2. subst s2.
  rewrite copy_cases in Hrun. destruct (length d2 <? n2); [|discriminate].
  injection Hrun as <-. cbn [src].
  unfold read_and_replace_json_string.
  cbn [length] in Hn.
  erewrite (bind_ok _); [ | apply copy_cons; lia ]. cbv beta.
  destruct s1 as [|b s3]; [destruct c; discriminate|].
  run_peek.
  destruct (b == DQUOTE) eqn:Hb.
  - (* the loop has stopped at once *)
    destruct (length (b :: s3)) eqn:Hlen; [discriminate|].
    cbn [read_json_string_loop] in Hloop.
    rewrite (bind_ok _ (peek_cons _ _ _ _)) in Hloop. cbv beta in Hloop.
    unfold char_neqb in Hloop. rewrite Hb in Hloop. cbn [negb orb] in Hloop.
    unfold ret in Hloop. inversion Hloop. subst.
    eexists. split.
    + apply copy_cons. rewrite length_app. simpl in *. lia.
    + rewrite !length_app. simpl in *. lia.
  - assert (Hc : 1 <= length c).
    { destruct c as [|x c]; [|simpl; lia]. cbn [app] in Hs1.
      injection Hs1 as -> _. rewrite char_eqb_refl in Hb. discriminate. }
    assert (Hlen : length (b :: s3) = length c + 1 + length t).
    { rewrite Hs1, length_app. simpl. lia. }
    erewrite (bind_ok _).
    2:{ unfold bounded. cbn [src].
        apply (read_json_string_loop_as_skip _ _ _ _ _ _ Hloop). }
    cbv beta. cbn [src].
    erewrite (bind_ok _);
      [ | apply emit_ok; rewrite length_app; simpl in *; lia ].
    cbv beta.
    eexists. split.
    + apply copy_cons. rewrite !length_app. simpl in *. lia.
    + rewrite !length_app. simpl in *. lia.
Qed.

Lemma read_and_replace_json_string_as_read s d0 n0 st' :
  read_and_replace_json_string (Cursors s d0 n0) = Ok (tt, st') ->
  forall d n,
    length d + length s <= n ->
    exists d',
      read_json_string (Cursors s d n) = Ok (tt, Cursors (src st') d' n)
      /\ length d' + length (src st') <= n.
Proof.
  intros Hrun d n Hn. unfold read_and_replace_json_string in Hrun.
  destruct s as [|a s1]; [discriminate|].
  unfold bind at 1 in Hrun. rewrite copy_cases in Hrun.
  destruct (length d0 <? n0); [|discriminate].
  destruct s1 as [|b s3]; [discriminate|].
  rewrite (bind_ok _ (peek_cons _ _ _ _)) in Hrun. cbv beta in Hrun.
  cbn [length] in Hn.
  unfold read_json_string.
  erewrite (bind_ok _); [ | apply copy_cons; lia ]. cbv beta.
  destruct (b == DQUOTE) eqn:Hb.
  - rewrite copy_cases in Hrun. destruct (length _ <? n0); [|discriminate].
    injection Hrun as <-. cbn [src].
    erewrite (bind_ok _).
    2:{ unfold bounded. cbn [src length read_json_string_loop].
        run_peek. unfold char_neqb. rewrite Hb. reflexivity. }
    cbv beta.
    eexists. split.
    + apply copy_cons. rewrite length_app. simpl. lia.
    + rewrite !length_app. simpl. lia.
  - apply bind_ok_inv in Hrun. destruct Hrun as ([] & st2 & Hloop & Hrun).
    unfold bounded in Hloop. cbn [src] in Hloop.
    destruct (skip_json_string_loop_returns _ _ _ _ Hloop)
      as (c0 & t & Hs1 & Hs2).
    cbn [src] in Hs1.
    destruct (skip_json_string_loop_as_read _ _ _ _ _ _ Hloop (d ++ [a]) n)
      as (c & Hc & Hread).
    { rewrite length_app. simpl. lia. }
    destruct st2 as [s2 d2 n2]. cbn [src] in Hs2, Hc, Hread. subst s2.
    apply bind_ok_inv in Hrun. destruct Hrun as ([] & st3 & Hemit & Hrun).
    unfold emit in Hemit. cbn [src dest cap] in Hemit.
    destruct (length d2 <? n2); [|discriminate]. injection Hemit as <-.
    rewrite copy_cases in Hrun. destruct (length _ <? n2); [|discriminate].
    injection Hrun as <-. cbn [src].
    assert (Hlen : length (b :: s3) = length c + 1 + length t).
    { rewrite Hc, length_app. simpl. lia. }
    erewrite (bind_ok _); [ | unfold bounded; cbn [src]; exact Hread ].
    cbv beta.
    eexists. split.
    + apply copy_cons. rewrite !length_app. simpl in *. lia.
    + rewrite !length_app. simpl in *. lia.
Qed.

Lemma read_string_as_any_flag (r1 r2 : bool) s d1 n1 st' :
  (if r1 return M unit
   then read_and_replace_json_string else read_json_string)
    (Cursors s d1 n1) = Ok (tt, st') ->
  forall d2 n2,
    length d2 + length s <= n2 ->
    exists d2',
      (if r2 return M unit
       then read_and_replace_json_string else read_json_string)
        (Cursors s d2 n2) = Ok (tt, Cursors (src st') d2' n2)
      /\ length d2' + length (src st') <= n2.
Proof.
  intros Hrun d2 n2 Hn.
  assert (Hread : exists d',
    read_json_string (Cursors s d2 n2) = Ok (tt, Cursors (src st') d' n2)
    /\ length d' + length (src st') <= n2).
  { destruct r1.
    - exact (read_and_replace_json_string_as_read _ _ _ _ Hrun d2 n2 Hn).
    - destruct (read_json_string_as_replace _ _ _ _ Hrun d2 n2 Hn)
        as (d' & Hmask & _).
      exact (read_and_replace_json_string_as_read _ _ _ _ Hmask d2 n2 Hn). }
  destruct r2; [|exact Hread].
  destruct Hread as (d' & Hread & _).
  exact (read_json_string_as_replace _ _ _ _ Hread d2 n2 Hn).
Qed.

Lemma read_json_array_loop_any_flag fuel : forall r1 r2 s d1 n1 st',
  read_json_array_loop fuel r1 (Cursors s d1 n1) = Ok (tt, st') ->
  forall d2 n2,
    length d2 + length s <= n2 ->
    exists d2',
      read_json_array_loop fuel r2 (Cursors s d2 n2)
      = Ok (tt, Cursors (src st') d2' n2)
      /\ length d2' + length (src st') <= n2.
Proof.
  induction fuel as [|fuel IH]; intros r1 r2 s d1 n1 st' Hrun d2 n2 Hn;
    [discriminate|].
  destruct s as [|a s]; [discriminate|].
  cbn [read_json_array_loop] in Hrun |- *.
  rewrite (bind_ok _ (peek_cons _ _ _ _)) in Hrun. cbv beta in Hrun.
  run_peek.
  destruct (a != RBRACKET).
  - apply bind_ok_inv in Hrun. destruct Hrun as ([] & st2 & Hstep & Hrun).
    assert (Hone : exists d3,
      (if a == DQUOTE
       then (if r2 return M unit
             then read_and_replace_json_string else read_json_string)
       else copy) (Cursors (a :: s) d2 n2)
      = Ok (tt, Cursors (src st2) d3 n2)
      /\ length d3 + length (src st2) <= n2).
    { destruct (a == DQUOTE).
      - exact (read_string_as_any_flag r1 r2 _ _ _ _ Hstep d2 n2 Hn).
      - rewrite copy_cases in Hstep.
        destruct (length d1 <? n1); [|discriminate].
        injection Hstep as <-. cbn [src].
        eexists. split.
        + apply copy_cons. simpl in Hn. lia.
        + rewrite length_app. simpl in *. lia. }
    destruct Hone as (d3 & Hstep2 & Hn3).
    erewrite (bind_ok _); [ | exact Hstep2 ]. cbv beta.
    destruct st2 as [s2 d2' n2']. cbn [src] in *.
    exact (IH r1 r2 _ _ _ _ Hrun d3 n2 Hn3).
  - unfold ret in Hrun. injection Hrun as <-. cbn [src].
    eexists. split; [reflexivity | exact Hn].
Qed.

Lemma read_json_value_any_flag (r1 r2 : bool) s d1 n1 st' :
  read_json_value r1 (Cursors s d1 n1) = Ok (tt, st') ->
  forall d2 n2,
    length d2 + length s <= n2 ->
    exists d2',
      read_json_value r2 (Cursors s d2 n2) = Ok (tt, Cursors (src st') d2' n2).
Proof.
  intros Hrun d2 n2 Hn. unfold read_json_value in Hrun |- *.
  destruct s as [|a s]; [discriminate|].
  rewrite (bind_ok _ (peek_cons _ _ _ _)) in Hrun. cbv beta in Hrun.
  run_peek.
  destruct (a == DQUOTE); [|destruct (a == LBRACKET)].
  - destruct (read_string_as_any_flag r1 r2 _ _ _ _ Hrun d2 n2 Hn)
      as (d2' & H & _).
    exists d2'. exact H.
  - unfold bind at 1 in Hrun. rewrite copy_cases in Hrun.
    destruct (length d1 <? n1); [|discriminate].
    apply bind_ok_inv in Hrun. destruct Hrun as ([] & st2 & Hloop & Hrun).
    unfold bounded in Hloop. cbn [src] in Hloop.
    destruct (read_json_array_loop_any_flag _ r1 r2 _ _ _ _ Hloop
                (d2 ++ [a]) n2) as (d3 & Hloop2 & Hn3).
    { rewrite length_app. simpl in *. lia. }
    pose proof (run_returns (run_read_json_array_loop _ r1 _
                  (Nat.lt_succ_diag_r _)) Hloop)
      as (c & w & _ & _ & t & Ht).
    destruct st2 as [s2 d2' n2']. cbn [src] in *. subst s2.
    rewrite copy_cases in Hrun. destruct (length d2' <? n2'); [|discriminate].
    injection Hrun as <-. cbn [src].
    erewrite (bind_ok _); [ | apply copy_cons; simpl in Hn; lia ].
    cbv beta.
    erewrite (bind_ok _); [ | unfold bounded; cbn [src]; exact Hloop2 ].
    cbv beta.
    eexists. apply copy_cons. simpl in Hn3. lia.
  - discriminate.
Qed.

(** ** A literal that ends in an escaped backslash, in the array of a target
    key *)

Ltac flatten := repeat first [rewrite <- app_assoc | progress cbn [app]].

Lemma final_app prev x c : final prev (x ++ [c]) = c.
Proof.
  revert prev. induction x as [|a x IH]; intros prev; [reflexivity|].
  cbn [app final]. apply IH.
Qed.

(** The body of a target key ends in the letter of the suffix, not in a
    backslash. *)
Lemma closes_target k : is_target k = true -> closes k = true.
Proof.
  unfold is_target, ends_with. intros H.
  apply andb_true_iff in H. destruct H as [_ H].
  apply chars_eqb_true in H.
  rewrite <- (firstn_skipn (length k - length TARGET_SUFFIX) k), H.
  unfold closes, TARGET_SUFFIX.
  change ["_"%char; "X"%char] with (["_"%char] ++ ["X"%char]).
  rewrite app_assoc, final_app. reflexivity.
Qed.

(** A body read to its end and then on: what follows is read after the last
    byte of the body. *)
Lemma well_quoted_app b : forall prev c,
  quotes_escaped prev b = true ->
  nul_free b = true ->
  well_quoted (final prev b) c = true ->
  well_quoted prev (b ++ c) = true.
Proof.
  induction b as [|a b IH]; intros prev c Hq Hn Hc; [exact Hc|].
  cbn [quotes_escaped] in Hq. apply andb_true_iff in Hq.
  destruct Hq as [Ha Hq].
  unfold nul_free in Hn. cbn [forallb] in Hn. apply andb_true_iff in Hn.
  destruct Hn as [Hnul Hn].
  cbn [app well_quoted]. rewrite Ha, Hnul. cbn [andb].
  apply IH; assumption.
Qed.

(** The literal with what follows it up to the next double quote, as the
    scan reads it: one body. *)
Lemma well_quoted_past_closing_quote b x :
  is_string_body b = true ->
  closes b = false ->
  well_quoted BACKSLASH (DQUOTE :: x) = true ->
  well_quoted DQUOTE (b ++ DQUOTE :: x) = true.
Proof.
  intros Hb Hc Hx. apply well_quoted_app.
  - apply (quotes_escaped_string_body (length b)); [lia | exact Hb].
  - apply (nul_free_string_body (length b)); [lia | exact Hb].
  - unfold closes in Hc. apply char_neqb_false in Hc. rewrite Hc. exact Hx.
Qed.

Lemma scannable_app d1 d2 :
  scannable (d1 ++ d2) = scannable d1 && scannable d2.
Proof. unfold scannable. apply forallb_app. Qed.

Lemma conforming_app d1 d2 :
  conforming (d1 ++ d2) = conforming d1 && conforming d2.
Proof. unfold conforming. apply forallb_app. Qed.

(** The parts of a document of the grammar that has a pair with an array of
    one string, then two more pairs. *)
Lemma conforming_around_array d1 d2 l k s b t e2 e3 :
  conforming (d1 ++ [Entry l k s (VArray [] [(b, [])]) t; e2; e3] ++ d2)
  = true ->
  conforming d1 = true /\ conforming d2 = true
  /\ is_filler l = true /\ is_string_body k = true /\ is_filler s = true
  /\ is_string_body b = true /\ is_filler (trail e3) = true.
Proof.
  intros Hconf. rewrite !conforming_app in Hconf.
  apply andb_true_iff in Hconf. destruct Hconf as [Hd1 Hconf].
  apply andb_true_iff in Hconf. destruct Hconf as [He Hd2].
  unfold conforming in He. cbn [forallb] in He.
  apply andb_true_iff in He. destruct He as [He1 He].
  apply andb_true_iff in He. destruct He as [_ He].
  apply andb_true_iff in He. destruct He as [He3 _].
  unfold conforming_entry in He1, He3.
  cbn [lead key sep val trail conforming_value forallb is_gap] in He1.
  apply andb_true_iff in He1. destruct He1 as [He1 _].
  apply andb_true_iff in He1. destruct He1 as [He1 Hv].
  apply andb_true_iff in He1. destruct He1 as [He1 Hs].
  apply andb_true_iff in He1. destruct He1 as [Hl Hkb].
  cbn [andb] in Hv. rewrite andb_true_r in Hv. unfold conforming_elem in Hv.
  cbn [fst snd is_gap forallb] in Hv. rewrite andb_true_r in Hv.
  apply andb_true_iff in He3. destruct He3 as [_ Ht3].
  repeat split; assumption.
Qed.

(** The array of a target key whose first element ends in an escaped
    backslash.  The masking reader takes the closing quote of the element for
    an escaped one and reads on to the next double quote, the opening quote
    of the key that follows; from there the array loop takes every closing
    quote for an opening one.  With [x] for the bytes between the two quotes,
    [m] for the body of that key and [es] for the spans between double quotes
    that follow, up to a closing bracket outside them, the transform returns
    with all of these spans masked. *)
Lemma json_replace_array_misread d1 d2 l k s b x m es t3 :
  scannable d1 = true ->
  scannable d2 = true ->
  is_filler l = true ->
  well_quoted DQUOTE k = true ->
  is_target k = true ->
  is_filler s = true ->
  is_string_body b = true ->
  closes b = false ->
  well_quoted BACKSLASH (DQUOTE :: x) = true ->
  is_gap m = true ->
  forallb scannable_elem es = true ->
  is_filler t3 = true ->
  json_replace
    (render d1 ++ l ++ quoted k ++ s
     ++ LBRACKET :: quoted b ++ x ++ DQUOTE :: m ++ render_elems es
     ++ RBRACKET :: t3 ++ render d2)
  = Ok (render (mask d1) ++ l ++ quoted k ++ s
        ++ LBRACKET :: quoted [REPLACE_CHAR] ++ m
        ++ render_elems (map mask_elem es)
        ++ RBRACKET :: t3 ++ render (mask d2)).
Proof.
  intros Hd1 Hd2 Hl Hk Ht Hs Hb Hc Hx Hm Hes Ht3.
  pose (e := Entry l k s (VArray [] ((b ++ DQUOTE :: x, m) :: es)) t3).
  assert (Hscan : scannable (d1 ++ [e] ++ d2) = true).
  { rewrite !scannable_app, Hd1, Hd2, andb_true_r. cbn [andb].
    unfold scannable. cbn [forallb]. rewrite andb_true_r.
    unfold scannable_entry, scannable_pair, e.
    cbn [lead key sep val trail scannable_value is_gap forallb].
    rewrite Hl, Hk, Hs, Ht3, Hes. unfold scannable_elem. cbn [fst snd].
    rewrite (well_quoted_past_closing_quote b x Hb Hc Hx), Hm. reflexivity. }
  pose proof (json_replace_around d1 e d2 Hscan) as Hrun.
  rewrite !render_app, render_single in Hrun.
  unfold mask_entry, render_entry, render_pair, e in Hrun.
  cbn [lead key sep val trail] in Hrun. rewrite Ht in Hrun.
  cbn [lead key sep val trail mask_value render_value map app] in Hrun.
  unfold render_elems in Hrun. cbn [flat_map] in Hrun.
  fold (render_elems es) in Hrun.
  fold (render_elems (map mask_elem es)) in Hrun.
  unfold render_elem at 1 2 in Hrun. unfold mask_elem at 1 in Hrun.
  cbn [fst snd] in Hrun.
  assert (Hbody : mask_body (b ++ DQUOTE :: x) = [REPLACE_CHAR]).
  { destruct b; reflexivity. }
  rewrite Hbody in Hrun.
  unfold quoted in *.
  repeat first [rewrite <- app_assoc in Hrun | progress cbn [app] in Hrun].
  flatten. exact Hrun.
Qed.

Lemma gap_not_bracket m x y :
  is_gap m = true -> m ++ x = RBRACKET :: y -> hd NUL x = RBRACKET.
Proof.
  intros Hm Heq. destruct m as [|c m]; [cbn [app] in Heq; rewrite Heq; reflexivity|].
  cbn [app] in Heq. injection Heq as -> _.
  cbn [is_gap forallb] in Hm. discriminate.
Qed.

(** What the document with its values masked has after the first element of
    such an array is the closing bracket: an output that goes on with the
    bytes of a key is another. *)
Lemma render_mask_after_first_element d1 rest l k s b t m x :
  is_target k = true ->
  closes b = false ->
  is_gap m = true ->
  render (mask d1) ++ l ++ quoted k ++ s
  ++ LBRACKET :: quoted [REPLACE_CHAR] ++ m ++ x
  = render (mask (d1 ++ [Entry l k s (VArray [] [(b, [])]) t] ++ rest)) ->
  hd NUL x = RBRACKET.
Proof.
  intros Hk Hb Hm.
  rewrite mask_app, render_app, mask_app, render_app.
  generalize (render (mask rest)). intros r.
  cbn [mask map]. rewrite render_single.
  unfold mask_entry. cbn [key lead sep val trail]. rewrite Hk.
  cbn [mask_value map]. unfold mask_elem. cbn [fst snd].
  assert (Hbody : mask_body b = [REPLACE_CHAR]).
  { destruct b; [discriminate | reflexivity]. }
  rewrite Hbody.
  unfold render_entry, render_pair.
  cbn [lead key sep val trail render_value].
  unfold render_elems. cbn [flat_map]. unfold render_elem, quoted.
  cbn [fst snd]. flatten.
  intros Heq.
  repeat first [apply app_inv_head in Heq | injection Heq as Heq].
  exact (gap_not_bracket m _ _ Hm Heq).
Qed.

(** * The properties of the specification *)

(** C1: over the whole grammar the values of target keys should come out
    masked and every other byte unchanged.  On the code this fails wherever
    the last value of a document is a string that ends in an escaped
    backslash: the masking reader takes the closing quote for an escaped one
    and [json_replace] reads past the terminator.  The document of one target
    key with the value of the letter a and an escaped backslash is of the
    grammar, its expected output masks the value, and it is such a case. *)
Theorem masking_overruns_escaped_backslash
    (d : document) (l k s b t : list char) :
  conforming (d ++ [Entry l k s (VString b) t]) = true ->
  closing d = true ->
  closes k = true ->
  closes b = false ->
  is_target k = true ->
  json_replace (render (d ++ [Entry l k s (VString b) t])) = OutOfBounds
  /\ (let d0 := [Entry [] (text "k_X") (text ": ") (VString (text "a\\")) []] in
      conforming d0 = true
      /\ render d0 = text "'k_X': 'a\\'"
      /\ render (mask d0) = text "'k_X': '*'"
      /\ json_replace (render d0) = OutOfBounds).
Proof.
  intros Hconf Hd Hk Hb _. split.
  - apply json_replace_escaped_backslash_overruns; assumption.
  - cbv zeta. split; [|split; [|split]].
    + reflexivity.
    + reflexivity.
    + reflexivity.
    + vm_compute. reflexivity.
Qed.

Lemma masking_overruns_escaped_backslash_witness :
  json_replace (text "{'user': 'me', 'dir_X': 'C:\\'}") = OutOfBounds
  /\ (let d0 := [Entry [] (text "k_X") (text ": ") (VString (text "a\\")) []] in
      conforming d0 = true
      /\ render d0 = text "'k_X': 'a\\'"
      /\ render (mask d0) = text "'k_X': '*'"
      /\ json_replace (render d0) = OutOfBounds).
Proof.
  refine (masking_overruns_escaped_backslash
            [Entry (text "{") (text "user") (text ": ") (VString (text "me"))
                   (text ", ")]
            [] (text "dir_X") (text ": ") (text "C:\\") (text "}") _ _ _ _ _);
    reflexivity.
Defined.

(** C2 fails as stated: a value that is not a string or an array need not
    raise the error.  The bytes of the number are filler to the scanner, the
    value reader starts at the next quote, and the transform returns with
    another key masked. *)
Lemma number_value_is_skipped_as_filler :
  hd NUL (text "42") <> DQUOTE
  /\ hd NUL (text "42") <> LBRACKET
  /\ json_replace (text "'key_X': " ++ text "42" ++ text ", 'a': 1, 'b': 'c'")
     = Ok (text "'key_X': 42, '*': 1, 'b': 'c'").
Proof.
  split; [discriminate|]. split; [discriminate|].
  vm_compute. reflexivity.
Qed.

(** C2, as the code has it: the value reader throws exactly when the byte
    under the cursor is neither a double quote nor an opening bracket, always
    with the fixed message.  The filler scanner before it stops only at a
    quote, a bracket or the terminator, so through [json_replace] this is an
    input that ends where a value is expected: whatever was read before it,
    the transform then throws with the fixed message and returns no output.
    The input that ends in the number 42 is such a one. *)
Theorem unsupported_value_throws
    (replace : bool) (st : cursors) (d : document) (f ky sp : list char) :
  scannable d = true ->
  is_filler f = true ->
  well_quoted DQUOTE ky = true ->
  is_filler sp = true ->
  ((exists what, read_json_value replace st = Throw what)
   <-> (exists c t, src st = c :: t /\ c <> DQUOTE /\ c <> LBRACKET))
  /\ (forall what,
        read_json_value replace st = Throw what -> what = JSON_READ_ERROR_MSG)
  /\ json_replace (render d ++ f ++ quoted ky ++ sp)
     = Throw JSON_READ_ERROR_MSG
  /\ (forall str what,
        json_replace str = Throw what -> what = JSON_READ_ERROR_MSG)
  /\ json_replace (text "'key_X': 42") = Throw JSON_READ_ERROR_MSG.
Proof.
  intros Hd Hf Hky Hsp.
  assert (Hthrow : forall c t,
            src st = c :: t -> c <> DQUOTE -> c <> LBRACKET ->
            read_json_value replace st = Throw JSON_READ_ERROR_MSG).
  { intros c t Hs Hq Hb. destruct st as [s0 d0 n0]. cbn [src] in Hs. subst s0.
    unfold read_json_value. run_peek.
    rewrite (char_eqb_diff _ _ Hq), (char_eqb_diff _ _ Hb). reflexivity. }
  assert (Hhead : forall what,
            read_json_value replace st = Throw what ->
            exists c t, src st = c :: t /\ c <> DQUOTE /\ c <> LBRACKET).
  { intros what H.
    pose proof (run_read_json_value replace st) as Hrun.
    unfold run in Hrun. rewrite H in Hrun.
    destruct (src st) as [|c t] eqn:Hs.
    - destruct st as [s0 d0 n0]. cbn [src] in Hs. subst s0. discriminate.
    - exists c, t. split; [reflexivity|].
      destruct (Hrun t) as [Hq Hb].
      split; intros ->; [apply Hq | apply Hb]; reflexivity. }
  split; [|split; [|split; [|split]]].
  - split.
    + intros [what H]. exact (Hhead what H).
    + intros (c & t & Hs & Hq & Hb). exists JSON_READ_ERROR_MSG.
      exact (Hthrow c t Hs Hq Hb).
  - intros what H. destruct (Hhead what H) as (c & t & Hs & Hq & Hb).
    rewrite (Hthrow c t Hs Hq Hb) in H. injection H as <-. reflexivity.
  - apply json_replace_dangling_key; assumption.
  - exact json_replace_throws.
  - vm_compute. reflexivity.
Qed.

Lemma unsupported_value_throws_witness :
  ((exists what,
       read_json_value true (Cursors (text "42" ++ [NUL]) (text "'k_X': ") 16)
       = Throw what)
   <-> (exists c t,
          text "42" ++ [NUL] = c :: t /\ c <> DQUOTE /\ c <> LBRACKET))
  /\ (forall what,
        read_json_value true (Cursors (text "42" ++ [NUL]) (text "'k_X': ") 16)
        = Throw what -> what = JSON_READ_ERROR_MSG)
  /\ json_replace (text "{'a_X': 'b', 'key': 42}")
     = Throw JSON_READ_ERROR_MSG
  /\ (forall str what,
        json_replace str = Throw what -> what = JSON_READ_ERROR_MSG)
  /\ json_replace (text "'key_X': 42") = Throw JSON_READ_ERROR_MSG.
Proof.
  refine (unsupported_value_throws true
            (Cursors (text "42" ++ [NUL]) (text "'k_X': ") 16)
            [Entry (text "{") (text "a_X") (text ": ") (VString (text "b"))
                   (text ", ")]
            [] (text "key") (text ": 42}") _ _ _ _);
    reflexivity.
Defined.

(** Where the scan reads every string of a document to its closing quote, an
    empty string is not masked.  The masking reader copies an empty literal as
    it is, whatever follows; and in the output for a scannable document a
    target key keeps an empty scalar value, and an empty element of its array
    value, as the two quotes they were. *)
Lemma empty_string_is_never_masked
    (d1 d2 : document) (l k s t g0 g : list char)
    (es1 es2 : list (list char * list char)) (r dst : list char) (n : nat) :
  is_target k = true ->
  scannable (d1 ++ [Entry l k s (VString []) t] ++ d2) = true ->
  scannable (d1 ++ [Entry l k s (VArray g0 (es1 ++ ([], g) :: es2)) t] ++ d2)
  = true ->
  length dst + length (quoted [] ++ r) <= n ->
  read_and_replace_json_string (Cursors (quoted [] ++ r) dst n)
  = Ok (tt, Cursors r (dst ++ quoted []) n)
  /\ json_replace (render (d1 ++ [Entry l k s (VString []) t] ++ d2))
     = Ok (render (mask d1)
           ++ (l ++ quoted k ++ s ++ quoted [] ++ t)
           ++ render (mask d2))
  /\ json_replace
       (render (d1 ++ [Entry l k s (VArray g0 (es1 ++ ([], g) :: es2)) t] ++ d2))
     = Ok (render (mask d1)
           ++ (l ++ quoted k ++ s
               ++ (LBRACKET :: g0 ++ render_elems (map mask_elem es1)
                   ++ (quoted [] ++ g)
                   ++ render_elems (map mask_elem es2) ++ [RBRACKET])
               ++ t)
           ++ render (mask d2)).
Proof.
  intros Hk Hs Ha Hcap. split; [|split].
  - apply (read_and_replace_json_string_masks [] r dst n); [reflexivity|].
    exact Hcap.
  - rewrite (json_replace_around d1 _ d2 Hs).
    unfold mask_entry. cbn [key lead sep val trail]. rewrite Hk.
    reflexivity.
  - rewrite (json_replace_around d1 _ d2 Ha).
    unfold mask_entry. cbn [key lead sep val trail]. rewrite Hk.
    unfold render_entry, render_pair. cbn [key lead sep val trail].
    cbn [mask_value render_value]. rewrite map_app. cbn [map].
    rewrite render_elems_app.
    change (mask_elem ([], g)) with (@nil char, g).
    rewrite render_elems_cons. rewrite <- !app_assoc. reflexivity.
Qed.

Lemma empty_string_is_never_masked_witness :
  read_and_replace_json_string
    (Cursors (quoted [] ++ text ", 'b'] " ++ [NUL]) (text "'k_X': ['*', ") 64)
  = Ok (tt, Cursors (text ", 'b'] " ++ [NUL])
                    (text "'k_X': ['*', " ++ quoted []) 64)
  /\ json_replace (text "'a': 'b', 'k_X': '', 'c': 'd'")
     = Ok (text "'a': 'b', 'k_X': '', 'c': 'd'")
  /\ json_replace (text "'a': 'b', 'k_X': ['x', '', 'yz'], 'c': 'd'")
     = Ok (text "'a': 'b', 'k_X': ['*', '', '*'], 'c': 'd'").
Proof.
  refine (empty_string_is_never_masked
            [Entry [] (text "a") (text ": ") (VString (text "b")) (text ", ")]
            [Entry [] (text "c") (text ": ") (VString (text "d")) []]
            [] (text "k_X") (text ": ") (text ", ") [] (text ", ")
            [(text "x", text ", ")] [(text "yz", [])]
            (text ", 'b'] " ++ [NUL]) (text "'k_X': ['*', ") 64 _ _ _ _).
  - reflexivity.
  - reflexivity.
  - reflexivity.
  - vm_compute. lia.
Defined.

(** C3: a target key whose value is the empty string should keep it.  On the
    code this fails after an array of a target key whose string ends in an
    escaped backslash: the masking reader takes the closing quote of that
    string for an escaped one and reads on to the opening quote of the next
    key, and from there the array loop takes every closing quote for an
    opening one.  So for every document of the grammar that has such an array
    right before a pair with the empty string as its value, with keys free of
    quotes and brackets and an array further on whose string is an escaped
    quote, the transform returns, but not the document with its values
    masked: the separator of the pair and the comma after it come out as
    placeholders, and the pair of the key and its empty value is no more.
    The object of three keys below is such a document; so is its like with
    the empty string as an array element.  Where the string with the escaped
    backslash is the last one the transform returns nothing, and with a
    backslash in the filler before the empty value the two quotes themselves
    are replaced. *)
Theorem empty_string_lost_after_escaped_backslash
    (d1 d2 : document) (l k s b m k3 t3 : list char) :
  let d := d1 ++ [Entry l k s (VArray [] [(b, [])]) (text ", ");
                  Entry [] m (text ": ") (VString []) (text ", ");
                  Entry [] k3 (text ": ") (VArray [] [(text "\'", [])]) t3]
              ++ d2 in
  conforming d = true ->
  closing d1 = true ->
  closing d2 = true ->
  is_target k = true ->
  closes b = false ->
  is_target m = true ->
  is_gap m = true ->
  is_gap k3 = true ->
  (exists out,
      json_replace (render d) = Ok out
      /\ out = render (mask d1) ++ l ++ quoted k ++ s ++ text "['*'"
               ++ m ++ text "'*''*'" ++ k3 ++ text "'*'\'']" ++ t3
               ++ render (mask d2)
      /\ out <> render (mask d))
  /\ (let d0 := [Entry (text "{") (text "k_X") (text ": ")
                       (VArray [] [(text "C:\\", [])]) (text ", ");
                 Entry [] (text "m_X") (text ": ") (VString []) (text ", ");
                 Entry [] (text "a") (text ": ")
                       (VArray [] [(text "\'", [])]) (text "}")] in
      conforming d0 = true
      /\ render d0 = text "{'k_X': ['C:\\'], 'm_X': '', 'a': ['\'']}"
      /\ render (mask d0) = text "{'k_X': ['*'], 'm_X': '', 'a': ['\'']}"
      /\ json_replace (render d0)
         = Ok (text "{'k_X': ['*'m_X'*''*'a'*'\'']}"))
  /\ json_replace (text "{'k_X': ['C:\\'], 'm_X': ['', 'x'], 'a': ['\'']}")
     = Ok (text "{'k_X': ['*'m_X'*''*'x'*'a'*'\'']}")
  /\ json_replace (text "{'m_X': '', 'dir': 'C:\\'}") = OutOfBounds
  /\ json_replace (text "{'k_X': ['C:\\'], 'm_X':\'', 'a': ['\'']}")
     = Ok (text "{'k_X': ['*'m_X'*', '*': ['*']}").
Proof.
  intros d Hconf Hc1 Hc2 Hk Hb _ Hgm Hgk3.
  split; [|split; [|split; [|split]]].
  - destruct (conforming_around_array _ _ _ _ _ _ _ _ _ Hconf)
      as (Hd1 & Hd2 & Hl & Hkb & Hs & Hv & Ht3).
    cbn [trail] in Ht3.
    assert (Hes : forallb scannable_elem
                    [(text ": ", []); (text ", ", k3);
                     (text ": [", [BACKSLASH]); ([], [])] = true).
    { cbn [forallb]. unfold scannable_elem. cbn [fst snd].
      rewrite Hgk3. reflexivity. }
    pose proof (json_replace_array_misread d1 d2 l k s b (text "], ") m
                  [(text ": ", []); (text ", ", k3);
                   (text ": [", [BACKSLASH]); ([], [])] t3
                  (scannable_conforming d1 Hd1 Hc1)
                  (scannable_conforming d2 Hd2 Hc2)
                  Hl (well_quoted_literal k Hkb (closes_target k Hk)) Hk Hs
                  Hv Hb eq_refl Hgm Hes Ht3) as Hrun.
    eexists. split; [|split].
    + etransitivity; [|exact Hrun]. f_equal.
      unfold d. rewrite !render_app.
      cbn [render flat_map]. unfold render_entry, render_pair.
      cbn [lead key sep val trail render_value].
      unfold render_elems. cbn [flat_map]. unfold render_elem, quoted.
      cbn [fst snd]. flatten. reflexivity.
    + unfold render_elems. cbn [map flat_map].
      unfold render_elem, mask_elem, quoted. cbn [fst snd mask_body].
      flatten. reflexivity.
    + intros Heq.
      pose proof (render_mask_after_first_element d1
                    ([Entry [] m (text ": ") (VString []) (text ", ");
                      Entry [] k3 (text ": ") (VArray [] [(text "\'", [])]) t3]
                     ++ d2) l k s b (text ", ") m _ Hk Hb Hgm Heq) as Hhd.
      discriminate Hhd.
  - cbv zeta. split; [|split; [|split]].
    + reflexivity.
    + reflexivity.
    + reflexivity.
    + vm_compute. reflexivity.
  - vm_compute. reflexivity.
  - vm_compute. reflexivity.
  - vm_compute. reflexivity.
Qed.

Lemma empty_string_lost_after_escaped_backslash_witness :
  exists out,
    json_replace
      (text "{'id': '7', 'dir_X': ['C:\\'], 'note_X': '', 'q': ['\''], 'z_X': 'end'}")
    = Ok out
    /\ out
       = text "{'id': '7', 'dir_X': ['*'note_X'*''*'q'*'\''], 'z_X': '*'}"
    /\ out
       <> text "{'id': '7', 'dir_X': ['*'], 'note_X': '', 'q': ['\''], 'z_X': '*'}".
Proof.
  refine (proj1 (empty_string_lost_after_escaped_backslash
            [Entry (text "{") (text "id") (text ": ") (VString (text "7"))
                   (text ", ")]
            [Entry [] (text "z_X") (text ": ") (VString (text "end"))
                   (text "}")]
            [] (text "dir_X") (text ": ") (text "C:\\") (text "note_X")
            (text "q") (text ", ") _ _ _ _ _ _ _ _));
    reflexivity.
Defined.

(** C4: an input without target keys should come back unchanged.  On the
    code this fails in the same way: wherever the last value of a document
    without target keys is a string that ends in an escaped backslash, the
    verbatim reader takes the closing quote for an escaped one and
    [json_replace] reads past the terminator.  The object of the one key path
    with a directory as its value is of the grammar, has no target key, and is
    such a case. *)
Theorem identity_overruns_escaped_backslash
    (d : document) (l k s b t : list char) :
  conforming (d ++ [Entry l k s (VString b) t]) = true ->
  no_target (d ++ [Entry l k s (VString b) t]) = true ->
  closing d = true ->
  closes k = true ->
  closes b = false ->
  json_replace (render (d ++ [Entry l k s (VString b) t])) = OutOfBounds
  /\ (let d0 := [Entry (text "{") (text "path") (text ": ")
                       (VString (text "C:\\")) (text "}")] in
      conforming d0 = true
      /\ no_target d0 = true
      /\ render d0 = text "{'path': 'C:\\'}"
      /\ json_replace (render d0) = OutOfBounds).
Proof.
  intros Hconf _ Hd Hk Hb. split.
  - apply json_replace_escaped_backslash_overruns; assumption.
  - cbv zeta. split; [|split; [|split]].
    + reflexivity.
    + reflexivity.
    + reflexivity.
    + vm_compute. reflexivity.
Qed.

Lemma identity_overruns_escaped_backslash_witness :
  json_replace (text "'a': ['b', 'c'], 'sep': '\\'") = OutOfBounds
  /\ (let d0 := [Entry (text "{") (text "path") (text ": ")
                       (VString (text "C:\\")) (text "}")] in
      conforming d0 = true
      /\ no_target d0 = true
      /\ render d0 = text "{'path': 'C:\\'}"
      /\ json_replace (render d0) = OutOfBounds).
Proof.
  refine (identity_overruns_escaped_backslash
            [Entry [] (text "a") (text ": ")
                   (VArray [] [(text "b", text ", "); (text "c", [])])
                   (text ", ")]
            [] (text "sep") (text ": ") (text "\\") [] _ _ _ _ _);
    reflexivity.
Defined.

(** C5: for every key the replace decision is the test of the
    specification on the key span with its quotes, a span of at least three
    bytes whose last three are the suffix and a double quote, compared byte
    by byte; so the key whose whole body is the suffix is a target, and a
    suffix in another case is not. *)
Theorem replace_decision_is_suffix_test :
  strlen ESCAPED_TARGET_SUFFIX = 3
  /\ ESCAPED_TARGET_SUFFIX = text "_X'"
  /\ (forall d0 span s n,
        key_is_target (length d0) (strlen ESCAPED_TARGET_SUFFIX)
                      (Cursors s (d0 ++ span) n)
        = Ok (span_is_target span, Cursors s (d0 ++ span) n))
  /\ (forall st replace st',
        (temp <- dest_pos ;;
         read_json_string ;;
         key_is_target temp (strlen ESCAPED_TARGET_SUFFIX)) st
        = Ok (replace, st') ->
        exists span,
          moved st st' span span /\ replace = span_is_target span)
  /\ json_replace (text "'_X': 'val2'") = Ok (text "'_X': '*'")
  /\ json_replace (text "'k_x': 'val2'") = Ok (text "'k_x': 'val2'").
Proof.
  split; [reflexivity|]. split; [reflexivity|].
  split; [exact key_is_target_decides|].
  split; [|split; vm_compute; reflexivity].
  intros st replace st'.
  unfold dest_pos at 1. unfold bind at 1.
  unfold bind.
  pose proof (run_read_json_string st) as Hrun. unfold run in Hrun.
  destruct (read_json_string st) as [[u st1] | what | | ]; try discriminate.
  destruct Hrun as (c & w & (Hcap & Hs & Hd) & -> & _).
  destruct st1 as [s1 d1 n1]. cbn [src dest cap] in *. subst d1.
  rewrite key_is_target_decides. intros H. injection H as <- <-.
  exists c. unfold moved. cbn [src dest cap]. auto.
Qed.

(** C6: the verbatim reader should pass any string literal through exactly,
    and stop after its closing quote.  The escaped flag is set again by the
    second backslash of an escaped backslash, so for every literal whose body
    ends in one the closing quote is taken for an escaped quote: the reader
    never returns at the end of the literal, it copies on to a later double
    quote, and when the literal ends the input it reads past the terminator.
    So it is for the literal of the one letter a and an escaped backslash. *)
Theorem verbatim_reader_passes_closing_quote (b r dst : list char) (n : nat) :
  is_string_body b = true ->
  closes b = false ->
  (forall st',
      read_json_string (Cursors (quoted b ++ r) dst n) = Ok (tt, st') ->
      length (src st') < length r)
  /\ read_json_string (Cursors (quoted b ++ [NUL]) dst n) = OutOfBounds
  /\ is_string_body (text "a\\") = true
  /\ read_json_string
       (Cursors (quoted (text "a\\") ++ text ", 'b'" ++ [NUL]) [] 16)
     = Ok (tt, Cursors (text "b'" ++ [NUL])
                       (quoted (text "a\\") ++ text ", '") 16).
Proof.
  intros Hb Hc.
  assert (Hpast : forall r' st',
    read_json_string (Cursors (quoted b ++ r') dst n) = Ok (tt, st') ->
    length (src st') < length r').
  { intros r' st' Hrun.
    unfold quoted in Hrun. cbn [app] in Hrun. rewrite <- app_assoc in Hrun.
    cbn [app] in Hrun.
    unfold read_json_string in Hrun. unfold bind at 1 in Hrun.
    rewrite copy_cases in Hrun.
    destruct (length dst <? n); [|discriminate].
    unfold bind at 1 in Hrun. unfold bounded at 1 in Hrun. cbn [src] in Hrun.
    destruct (read_json_string_loop _ false _) as [[u st2] | | | ] eqn:Hloop;
      try discriminate.
    destruct u.
    destruct (read_json_string_loop_through b DQUOTE _ (DQUOTE :: r') _ n st2
                (quotes_escaped_string_body (length b) b DQUOTE
                   (Nat.le_refl _) Hb) Hloop) as [fuel' Hl'].
    unfold closes in Hc. apply char_neqb_false in Hc. rewrite Hc in Hl'.
    rewrite char_eqb_refl in Hl'.
    destruct fuel' as [|fuel']; [discriminate|].
    cbn [read_json_string_loop] in Hl'.
    rewrite (bind_ok _ (peek_cons _ _ _ _)) in Hl'. cbv beta in Hl'.
    rewrite orb_true_r in Hl'. unfold bind at 1 in Hl'.
    rewrite copy_cases in Hl'.
    destruct (length _ <? n); [|discriminate].
    destruct (read_json_string_loop_returns _ _ _ _ Hl') as (c & t & Hs & Hs2).
    cbn [src] in Hs.
    destruct st2 as [s2 d2 n2]. cbn [src] in Hs2. subst s2.
    rewrite copy_cases in Hrun.
    destruct (length d2 <? n2); [|discriminate].
    injection Hrun as <-. cbn [src].
    rewrite Hs, length_app. simpl. lia. }
  split; [exact (Hpast r)|].
  split; [|split; [reflexivity | vm_compute; reflexivity]].
  pose proof (run_read_json_string_quote (Cursors (quoted b ++ [NUL]) dst n))
    as Hq.
  unfold run in Hq.
  destruct (read_json_string (Cursors (quoted b ++ [NUL]) dst n))
    as [[u st'] | what | | ] eqn:Hrun; try contradiction; [|reflexivity].
  exfalso. destruct u.
  pose proof (Hpast [NUL] st' Hrun) as Hlen.
  destruct Hq as (c & w & (_ & Hs & _) & c0 & ->).
  cbn [src] in Hs.
  destruct (src st') as [|x t]; [|simpl in Hlen; lia].
  rewrite app_nil_r in Hs. apply app_inj_tail in Hs.
  destruct Hs as [_ Hs]. discriminate.
Qed.

Lemma verbatim_reader_passes_closing_quote_witness :
  (forall st',
      read_json_string
        (Cursors (quoted (text "C:\\") ++ text ", 'b': 'c'" ++ [NUL]) [] 32)
      = Ok (tt, st') ->
      length (src st') < length (text ", 'b': 'c'" ++ [NUL]))
  /\ read_json_string (Cursors (quoted (text "C:\\") ++ [NUL]) [] 32)
     = OutOfBounds
  /\ is_string_body (text "a\\") = true
  /\ read_json_string
       (Cursors (quoted (text "a\\") ++ text ", 'b'" ++ [NUL]) [] 16)
     = Ok (tt, Cursors (text "b'" ++ [NUL])
                       (quoted (text "a\\") ++ text ", '") 16).
Proof.
  refine (verbatim_reader_passes_closing_quote
            (text "C:\\") (text ", 'b': 'c'" ++ [NUL]) [] 32 _ _);
    reflexivity.
Defined.

(** C7: whenever the transform returns, its output is no longer than its
    input, because no routine writes more bytes than it consumes: the filler
    scanner and the verbatim reader write exactly the bytes they consume, the
    masking reader and the value reader at most as many. *)
Theorem output_no_longer_than_input (str out : list char) :
  json_replace str = Ok out ->
  length out <= length str
  /\ (forall st st', read_json_filler st = Ok (tt, st') ->
        exists c, moved st st' c c)
  /\ (forall st st', read_json_string st = Ok (tt, st') ->
        exists c, moved st st' c c)
  /\ (forall st st', read_and_replace_json_string st = Ok (tt, st') ->
        exists c w, moved st st' c w /\ length w <= length c)
  /\ (forall replace st st', read_json_value replace st = Ok (tt, st') ->
        exists c w, moved st st' c w /\ length w <= length c).
Proof.
  intros Hout. split; [|repeat split].
  - unfold json_replace in Hout.
    pose proof (run_json_replace_no_try_catch
                  (Cursors (str ++ [NUL]) [] (strlen (str ++ [NUL]) + 1))) as H.
    unfold run in H.
    destruct (json_replace_no_try_catch _) as [[u st'] | what | | ];
      try discriminate.
    destruct H as (c & w & (_ & Hs & Hd) & w0 & -> & Hw0 & t & Hst').
    cbn [src dest] in Hs, Hd. injection Hout as <-.
    rewrite Hd. cbn [app].
    assert (Hlen : length (str ++ [NUL]) = length (c ++ src st'))
      by (rewrite Hs; reflexivity).
    rewrite Hst', !length_app in Hlen. cbn [length] in Hlen.
    pose proof (length_until_nul (w0 ++ [NUL])) as Hu.
    assert (Hcut : length (until_nul (w0 ++ [NUL])) <= length w0).
    { clear. induction w0 as [|x w0 IH]; [simpl; lia|].
      cbn [app until_nul]. destruct (x == NUL); simpl; lia. }
    lia.
  - intros st st' H.
    destruct (run_returns (run_read_json_filler st) H)
      as (c & w & Hmv & -> & _). exists c. exact Hmv.
  - intros st st' H.
    destruct (run_returns (run_read_json_string st) H)
      as (c & w & Hmv & -> & _). exists c. exact Hmv.
  - intros st st' H.
    destruct (run_returns (run_read_and_replace_json_string st) H)
      as (c & w & Hmv & Hw & _). exists c, w. auto.
  - intros replace st st' H.
    destruct (run_returns (run_read_json_value replace st) H)
      as (c & w & Hmv & Hw & _). exists c, w. auto.
Qed.

Lemma output_no_longer_than_input_witness :
  length (text "'k_X': '*'") <= length (text "'k_X': 'value2'").
Proof.
  refine (proj1 (output_no_longer_than_input
                   (text "'k_X': 'value2'") (text "'k_X': '*'") _)).
  vm_compute. reflexivity.
Defined.

(** C8 fails as stated: not every scan routine strictly advances.  At a
    double quote, where every key starts, the filler scanner returns with the
    cursor where it was. *)
Lemma filler_scanner_may_stand_still :
  read_json_filler (Cursors (text "'k': 'v'" ++ [NUL]) [] 16)
  = Ok (tt, Cursors (text "'k': 'v'" ++ [NUL]) [] 16).
Proof. vm_compute. reflexivity. Qed.

(** C8, as the code has it: on a document of the grammar whose strings do
    not end in a backslash, [json_replace] returns after its single pass.  A
    document is a sequence of key/value pairs with the filler around them,
    the empty input being the sequence of none; an input of filler alone is
    not one.  On
    any input no loop runs out of its budget of one iteration for each byte
    left, since each iteration consumes a byte; no routine moves the source
    cursor back, as what is left is always a suffix of what was; the string
    readers and the value reader advance by at least two bytes, the filler
    scanner by any number, which may be none. *)
Theorem single_pass_terminates (d : document) :
  conforming d = true ->
  closing d = true ->
  (exists out, json_replace (render d) = Ok out)
  /\ (forall str, json_replace str <> OutOfFuel)
  /\ (forall fuel m st,
        length (src st) < fuel -> json_replace_loop fuel m st <> OutOfFuel)
  /\ (forall fuel replace st,
        length (src st) < fuel ->
        read_json_array_loop fuel replace st <> OutOfFuel)
  /\ (forall fuel escaped st,
        length (src st) < fuel ->
        read_json_string_loop fuel escaped st <> OutOfFuel
        /\ skip_json_string_loop fuel escaped st <> OutOfFuel)
  /\ (forall fuel st,
        length (src st) < fuel -> read_json_filler_loop fuel st <> OutOfFuel)
  /\ (forall st st', read_json_filler st = Ok (tt, st') ->
        exists c, src st = c ++ src st')
  /\ (forall st st', read_json_string st = Ok (tt, st') ->
        exists c, src st = c ++ src st' /\ 2 <= length c)
  /\ (forall st st', read_and_replace_json_string st = Ok (tt, st') ->
        exists c, src st = c ++ src st' /\ 2 <= length c)
  /\ (forall replace st st', read_json_value replace st = Ok (tt, st') ->
        exists c, src st = c ++ src st' /\ 2 <= length c).
Proof.
  intros Hd Hc. repeat split.
  - exists (render (mask d)).
    apply json_replace_scannable, scannable_conforming; assumption.
  - exact json_replace_fuel.
  - intros fuel m st Hfuel.
    exact (run_in_budget (run_json_replace_loop fuel m st Hfuel)).
  - intros fuel replace st Hfuel.
    exact (run_in_budget (run_read_json_array_loop fuel replace st Hfuel)).
  - exact (run_in_budget (run_read_json_string_loop fuel escaped st H)).
  - exact (run_in_budget (run_skip_json_string_loop fuel escaped st H)).
  - intros fuel st Hfuel.
    exact (run_in_budget (run_read_json_filler_loop fuel st Hfuel)).
  - intros st st' H.
    destruct (run_returns (run_read_json_filler st) H)
      as (c & w & (_ & Hs & _) & _). exists c. exact Hs.
  - intros st st' H.
    destruct (run_returns (run_read_json_string st) H)
      as (c & w & (_ & Hs & _) & _ & Hlen). exists c. auto.
  - intros st st' H.
    destruct (run_returns (run_read_and_replace_json_string st) H)
      as (c & w & (_ & Hs & _) & _ & Hlen). exists c. auto.
  - intros replace st st' H.
    destruct (run_returns (run_read_json_value replace st) H)
      as (c & w & (_ & Hs & _) & _ & Hlen). exists c. auto.
Qed.

Lemma single_pass_terminates_witness :
  exists out,
    json_replace (text "{'key' : 'va\'l', 'k_X' : ['a', 'b']}") = Ok out.
Proof.
  refine (proj1 (single_pass_terminates
            [Entry (text "{") (text "key") (text " : ")
                   (VString (text "va\'l")) (text ", ");
             Entry [] (text "k_X") (text " : ")
                   (VArray [] [(text "a", text ", "); (text "b", [])])
                   (text "}")] _ _));
    reflexivity.
Defined.

(** C9: once the leading byte of a value is an opening bracket, reading that
    value never throws.  In the array loop a byte under the cursor that is
    neither a closing bracket nor a double quote is copied and the loop goes
    on; so the bytes between the strings of the array, which may be tokens
    that are not strings, come out as they are whichever way the replace flag
    stands, and only the strings are masked. *)
Theorem array_value_never_throws
    (replace : bool) (g : list char) (es : list (list char * list char))
    (r dst : list char) (n : nat) :
  scannable_value (VArray g es) = true ->
  length dst + length (render_value (VArray g es) ++ r) <= n ->
  (forall s d' n' what,
      read_json_value replace (Cursors (LBRACKET :: s) d' n') <> Throw what)
  /\ (forall fuel c s d' n',
        c <> RBRACKET -> c <> DQUOTE -> length d' < n' ->
        read_json_array_loop (S fuel) replace (Cursors (c :: s) d' n')
        = read_json_array_loop fuel replace (Cursors s (d' ++ [c]) n'))
  /\ read_json_value replace (Cursors (render_value (VArray g es) ++ r) dst n)
     = Ok (tt, Cursors r
                 (dst ++ render_value (VArray g (read_elems replace es))) n)
  /\ map snd (read_elems replace es) = map snd es
  /\ json_replace (text "'key_X': [42, 'a']")
     = Ok (text "'key_X': [42, '*']").
Proof.
  intros Hv Hcap. split; [|split; [|split; [|split]]].
  - intros s d' n' what Hthrow.
    pose proof (run_read_json_value replace (Cursors (LBRACKET :: s) d' n'))
      as Hrun.
    unfold run in Hrun. rewrite Hthrow in Hrun.
    destruct (Hrun s) as [_ Hb]. apply Hb. reflexivity.
  - intros fuel c s d' n' Hbr Hq Hlen.
    cbn [read_json_array_loop]. run_peek.
    apply char_neqb_true in Hbr. rewrite Hbr.
    rewrite (char_eqb_diff _ _ Hq).
    rewrite (bind_ok _ (copy_cons c s d' n' Hlen)). reflexivity.
  - rewrite (read_json_value_reads replace (VArray g es) r dst n Hv Hcap).
    destruct replace; reflexivity.
  - destruct replace; [|reflexivity].
    cbn [read_elems]. rewrite map_map. reflexivity.
  - vm_compute. reflexivity.
Qed.

Lemma array_value_never_throws_witness :
  (forall s d' n' what,
      read_json_value true (Cursors (LBRACKET :: s) d' n') <> Throw what)
  /\ (forall fuel c s d' n',
        c <> RBRACKET -> c <> DQUOTE -> length d' < n' ->
        read_json_array_loop (S fuel) true (Cursors (c :: s) d' n')
        = read_json_array_loop fuel true (Cursors s (d' ++ [c]) n'))
  /\ read_json_value true
       (Cursors (text "[42, 'a', true]" ++ text "}" ++ [NUL]) (text "'k_X': ") 32)
     = Ok (tt, Cursors (text "}" ++ [NUL])
                       (text "'k_X': " ++ text "[42, '*', true]") 32)
  /\ map snd (read_elems true [(text "a", text ", true")])
     = map snd [(text "a", text ", true")]
  /\ json_replace (text "'key_X': [42, 'a']")
     = Ok (text "'key_X': [42, '*']").
Proof.
  refine (array_value_never_throws true (text "42, ")
            [(text "a", text ", true")] (text "}" ++ [NUL]) (text "'k_X': ")
            32 _ _).
  - reflexivity.
  - vm_compute. lia.
Defined.

(** An empty array is copied unchanged by the value reader whichever way the
    replace flag stands; and where the scan reads every string of a document
    to its closing quote it is unchanged in the output of the transform, for
    a target key as for any other. *)
Lemma empty_array_is_unchanged
    (replace : bool) (d1 d2 : document) (l k s t r dst : list char) (n : nat) :
  scannable (d1 ++ [Entry l k s (VArray [] []) t] ++ d2) = true ->
  length dst + length (LBRACKET :: RBRACKET :: r) <= n ->
  read_json_value replace (Cursors (LBRACKET :: RBRACKET :: r) dst n)
  = Ok (tt, Cursors r (dst ++ [LBRACKET; RBRACKET]) n)
  /\ json_replace (render (d1 ++ [Entry l k s (VArray [] []) t] ++ d2))
     = Ok (render (mask d1)
           ++ (l ++ quoted k ++ s ++ [LBRACKET; RBRACKET] ++ t)
           ++ render (mask d2))
  /\ json_replace (text "'k_X': []") = Ok (text "'k_X': []").
Proof.
  intros Hs Hcap. split; [|split].
  - change (LBRACKET :: RBRACKET :: r) with (render_value (VArray [] []) ++ r).
    rewrite (read_json_value_reads replace (VArray [] []) r dst n eq_refl Hcap).
    destruct replace; reflexivity.
  - rewrite (json_replace_around d1 _ d2 Hs).
    unfold mask_entry. cbn [key lead sep val trail].
    destruct (is_target k); reflexivity.
  - vm_compute. reflexivity.
Qed.

Lemma empty_array_is_unchanged_witness :
  read_json_value true
    (Cursors (LBRACKET :: RBRACKET :: text ", 'c': 'd'" ++ [NUL])
             (text "'k_X': ") 32)
  = Ok (tt, Cursors (text ", 'c': 'd'" ++ [NUL])
                    (text "'k_X': " ++ [LBRACKET; RBRACKET]) 32)
  /\ json_replace (text "{'a_X': 'b', 'k_X': [], 'c': 'd'}")
     = Ok (text "{'a_X': '*', 'k_X': [], 'c': 'd'}")
  /\ json_replace (text "'k_X': []") = Ok (text "'k_X': []").
Proof.
  refine (empty_array_is_unchanged true
            [Entry (text "{") (text "a_X") (text ": ") (VString (text "b"))
                   (text ", ")]
            [Entry [] (text "c") (text ": ") (VString (text "d")) (text "}")]
            [] (text "k_X") (text ": ") (text ", ")
            (text ", 'c': 'd'" ++ [NUL]) (text "'k_X': ") 32 _ _).
  - reflexivity.
  - vm_compute. lia.
Defined.

(** C10: a target key whose value is the empty array should keep it, and no
    error be raised.  On the code this fails after a string of a target key
    that ends in an escaped backslash, in the same way: the masking reader
    reads on to the opening quote of the next key and the closing quote of
    that key opens a string to the reader, which holds the two brackets.  So
    for every document of the grammar that has an array with such a string
    right before a pair with the empty array as its value, with keys free of
    quotes and brackets and an array further on whose string is an escaped
    quote, the transform returns, but not the document with its values
    masked: the separator, the two brackets and the comma come out as one
    placeholder.  The object of three keys below is such a document; with
    strings in the place of its two arrays of one string the transform throws
    the error of the value reader. *)
Theorem empty_array_lost_after_escaped_backslash
    (d1 d2 : document) (l k s b m k3 t3 : list char) :
  let d := d1 ++ [Entry l k s (VArray [] [(b, [])]) (text ", ");
                  Entry [] m (text ": ") (VArray [] []) (text ", ");
                  Entry [] k3 (text ": ") (VArray [] [(text "\'", [])]) t3]
              ++ d2 in
  conforming d = true ->
  closing d1 = true ->
  closing d2 = true ->
  is_target k = true ->
  closes b = false ->
  is_target m = true ->
  is_gap m = true ->
  is_gap k3 = true ->
  (exists out,
      json_replace (render d) = Ok out
      /\ out = render (mask d1) ++ l ++ quoted k ++ s ++ text "['*'"
               ++ m ++ text "'*'" ++ k3 ++ text "'*'\'']" ++ t3
               ++ render (mask d2)
      /\ out <> render (mask d))
  /\ (let d0 := [Entry (text "{") (text "k_X") (text ": ")
                       (VArray [] [(text "C:\\", [])]) (text ", ");
                 Entry [] (text "m_X") (text ": ") (VArray [] []) (text ", ");
                 Entry [] (text "a") (text ": ")
                       (VArray [] [(text "\'", [])]) (text "}")] in
      conforming d0 = true
      /\ render d0 = text "{'k_X': ['C:\\'], 'm_X': [], 'a': ['\'']}"
      /\ render (mask d0) = text "{'k_X': ['*'], 'm_X': [], 'a': ['\'']}"
      /\ json_replace (render d0) = Ok (text "{'k_X': ['*'m_X'*'a'*'\'']}"))
  /\ (let d0 := [Entry (text "{") (text "k_X") (text ": ")
                       (VString (text "C:\\")) (text ", ");
                 Entry [] (text "m_X") (text ": ") (VArray [] []) (text ", ");
                 Entry [] (text "a") (text ": ")
                       (VString (text "\'")) (text "}")] in
      conforming d0 = true
      /\ render d0 = text "{'k_X': 'C:\\', 'm_X': [], 'a': '\''}"
      /\ render (mask d0) = text "{'k_X': '*', 'm_X': [], 'a': '\''}"
      /\ json_replace (render d0) = Throw JSON_READ_ERROR_MSG).
Proof.
  intros d Hconf Hc1 Hc2 Hk Hb _ Hgm Hgk3.
  split; [|split].
  - destruct (conforming_around_array _ _ _ _ _ _ _ _ _ Hconf)
      as (Hd1 & Hd2 & Hl & Hkb & Hs & Hv & Ht3).
    cbn [trail] in Ht3.
    assert (Hes : forallb scannable_elem
                    [(text ": [], ", k3); (text ": [", [BACKSLASH]); ([], [])]
                  = true).
    { cbn [forallb]. unfold scannable_elem. cbn [fst snd].
      rewrite Hgk3. reflexivity. }
    pose proof (json_replace_array_misread d1 d2 l k s b (text "], ") m
                  [(text ": [], ", k3); (text ": [", [BACKSLASH]); ([], [])]
                  t3
                  (scannable_conforming d1 Hd1 Hc1)
                  (scannable_conforming d2 Hd2 Hc2)
                  Hl (well_quoted_literal k Hkb (closes_target k Hk)) Hk Hs
                  Hv Hb eq_refl Hgm Hes Ht3) as Hrun.
    eexists. split; [|split].
    + etransitivity; [|exact Hrun]. f_equal.
      unfold d. rewrite !render_app.
      cbn [render flat_map]. unfold render_entry, render_pair.
      cbn [lead key sep val trail render_value].
      unfold render_elems. cbn [flat_map]. unfold render_elem, quoted.
      cbn [fst snd]. flatten. reflexivity.
    + unfold render_elems. cbn [map flat_map].
      unfold render_elem, mask_elem, quoted. cbn [fst snd mask_body].
      flatten. reflexivity.
    + intros Heq.
      pose proof (render_mask_after_first_element d1
                    ([Entry [] m (text ": ") (VArray [] []) (text ", ");
                      Entry [] k3 (text ": ") (VArray [] [(text "\'", [])]) t3]
                     ++ d2) l k s b (text ", ") m _ Hk Hb Hgm Heq) as Hhd.
      discriminate Hhd.
  - cbv zeta. split; [|split; [|split]].
    + reflexivity.
    + reflexivity.
    + reflexivity.
    + vm_compute. reflexivity.
  - cbv zeta. split; [|split; [|split]].
    + reflexivity.
    + reflexivity.
    + reflexivity.
    + vm_compute. reflexivity.
Qed.

Lemma empty_array_lost_after_escaped_backslash_witness :
  exists out,
    json_replace
      (text "{'id': '7', 'dir_X': ['C:\\'], 'tags_X': [], 'q': ['\''], 'z_X': 'end'}")
    = Ok out
    /\ out = text "{'id': '7', 'dir_X': ['*'tags_X'*'q'*'\''], 'z_X': '*'}"
    /\ out
       <> text "{'id': '7', 'dir_X': ['*'], 'tags_X': [], 'q': ['\''], 'z_X': '*'}".
Proof.
  refine (proj1 (empty_array_lost_after_escaped_backslash
            [Entry (text "{") (text "id") (text ": ") (VString (text "7"))
                   (text ", ")]
            [Entry [] (text "z_X") (text ": ") (VString (text "end"))
                   (text "}")]
            [] (text "dir_X") (text ": ") (text "C:\\") (text "tags_X")
            (text "q") (text ", ") _ _ _ _ _ _ _ _));
    reflexivity.
Defined.

(** * Further properties of the transform *)

(** Every document of the grammar whose strings do not end in a backslash is
    transformed as specified: the output is the document with the values of
    its target keys masked, string by string, every other byte as it was, and
    every array with the number of elements it had.  A document is a sequence
    of key/value pairs with the filler around them, or the empty input; an
    input of filler alone, such as the empty object, is not one. *)
Theorem conforming_document_is_masked (d : document) :
  conforming d = true ->
  closing d = true ->
  json_replace (render d) = Ok (render (mask d))
  /\ map (fun e => elem_count (val e)) (mask d)
     = map (fun e => elem_count (val e)) d
  /\ map key (mask d) = map key d.
Proof.
  intros Hd Hc. split; [|split].
  - apply json_replace_scannable, scannable_conforming; assumption.
  - clear. induction d as [|e d IH]; [reflexivity|].
    cbn [mask map]. fold (mask d). rewrite IH. f_equal.
    unfold mask_entry. destruct (is_target (key e)); [|reflexivity].
    cbn [val]. destruct (val e) as [b | g es]; [reflexivity|].
    cbn [mask_value elem_count]. apply length_map.
  - clear. induction d as [|e d IH]; [reflexivity|].
    cbn [mask map]. fold (mask d). rewrite IH. f_equal.
    unfold mask_entry. destruct (is_target (key e)); reflexivity.
Qed.

Lemma conforming_document_is_masked_witness :
  json_replace (text "{'key' : 'va\'l', 'k_X' : ['a', '', 'bc']}")
  = Ok (text "{'key' : 'va\'l', 'k_X' : ['*', '', '*']}")
  /\ [0; 3] = [0; 3]
  /\ [text "key"; text "k_X"] = [text "key"; text "k_X"].
Proof.
  refine (conforming_document_is_masked
            [Entry (text "{") (text "key") (text " : ")
                   (VString (text "va\'l")) (text ", ");
             Entry [] (text "k_X") (text " : ")
                   (VArray [] [(text "a", text ", "); ([], text ", ");
                               (text "bc", [])])
                   (text "}")] _ _);
    reflexivity.
Defined.

(** Every such document without a target key comes back byte for byte; as
    before, an input of filler alone is not a document. *)
Theorem document_without_targets_is_unchanged (d : document) :
  conforming d = true ->
  closing d = true ->
  no_target d = true ->
  json_replace (render d) = Ok (render d).
Proof.
  intros Hd Hc Hn.
  rewrite (json_replace_scannable d (scannable_conforming d Hd Hc)).
  rewrite (mask_no_target d Hn). reflexivity.
Qed.

Lemma document_without_targets_is_unchanged_witness :
  json_replace (text "'k':'va\'lue', 'arr': ['x', 'y_X']")
  = Ok (text "'k':'va\'lue', 'arr': ['x', 'y_X']").
Proof.
  refine (document_without_targets_is_unchanged
            [Entry [] (text "k") (text ":") (VString (text "va\'lue"))
                   (text ", ");
             Entry [] (text "arr") (text ": ")
                   (VArray [] [(text "x", text ", "); (text "y_X", [])]) []]
            _ _ _);
    reflexivity.
Defined.

(** An input that is filler only and not empty, such as the empty object, has
    no key for the loop to read: the transform reads past the terminator. *)
Theorem filler_only_input_overruns (f : list char) :
  is_filler f = true ->
  f <> [] ->
  json_replace f = OutOfBounds.
Proof.
  intros Hf Hne. unfold json_replace.
  rewrite (strlen_nul_free f [] (nul_free_filler f Hf)).
  unfold json_replace_no_try_catch, bind, bounded. cbn [src].
  match goal with |- match match ?x with _ => _ end with _ => _ end = _ =>
    assert (Hx : x = OutOfBounds); [|rewrite Hx; reflexivity]
  end.
  rewrite json_replace_loop_enters.
  - erewrite (bind_ok _).
    2:{ apply (read_json_filler_upto f [NUL] [] (length f + 1) Hf eq_refl).
        rewrite length_app. simpl. lia. }
    cbv beta. unfold dest_pos at 1. unfold bind at 1.
    unfold bind at 1. unfold read_json_string. unfold bind at 1.
    rewrite copy_cases. cbn [app].
    replace (length f <? length f + 1) with true
      by (symmetry; apply Nat.ltb_lt; lia).
    reflexivity.
  - destruct f as [|c f]; [contradiction|]. cbn [app].
    simpl in Hf. apply andb_true_iff in Hf. destruct Hf as [Hc _].
    unfold filler_char in Hc.
    apply andb_true_iff in Hc. destruct Hc as [Hc _].
    apply andb_true_iff in Hc. destruct Hc as [Hc _]. exact Hc.
Qed.

Lemma filler_only_input_overruns_witness :
  json_replace (text "{}") = OutOfBounds.
Proof.
  refine (filler_only_input_overruns (text "{}") _ _).
  - reflexivity.
  - discriminate.
Defined.

(** Masking twice is masking once: the output for a document whose strings
    the scan reads to their closing quotes is such a document again, and the
    transform returns it as it is. *)
Theorem masking_twice_is_masking_once (d : document) (out : list char) :
  scannable d = true ->
  json_replace (render d) = Ok out ->
  json_replace out = Ok out.
Proof.
  intros Hd Hrun.
  rewrite (json_replace_scannable d Hd) in Hrun. injection Hrun as <-.
  rewrite (json_replace_scannable (mask d) (scannable_mask d Hd)).
  rewrite mask_idem. reflexivity.
Qed.

Lemma masking_twice_is_masking_once_witness :
  json_replace (text "{'user': 'ann', 'pin_X': '*', 'tags_X': ['*', '']}")
  = Ok (text "{'user': 'ann', 'pin_X': '*', 'tags_X': ['*', '']}").
Proof.
  refine (masking_twice_is_masking_once
            [Entry (text "{") (text "user") (text ": ")
                   (VString (text "ann")) (text ", ");
             Entry [] (text "pin_X") (text ": ")
                   (VString (text "1234")) (text ", ");
             Entry [] (text "tags_X") (text ": ")
                   (VArray [] [(text "a", text ", "); ([], [])])
                   (text "}")]
            (text "{'user': 'ann', 'pin_X': '*', 'tags_X': ['*', '']}")
            _ _);
    vm_compute; reflexivity.
Defined.

(** The output shows nothing of a masked string but whether it is empty: two
    documents that differ only in the bodies of strings under target keys,
    empty bodies staying empty and the others not, have the same output. *)
Theorem masked_values_do_not_show (d1 d2 : document) :
  scannable d1 = true ->
  scannable d2 = true ->
  alike d1 d2 = true ->
  json_replace (render d1) = json_replace (render d2).
Proof.
  intros H1 H2 Ha.
  rewrite (json_replace_scannable d1 H1), (json_replace_scannable d2 H2).
  rewrite (mask_alike d1 d2 Ha). reflexivity.
Qed.

Lemma masked_values_do_not_show_witness :
  json_replace (text "{'user': 'ann', 'pin_X': '1234', 'tags_X': ['a', '']}")
  = json_replace (text "{'user': 'ann', 'pin_X': '99', 'tags_X': ['x\'y', '']}").
Proof.
  refine (masked_values_do_not_show
            [Entry (text "{") (text "user") (text ": ")
                   (VString (text "ann")) (text ", ");
             Entry [] (text "pin_X") (text ": ")
                   (VString (text "1234")) (text ", ");
             Entry [] (text "tags_X") (text ": ")
                   (VArray [] [(text "a", text ", "); ([], [])])
                   (text "}")]
            [Entry (text "{") (text "user") (text ": ")
                   (VString (text "ann")) (text ", ");
             Entry [] (text "pin_X") (text ": ")
                   (VString (text "99")) (text ", ");
             Entry [] (text "tags_X") (text ": ")
                   (VArray [] [(text "x\'y", text ", "); ([], [])])
                   (text "}")]
            _ _ _);
    reflexivity.
Defined.

(** The filler scanner copies the bytes before the next double quote, opening
    bracket or terminator, given room for them, and returns with the cursor
    on that byte; where no such byte lies ahead it reads past the end of the
    source. *)
Theorem filler_scanner_copies_the_filler (f s d : list char) (n : nat) :
  is_filler f = true ->
  filler_stops s = true ->
  length d + length f <= n ->
  read_json_filler (Cursors (f ++ s) d n) = Ok (tt, Cursors s (d ++ f) n)
  /\ read_json_filler (Cursors f d n) = OutOfBounds.
Proof.
  intros Hf Hs Hn. split.
  - apply read_json_filler_exact; assumption.
  - unfold read_json_filler, bounded. cbn [src].
    apply read_json_filler_loop_unstopped; [exact Hf | lia].
Qed.

Lemma filler_scanner_copies_the_filler_witness :
  read_json_filler (Cursors (text " : 42, " ++ text "'b'" ++ [NUL]) (text "'a'") 10)
  = Ok (tt, Cursors (text "'b'" ++ [NUL]) (text "'a'" ++ text " : 42, ") 10)
  /\ read_json_filler (Cursors (text " : 42, ") (text "'a'") 10) = OutOfBounds.
Proof.
  refine (filler_scanner_copies_the_filler
            (text " : 42, ") (text "'b'" ++ [NUL]) (text "'a'") 10 _ _ _).
  - reflexivity.
  - reflexivity.
  - simpl. lia.
Defined.

(** The verbatim reader, given room for the literal, copies it and returns
    right after its closing quote exactly when every double quote of the body
    comes right after a backslash and the body does not end in a
    backslash. *)
Theorem verbatim_reader_returns_after_the_literal_iff
    (b r d : list char) (n : nat) :
  length d + length (quoted b) <= n ->
  read_json_string (Cursors (quoted b ++ r) d n)
  = Ok (tt, Cursors r (d ++ quoted b) n)
  <-> quotes_escaped DQUOTE b = true /\ closes b = true.
Proof.
  intros Hn. split.
  - intros Hrun. exact (read_json_string_closes b r d n _ Hrun eq_refl).
  - intros [Hq Hc]. apply read_json_string_exact; assumption.
Qed.

Lemma verbatim_reader_returns_after_the_literal_iff_witness :
  read_json_string (Cursors (quoted (text "va\'lue") ++ text ", 'k'") [] 10)
  = Ok (tt, Cursors (text ", 'k'") ([] ++ quoted (text "va\'lue")) 10)
  <-> quotes_escaped DQUOTE (text "va\'lue") = true
      /\ closes (text "va\'lue") = true.
Proof.
  refine (verbatim_reader_returns_after_the_literal_iff
            (text "va\'lue") (text ", 'k'") [] 10 _).
  simpl. lia.
Defined.

(** The masking reader, given room for what it writes, returns right after
    the closing quote of the literal, having written the placeholder between
    two quotes, or the two quotes alone for an empty body, exactly under the
    same condition on the body. *)
Theorem masking_reader_returns_after_the_literal_iff
    (b r d : list char) (n : nat) :
  length d + length (quoted (mask_body b)) <= n ->
  read_and_replace_json_string (Cursors (quoted b ++ r) d n)
  = Ok (tt, Cursors r (d ++ quoted (mask_body b)) n)
  <-> quotes_escaped DQUOTE b = true /\ closes b = true.
Proof.
  intros Hn. split.
  - intros Hrun.
    exact (read_and_replace_json_string_closes b r d n _ Hrun eq_refl).
  - intros [Hq Hc]. apply read_and_replace_json_string_exact; assumption.
Qed.

Lemma masking_reader_returns_after_the_literal_iff_witness :
  read_and_replace_json_string
    (Cursors (quoted (text "a long va\'lue") ++ text ", 'k'") [] 3)
  = Ok (tt, Cursors (text ", 'k'") ([] ++ quoted (mask_body (text "a long va\'lue"))) 3)
  <-> quotes_escaped DQUOTE (text "a long va\'lue") = true
      /\ closes (text "a long va\'lue") = true.
Proof.
  refine (masking_reader_returns_after_the_literal_iff
            (text "a long va\'lue") (text ", 'k'") [] 3 _).
  simpl. lia.
Defined.

(** Whatever the input, a value that the value reader reads is delimited: it
    has consumed a span between two double quotes and written it as it is,
    or masked when the flag is set; or it has consumed a span between an
    opening and a closing bracket and written those brackets around bytes
    that are no more than it consumed, and the same when the flag is not
    set. *)
Theorem value_reader_keeps_the_delimiters
    (replace : bool) (st st' : cursors) :
  read_json_value replace st = Ok (tt, st') ->
  exists c w,
    moved st st' c w
    /\ ((exists body,
            c = quoted body
            /\ w = quoted (if replace then mask_body body else body))
        \/ (exists body wbody,
              c = LBRACKET :: body ++ [RBRACKET]
              /\ w = LBRACKET :: wbody ++ [RBRACKET]
              /\ length wbody <= length body
              /\ (replace = false -> wbody = body))).
Proof.
  intros Hrun.
  exact (run_returns (run_read_json_value_shape replace st) Hrun).
Qed.

Lemma value_reader_keeps_the_delimiters_witness :
  exists c w,
    moved (Cursors (text "['a', 7], 'k'" ++ [NUL]) [] 16)
          (Cursors (text ", 'k'" ++ [NUL]) (text "['*', 7]") 16) c w
    /\ ((exists body,
            c = quoted body
            /\ w = quoted (if true then mask_body body else body))
        \/ (exists body wbody,
              c = LBRACKET :: body ++ [RBRACKET]
              /\ w = LBRACKET :: wbody ++ [RBRACKET]
              /\ length wbody <= length body
              /\ (true = false -> wbody = body))).
Proof.
  refine (value_reader_keeps_the_delimiters true
            (Cursors (text "['a', 7], 'k'" ++ [NUL]) [] 16)
            (Cursors (text ", 'k'" ++ [NUL]) (text "['*', 7]") 16) _).
  vm_compute. reflexivity.
Defined.

(** On a C string the error is raised only where the input ends after a
    key: the input is then some bytes, a double quote, and bytes that are
    neither a double quote nor an opening bracket. *)
Theorem error_only_where_the_input_ends_after_a_key
    (str : list char) (what : string) :
  nul_free str = true ->
  json_replace str = Throw what ->
  exists pre f, str = pre ++ DQUOTE :: f /\ is_filler f = true.
Proof.
  intros Hs H. unfold json_replace in H.
  destruct (json_replace_no_try_catch _) as [[[] st'] | what' | | ] eqn:Hrun;
    try discriminate.
  exact (proj1 (json_replace_no_try_catch_throws_moves str _ what' Hs Hrun)).
Qed.

Lemma error_only_where_the_input_ends_after_a_key_witness :
  exists pre f,
    text "{'a': 'b', 'key_X': 42}" = pre ++ DQUOTE :: f /\ is_filler f = true.
Proof.
  refine (error_only_where_the_input_ends_after_a_key
            (text "{'a': 'b', 'key_X': 42}") JSON_READ_ERROR_MSG _ _).
  - reflexivity.
  - vm_compute. reflexivity.
Defined.

(** A C string in which the suffix followed by a double quote occurs nowhere
    is never changed: whenever the transform returns, values that are not
    strings or arrays among them or not, the output is the input. *)
Theorem input_without_the_suffix_is_unchanged (str out : list char) :
  nul_free str = true ->
  occurs ESCAPED_TARGET_SUFFIX str = false ->
  json_replace str = Ok out ->
  out = str.
Proof.
  intros Hs Hno Hrun.
  destruct (json_replace_returns str out Hs Hrun) as (st' & Hrun' & ->).
  unfold json_replace_no_try_catch in Hrun'.
  apply bind_ok_inv in Hrun'. destruct Hrun' as ([] & st1 & Hloop & Hemit).
  unfold bounded in Hloop. cbn [src] in Hloop.
  pose proof (run_json_replace_loop_verbatim _
                (Cursors (str ++ [NUL]) [] (length str + 1))
                (Nat.lt_succ_diag_r _)
                (occurs_before_terminator str Hno)) as R.
  destruct (run_returns R Hloop)
    as (c & w & (_ & Hsrc & Hdest) & -> & t & Ht).
  cbn [src dest app] in Hsrc, Hdest. rewrite Ht in Hsrc.
  destruct (terminator_of_nul_free str c t Hs (eq_sym Hsrc)) as [-> _].
  unfold emit in Hemit. destruct (_ <? _); [|discriminate].
  injection Hemit as <-. cbn [dest]. rewrite Hdest.
  apply until_nul_nul_free. exact Hs.
Qed.

Lemma input_without_the_suffix_is_unchanged_witness :
  json_replace (text "{'id_x': 17, 'ok': true}")
  = Ok (text "{'id_x': 17, 'ok': true}")
  /\ text "{'id_x': 17, 'ok': true}"
     = text "{'id_x': 17, 'ok': true}".
Proof.
  split; [vm_compute; reflexivity|].
  refine (input_without_the_suffix_is_unchanged
            (text "{'id_x': 17, 'ok': true}")
            (text "{'id_x': 17, 'ok': true}") _ _ _);
    vm_compute; reflexivity.
Defined.

(** The transform reads a C string: when it returns or throws on the bytes
    before a NUL, it does the same whatever bytes lie behind that NUL, as
    in a [std::string] that holds one.  An input that starts with a NUL, as
    the empty string does, gives the empty string. *)
Theorem bytes_behind_the_terminator_are_ignored (s t : list char) :
  nul_free s = true ->
  json_replace s <> OutOfBounds ->
  json_replace (s ++ NUL :: t) = json_replace s
  /\ json_replace (NUL :: t) = Ok [].
Proof.
  intros Hs Hin. split; [|reflexivity].
  unfold json_replace in *.
  rewrite <- app_assoc. cbn [app].
  rewrite (strlen_nul_free s (t ++ [NUL]) Hs).
  rewrite (strlen_nul_free s [] Hs) in *.
  destruct (json_replace_no_try_catch (Cursors (s ++ [NUL]) [] _))
    as [[[] st'] | what | | ] eqn:Hrun.
  - destruct (json_replace_no_try_catch_moves s _ st' Hs Hrun)
      as (w & -> & _ & _ & Hany & _).
    rewrite (Hany (t ++ [NUL]) (length s + 1)) by lia. reflexivity.
  - destruct (json_replace_no_try_catch_throws_moves s _ what Hs Hrun)
      as [_ Hany].
    rewrite (Hany (t ++ [NUL]) (length s + 1)) by lia. reflexivity.
  - congruence.
  - exfalso.
    exact (run_in_budget (run_json_replace_no_try_catch _) Hrun).
Qed.

Lemma bytes_behind_the_terminator_are_ignored_witness :
  json_replace (text "'k_X': 'v'" ++ NUL :: text "', 'more': 'bytes'")
  = json_replace (text "'k_X': 'v'")
  /\ json_replace (NUL :: text "', 'more': 'bytes'") = Ok [].
Proof.
  refine (bytes_behind_the_terminator_are_ignored
            (text "'k_X': 'v'") (text "', 'more': 'bytes'") _ _).
  - reflexivity.
  - vm_compute. discriminate.
Defined.

(** The allocation of [strlen (str) + 1] bytes is enough for a C string: in
    any larger allocation the run ends in the same way, at the same place of
    the input and with the same bytes written.  So where a run is out of
    bounds it is the source cursor that has left the input, never the
    destination cursor that has left the allocation. *)
Theorem allocation_is_sufficient (str : list char) (n : nat) :
  nul_free str = true ->
  strlen (str ++ [NUL]) + 1 <= n ->
  outcome (json_replace_no_try_catch (Cursors (str ++ [NUL]) [] n))
  = outcome (json_replace_no_try_catch
               (Cursors (str ++ [NUL]) [] (strlen (str ++ [NUL]) + 1))).
Proof.
  intros Hs Hn. rewrite (strlen_nul_free str [] Hs) in *.
  assert (Hok : forall n1 n2 st1,
    length str < n2 ->
    json_replace_no_try_catch (Cursors (str ++ [NUL]) [] n1) = Ok (tt, st1) ->
    exists st2,
      json_replace_no_try_catch (Cursors (str ++ [NUL]) [] n2) = Ok (tt, st2)
      /\ src st2 = src st1 /\ dest st2 = dest st1).
  { intros n1 n2 st1 Hn2 Hrun.
    destruct (json_replace_no_try_catch_moves str _ st1 Hs Hrun)
      as (w & -> & _ & _ & Hany & _).
    eexists. split; [apply (Hany [] n2 Hn2)|]. auto. }
  assert (Hthrow : forall n1 n2 what,
    length str < n2 ->
    json_replace_no_try_catch (Cursors (str ++ [NUL]) [] n1) = Throw what ->
    json_replace_no_try_catch (Cursors (str ++ [NUL]) [] n2) = Throw what).
  { intros n1 n2 what Hn2 Hrun.
    destruct (json_replace_no_try_catch_throws_moves str _ what Hs Hrun)
      as [_ Hany].
    apply (Hany [] n2 Hn2). }
  destruct (json_replace_no_try_catch (Cursors (str ++ [NUL]) [] n))
    as [[[] st1] | what | | ] eqn:H1.
  - destruct (Hok n (length str + 1) st1 ltac:(lia) H1)
      as (st2 & -> & Hs2 & Hd2).
    cbn [outcome]. rewrite Hs2, Hd2. reflexivity.
  - rewrite (Hthrow n (length str + 1) what ltac:(lia) H1). reflexivity.
  - destruct (json_replace_no_try_catch
                (Cursors (str ++ [NUL]) [] (length str + 1)))
      as [[[] st2] | what | | ] eqn:H2.
    + destruct (Hok (length str + 1) n st2 ltac:(lia) H2) as (st1 & H1' & _).
      congruence.
    + pose proof (Hthrow (length str + 1) n what ltac:(lia) H2). congruence.
    + reflexivity.
    + exfalso.
      exact (run_in_budget (run_json_replace_no_try_catch _) H2).
  - exfalso.
    exact (run_in_budget (run_json_replace_no_try_catch _) H1).
Qed.

Lemma allocation_is_sufficient_witness :
  outcome (json_replace_no_try_catch
             (Cursors (text "'k_X': ['ab', 'c\\']" ++ [NUL]) [] 4096))
  = outcome (json_replace_no_try_catch
               (Cursors (text "'k_X': ['ab', 'c\\']" ++ [NUL]) []
                        (strlen (text "'k_X': ['ab', 'c\\']" ++ [NUL]) + 1))).
Proof.
  refine (allocation_is_sufficient (text "'k_X': ['ab', 'c\\']") 4096 _ _).
  - reflexivity.
  - vm_compute. lia.
Defined.

(** The transform goes pair by pair and keeps nothing from one pair to the
    next: for two C strings on each of which it returns, it returns on the
    two put together, with the two outputs put together. *)
Theorem transform_of_concatenation (a b oa ob : list char) :
  nul_free a = true ->
  nul_free b = true ->
  json_replace a = Ok oa ->
  json_replace b = Ok ob ->
  json_replace (a ++ b) = Ok (oa ++ ob).
Proof.
  intros Ha Hb Hra Hrb.
  destruct (json_replace_returns a oa Ha Hra) as (sta & Hruna & ->).
  destruct (json_replace_returns b ob Hb Hrb) as (stb & Hrunb & ->).
  destruct (json_replace_no_try_catch_moves a _ sta Ha Hruna)
    as (wa & -> & Hwa & Hza & _ & Hanya).
  destruct (json_replace_no_try_catch_moves b _ stb Hb Hrunb)
    as (wb & -> & Hwb & Hzb & _ & Hanyb).
  cbn [dest] in *.
  rewrite (until_nul_nul_free wa [] Hza) in *.
  rewrite (until_nul_nul_free wb [] Hzb) in *.
  destruct a as [|a0 a1].
  { destruct wa; [|simpl in Hwa; lia]. cbn [app]. exact Hrb. }
  destruct b as [|b0 b1].
  { destruct wb; [|simpl in Hwb; lia]. rewrite !app_nil_r. exact Hra. }
  set (a := a0 :: a1) in *. set (b := b0 :: b1) in *.
  assert (HT : resumes (b ++ [NUL]) [NUL] wb (length b) (length b)).
  { apply resumes_after; [discriminate | exact Hb |].
    intros p n' fuel' Hn Hfuel.
    rewrite (Hanyb ltac:(discriminate) _ _ _ _ _ (resumes_at_nul []) p n' fuel')
      by lia.
    rewrite app_nil_r. reflexivity. }
  assert (Hab : nul_free (a ++ b) = true)
    by (rewrite nul_free_app, Ha, Hb; reflexivity).
  unfold json_replace. rewrite (strlen_nul_free (a ++ b) [] Hab).
  unfold json_replace_no_try_catch, bounded. cbn [src].
  rewrite <- app_assoc.
  erewrite (bind_ok _).
  2:{ apply (Hanya ltac:(discriminate) _ _ _ _ _ HT []).
      - rewrite length_app. simpl. lia.
      - cbn [src]. rewrite !length_app. cbn [length]. lia. }
  cbv beta. cbn [app].
  rewrite emit_ok by (rewrite !length_app in *; lia).
  cbn [dest]. rewrite until_nul_nul_free; [reflexivity|].
  rewrite nul_free_app, Hza, Hzb. reflexivity.
Qed.

Lemma transform_of_concatenation_witness :
  json_replace (text "{'a': 'b', " ++ text "'k_X': ['v', 7]}")
  = Ok (text "{'a': 'b', " ++ text "'k_X': ['*', 7]}").
Proof.
  refine (transform_of_concatenation
            (text "{'a': 'b', ") (text "'k_X': ['v', 7]}")
            (text "{'a': 'b', ") (text "'k_X': ['*', 7]}") _ _ _ _);
    vm_compute; reflexivity.
Defined.

(** When [json_replace_no_try_catch] returns on a C string, the source
    cursor stands on the terminator of the input and the destination holds a
    C string: the output, no NUL in it and no longer than the input, with the
    terminator after it; the allocation is as it was. *)
Theorem transform_leaves_a_c_string
    (str : list char) (n : nat) (st' : cursors) :
  nul_free str = true ->
  json_replace_no_try_catch (Cursors (str ++ [NUL]) [] n) = Ok (tt, st') ->
  exists out,
    st' = Cursors [NUL] (out ++ [NUL]) n
    /\ nul_free out = true
    /\ length out <= length str
    /\ until_nul (dest st') = out.
Proof.
  intros Hs Hrun.
  destruct (json_replace_no_try_catch_moves str n st' Hs Hrun)
    as (w & -> & Hw & Hz & _).
  exists w. repeat split; auto.
  cbn [dest]. apply until_nul_nul_free. exact Hz.
Qed.

Lemma transform_leaves_a_c_string_witness :
  exists out,
    Cursors [NUL] (text "'k_X': '*', 'a': 'b'" ++ [NUL]) 32
    = Cursors [NUL] (out ++ [NUL]) 32
    /\ nul_free out = true
    /\ length out <= length (text "'k_X': 'value', 'a': 'b'")
    /\ until_nul (dest (Cursors [NUL] (text "'k_X': '*', 'a': 'b'" ++ [NUL]) 32))
       = out.
Proof.
  refine (transform_leaves_a_c_string
            (text "'k_X': 'value', 'a': 'b'") 32
            (Cursors [NUL] (text "'k_X': '*', 'a': 'b'" ++ [NUL]) 32) _ _).
  - reflexivity.
  - vm_compute. reflexivity.
Defined.

(** The replace flag changes what is written, never what is consumed:
    whenever the value reader returns on a source, it returns at the same
    place of that source under either flag, after any output, in any
    allocation with room for the bytes of the source. *)
Theorem replace_flag_does_not_change_what_is_consumed
    (r1 r2 : bool) (s d1 d2 : list char) (n1 n2 : nat) (st1 : cursors) :
  read_json_value r1 (Cursors s d1 n1) = Ok (tt, st1) ->
  length d2 + length s <= n2 ->
  exists d2',
    read_json_value r2 (Cursors s d2 n2) = Ok (tt, Cursors (src st1) d2' n2).
Proof.
  intros Hrun Hn.
  exact (read_json_value_any_flag r1 r2 s d1 n1 st1 Hrun d2 n2 Hn).
Qed.

Lemma replace_flag_does_not_change_what_is_consumed_witness :
  exists d2',
    read_json_value true (Cursors (text "['a\'b', 7, ''] , 'k'" ++ [NUL]) [] 32)
    = Ok (tt, Cursors (src (Cursors (text " , 'k'" ++ [NUL])
                                    (text "'x': ['a\'b', 7, '']") 64))
                      d2' 32).
Proof.
  refine (replace_flag_does_not_change_what_is_consumed false true
            (text "['a\'b', 7, ''] , 'k'" ++ [NUL]) (text "'x': ") [] 64 32
            (Cursors (text " , 'k'" ++ [NUL]) (text "'x': ['a\'b', 7, '']") 64)
            _ _).
  - vm_compute. reflexivity.
  - simpl. lia.
Defined.

(** The test program of the source runs to its end: each of its eight
    comparisons holds, nothing is thrown, and [main] returns [EXIT_SUCCESS]
    after the lines below have gone to [std::cout]. *)
Theorem test_program_passes :
  main []
  = (lines ["running tests..."%string;
            "Running test 1: various inputs ..."%string;
            "Test 1 passed: various inputs"%string;
            "Running test 2: various replacements ..."%string;
            "Test 2 passed: various replacements"%string;
            "Running test 3: original string unchanged ..."%string;
            "Test 3 passed: original string unchanged"%string;
            "Running test 4: various edge cases ..."%string;
            "Test 4 passed: various edge cases"%string;
            "Running test 5: hebrew ..."%string;
            "Test 5 passed: hebrew"%string;
            "Running test 6: curly bracketed json ..."%string;
            "Test 6 passed: curly bracketed json"%string;
            "Running test 7: japanese ..."%string;
            "Test 7 passed: japanese"%string;
            "Running test 8: short keys ..."%string;
            "Test 8 passed: short keys"%string;
            "Passed all tests!"%string],
     Exited EXIT_SUCCESS).
Proof. vm_compute. reflexivity. Qed.
